(** * aiohomekit: the characteristic value contract

    A shallow embedding of
    [aiohomekit/model/characteristics/characteristic.py]: the class
    [Characteristic] (construction, the guarded write path [set_value],
    the compact transport entry points [set_value_from_ble] and
    [get_value_for_ble], the wire descriptor) and the module-level
    function [check_convert_value].

    Python objects are modelled by the type [pyval]; an exception is a
    value of [exn]; a method of [Characteristic] is a function from the
    object before the call to an outcome and the object after the call.
    The parts of the Python runtime the module relies on ([int], [float],
    [str], [decimal], [struct], [base64], [distutils.util.strtobool]) are
    modelled next to the code, each in its own module. *)

From stdpp Require Import base gmap strings list.
From Stdlib Require Import ZArith Lia Bool List String Ascii Strings.Byte.
From Stdlib Require Import Floats.SpecFloat.
From Stdlib Require Import DecimalString DecimalPos.
Import ListNotations.
Local Open Scope Z_scope.

(** ** Python values *)

(** The objects a characteristic value can be.  [PStr] holds the UTF-8
    encoding of the text, one [ascii] per byte; a [dict] occurs in the
    source only as the empty default of the [dict] format. *)
#[warnings="-register-all"]
Inductive pyval : Type :=
| PNone
| PBool (b : bool)
| PInt (z : Z)
| PFloat (f : spec_float)
| PStr (s : string)
| PBytes (bs : list byte)
| PList (items : list pyval)
| PDictEmpty.

(** Numbers as configuration data has them: [int] or [float]. *)
Inductive num : Type :=
| NInt (z : Z)
| NFloat (f : spec_float).

Definition pyval_of_num (n : num) : pyval :=
  match n with
  | NInt z => PInt z
  | NFloat f => PFloat f
  end.

(** ** Enumerations of the protocol *)

Inductive CharacteristicFormats : Type :=
| Fbool | Fuint8 | Fuint16 | Fuint32 | Fuint64 | Fint | Ffloat
| Fstring | Fdata | Ftlv8 | Farray | Fdict.

(** Modelled from the spec: [CharacteristicPermissions] is declared in
    [permissions.py], which is not among the sources; the spec gives the
    permission set as drawn from read, write, notify and others. *)
Inductive CharacteristicPermissions : Type :=
| paired_read | paired_write | events
| addition_authorization | timed_write | hidden | write_response.

(** Modelled from the spec: [HapStatusCodes] is declared in
    [protocol/statuscodes.py]; these are the four codes the module uses. *)
Inductive HapStatusCodes : Type :=
| CANT_WRITE_READ_ONLY | CANT_READ_WRITE_ONLY | INVALID_VALUE | OUT_OF_RESOURCES.

#[global] Instance CharacteristicFormats_eq_dec : EqDecision CharacteristicFormats.
Proof. solve_decision. Defined.

#[global] Instance CharacteristicPermissions_eq_dec : EqDecision CharacteristicPermissions.
Proof. solve_decision. Defined.

#[global] Instance HapStatusCodes_eq_dec : EqDecision HapStatusCodes.
Proof. solve_decision. Defined.

#[global] Instance byte_eq_decision : EqDecision byte := Byte.byte_eq_dec.

(** ** Exceptions *)

(** What a [FormatError] is raised with: a status code, or the message
    ["{v}" is no valid "{t}"!] built from a value and a format. *)
Inductive FormatErrorArg : Type :=
| FE_status (code : HapStatusCodes)
| FE_no_valid (v : pyval) (t : option CharacteristicFormats).

Inductive exn : Type :=
| CharacteristicPermissionError (code : HapStatusCodes)
| FormatError (arg : FormatErrorArg)
| ValueError
| TypeError
| AttributeError
| OverflowError
| struct_error
| binascii_Error
| UnicodeDecodeError
| InvalidOperation
| DivisionByZero
| DecimalOverflow
| TlvParseException.

(** [isinstance(e, ValueError)]: [binascii.Error] and [UnicodeDecodeError]
    derive from [ValueError]; the [decimal] signals derive from
    [ArithmeticError] and are not [ValueError]s. *)
Definition is_ValueError (e : exn) : bool :=
  match e with
  | ValueError | binascii_Error | UnicodeDecodeError => true
  | _ => false
  end.

Definition is_binascii_Error (e : exn) : bool :=
  match e with
  | binascii_Error => true
  | _ => false
  end.

Definition is_TlvParseException (e : exn) : bool :=
  match e with
  | TlvParseException => true
  | _ => false
  end.

(** ** Outcomes of a computation that may raise *)

Inductive res (A : Type) : Type :=
| Ok (a : A)
| Raise (e : exn).

Arguments Ok {A} a.
Arguments Raise {A} e.

Definition rbind {A B : Type} (r : res A) (k : A -> res B) : res B :=
  match r with
  | Ok a => k a
  | Raise e => Raise e
  end.

(** [try: r except <handles>: raise e'] *)
Definition try_except {A : Type} (r : res A) (handles : exn -> bool) (e' : exn) : res A :=
  match r with
  | Ok a => Ok a
  | Raise e => if handles e then Raise e' else Raise e
  end.

Declare Scope res_scope.
Delimit Scope res_scope with res.
Notation "x <- c1 ;; c2" := (rbind c1 (fun x => c2))
  (at level 100, c1 at next level, right associativity) : res_scope.
Local Open Scope res_scope.

(** ** Text *)

(** Characters are compared by code. *)
Definition code (c : ascii) : Z := Z.of_N (N_of_ascii c).

Definition is_digit (c : ascii) : bool := (48 <=? code c) && (code c <=? 57).

(** The ASCII characters [str.strip] removes; the non-ASCII spaces of
    Unicode are not modelled. *)
Definition is_space (c : ascii) : bool :=
  let n := code c in
  ((9 <=? n) && (n <=? 13)) || ((28 <=? n) && (n <=? 32)).

Definition lower_char (c : ascii) : ascii :=
  let n := code c in
  if (65 <=? n) && (n <=? 90) then ascii_of_N (Z.to_N (n + 32)) else c.

(** [s.lower()] on ASCII letters. *)
Definition lower (s : list ascii) : list ascii := List.map lower_char s.

Fixpoint lstrip (s : list ascii) : list ascii :=
  match s with
  | c :: r => if is_space c then lstrip r else s
  | [] => []
  end.

(** [s.strip()] *)
Definition strip (s : list ascii) : list ascii :=
  List.rev (lstrip (List.rev (lstrip s))).

Definition chars (s : string) : list ascii := list_ascii_of_string s.
Definition text (l : list ascii) : string := string_of_list_ascii l.

(** Longest prefix of decimal digits, and what follows it. *)
Fixpoint span_digits (s : list ascii) : list ascii * list ascii :=
  match s with
  | c :: r =>
      if is_digit c then let '(d, t) := span_digits r in (c :: d, t) else ([], s)
  | [] => ([], [])
  end.

(** Value of a string of decimal digits ([None] when a character is not a
    digit); the empty string counts 0. *)
Definition digits_value (s : list ascii) : option N :=
  option_map N.of_uint (NilEmpty.uint_of_string (text s)).

(** [str(n)] for an [int]. *)
Definition str_of_Z (z : Z) : string := NilZero.string_of_int (Z.to_int z).

(** [str(n)] for a natural number, as a list of characters. *)
Definition digits_of_N (n : N) : list ascii := chars (NilZero.string_of_uint (N.to_uint n)).

Fixpoint ndigits_aux (fuel : nat) (n : Z) : Z :=
  match fuel with
  | O => 1
  | S k => if n <? 10 then 1 else 1 + ndigits_aux k (n / 10)
  end.

(** Number of decimal digits of [n >= 0]; 1 for 0. *)
Definition ndigits (n : Z) : Z := ndigits_aux (Z.to_nat (Z.log2_up n)) n.

(** [len(s)] of a [str]: the number of code points, that is of bytes that
    are not UTF-8 continuation bytes. *)
Definition str_len (s : string) : Z :=
  Z.of_nat (List.length (List.filter (fun c => negb (Z.land (code c) 192 =? 128)) (chars s))).

(** ** Python [float]: IEEE-754 binary64

    A [float] is a [spec_float] in canonical form; arithmetic rounds to
    nearest, ties to even, as the hardware does. *)
Module PyFloat.

Definition prec : Z := 53.
Definition emax : Z := 1024.

Definition zero : spec_float := S754_zero false.

(** [bool(x)]: every float but the zeros is true. *)
Definition truthy (f : spec_float) : bool :=
  match f with
  | S754_zero _ => false
  | _ => true
  end.

(** [float(n)] for an [int n]. *)
Definition of_Z (z : Z) : res spec_float :=
  match binary_normalize prec emax z 0 false with
  | S754_infinity _ => Raise OverflowError
  | f => Ok f
  end.

(** [int(x)]: truncation towards zero. *)
Definition to_Z (f : spec_float) : res Z :=
  match f with
  | S754_zero _ => Ok 0
  | S754_infinity _ => Raise OverflowError
  | S754_nan => Raise ValueError
  | S754_finite s m e =>
      let a := if 0 <=? e then Zpos m * 2 ^ e else Zpos m / 2 ^ (- e) in
      Ok (if s then - a else a)
  end.

(** [x - y] *)
Definition sub (x y : spec_float) : spec_float := SFsub prec emax x y.

(** The float nearest to [p / q] ([0 <= p], [0 < q]) with sign [s]. *)
Definition of_ratio (s : bool) (p q : Z) : spec_float :=
  if p =? 0 then S754_zero s
  else
    let '(m, e, l) := SFdiv_core_binary prec emax p 0 q 0 in
    binary_round_aux prec emax s m e l.

(** The float nearest to [c * 10^e] with sign [s].  Magnitudes beyond
    the range of the format are settled without computing the power. *)
Definition of_decimal (s : bool) (c : Z) (e : Z) : spec_float :=
  if c =? 0 then S754_zero s
  else if 310 <? ndigits c + e - 1 then S754_infinity s
  else if ndigits c + e <? -330 then S754_zero s
  else if 0 <=? e then of_ratio s (c * 10 ^ e) 1
  else of_ratio s c (10 ^ (- e)).

(** The magnitude [m * 2^e] as a fraction. *)
Definition fraction (m : positive) (e : Z) : Z * Z :=
  if 0 <=? e then (Zpos m * 2 ^ e, 1) else (Zpos m, 2 ^ (- e)).

(** [floor (p / q / 10^x)] *)
Definition scaled_floor (p q x : Z) : Z :=
  if 0 <=? x then p / (q * 10 ^ x) else (p * 10 ^ (- x)) / q.

Fixpoint find_adjusted (fuel : nat) (p q x : Z) : Z :=
  match fuel with
  | O => x
  | S k => if 0 <? scaled_floor p q x then x else find_adjusted k p q (x - 1)
  end.

(** The largest [x] with [10^x <= p / q]. *)
Definition adjusted (p q : Z) : Z :=
  find_adjusted 6 p q ((Z.log2 p - Z.log2 q) * 30103 / 100000 + 2).

Definition same (a b : spec_float) : bool :=
  match SFcompare a b with
  | Some Eq => true
  | _ => false
  end.

(** Of the two [n]-digit decimals around [m * 2^e], the one that reads
    back as the same float and is nearest to it (ties to the even one). *)
Definition candidate (m : positive) (e : Z) (n : Z) : option (Z * Z) :=
  let '(p, q) := fraction m e in
  let x := adjusted p q - n + 1 in
  let lo := scaled_floor p q x in
  let hi := lo + 1 in
  let f := S754_finite false m e in
  let ok_lo := same (of_decimal false lo x) f in
  let ok_hi := same (of_decimal false hi x) f in
  let twice_rest :=
    if 0 <=? x then (2 * (p - lo * q * 10 ^ x) ?= q * 10 ^ x)
    else (2 * (p * 10 ^ (- x) - lo * q) ?= q) in
  match ok_lo, ok_hi with
  | true, true =>
      match twice_rest with
      | Lt => Some (lo, x)
      | Gt => Some (hi, x)
      | Eq => if Z.even lo then Some (lo, x) else Some (hi, x)
      end
  | true, false => Some (lo, x)
  | false, true => Some (hi, x)
  | false, false => None
  end.

Fixpoint shortest_from (fuel : nat) (m : positive) (e : Z) (n : Z) : Z * Z :=
  match fuel with
  | O => (0, 0)
  | S k =>
      match candidate m e n with
      | Some d => d
      | None => shortest_from k m e (n + 1)
      end
  end.

Fixpoint strip_zeros (fuel : nat) (d x : Z) : Z * Z :=
  match fuel with
  | O => (d, x)
  | S k => if (d mod 10 =? 0) && negb (d =? 0) then strip_zeros k (d / 10) (x + 1) else (d, x)
  end.

(** The shortest decimal [d * 10^x] that reads back as [m * 2^e]: the
    digits [repr] prints. *)
Definition shortest (m : positive) (e : Z) : Z * Z :=
  let '(d, x) := shortest_from 17 m e 1 in
  strip_zeros 18 d x.

Definition zeros (k : Z) : list ascii := List.repeat "0"%char (Z.to_nat k).

Definition exponent_text (x : Z) : list ascii :=
  let a := digits_of_N (Z.to_N (Z.abs x)) in
  (if x <? 0 then "-"%char else "+"%char) ::
  (if Z.abs x <? 10 then "0"%char :: a else a).

(** [repr(x)], which is also [str(x)]. *)
Definition repr (f : spec_float) : string :=
  match f with
  | S754_nan => "nan"
  | S754_infinity s => if s then "-inf" else "inf"
  | S754_zero s => if s then "-0.0" else "0.0"
  | S754_finite s m e =>
      let '(d, x) := shortest m e in
      let ds := digits_of_N (Z.to_N d) in
      let n := Z.of_nat (List.length ds) in
      let decpt := x + n in
      let body :=
        if (decpt <=? -4) || (16 <? decpt) then
          match ds with
          | [] => []
          | c :: [] => c :: "e"%char :: exponent_text (decpt - 1)
          | c :: r => c :: "."%char :: r ++ "e"%char :: exponent_text (decpt - 1)
          end
        else if decpt <=? 0 then
          "0"%char :: "."%char :: zeros (- decpt) ++ ds
        else if decpt <? n then
          List.firstn (Z.to_nat decpt) ds ++ "."%char :: List.skipn (Z.to_nat decpt) ds
        else
          ds ++ zeros (decpt - n) ++ [ "."%char; "0"%char ] in
      text (if s then "-"%char :: body else body)
  end.

Definition hex_digit (n : Z) : ascii :=
  if n <? 10 then ascii_of_N (Z.to_N (48 + n)) else ascii_of_N (Z.to_N (87 + n)).

Fixpoint hex_digits (width : nat) (z : Z) (acc : list ascii) : list ascii :=
  match width with
  | O => acc
  | S k => hex_digits k (z / 16) (hex_digit (z mod 16) :: acc)
  end.

(** [x.hex()] *)
Definition hex (f : spec_float) : string :=
  match f with
  | S754_nan => "nan"
  | S754_infinity s => if s then "-inf" else "inf"
  | S754_zero s => if s then "-0x0.0p+0" else "0x0.0p+0"
  | S754_finite s m e =>
      let normal := 2 ^ 52 <=? Zpos m in
      let x := if normal then e + 52 else -1022 in
      let body :=
        chars "0x" ++ [ if normal then "1"%char else "0"%char; "."%char ]
        ++ hex_digits 13 (Zpos m mod 2 ^ 52) []
        ++ "p"%char :: (if x <? 0 then "-"%char else "+"%char)
        :: digits_of_N (Z.to_N (Z.abs x)) in
      text (if s then "-"%char :: body else body)
  end.

(** *** binary32, the [f] format of [struct] *)

(** The float rounded to binary32. *)
Definition to_single (f : spec_float) : spec_float :=
  match f with
  | S754_finite s m e => binary_round 24 128 s m e
  | _ => f
  end.

(** Bit pattern of a binary32 datum. *)
Definition bits_of_single (f : spec_float) : Z :=
  match f with
  | S754_zero s => if s then 2 ^ 31 else 0
  | S754_infinity s => (if s then 2 ^ 31 else 0) + 255 * 2 ^ 23
  | S754_nan => 255 * 2 ^ 23 + 2 ^ 22
  | S754_finite s m e =>
      (if s then 2 ^ 31 else 0)
      + (if 2 ^ 23 <=? Zpos m then (e + 150) * 2 ^ 23 + (Zpos m - 2 ^ 23) else Zpos m)
  end.

(** The binary32 datum with the given bit pattern, as a float. *)
Definition single_of_bits (b : Z) : spec_float :=
  let s := Z.testbit b 31 in
  let ex := (b / 2 ^ 23) mod 256 in
  let fr := b mod 2 ^ 23 in
  if ex =? 255 then (if fr =? 0 then S754_infinity s else S754_nan)
  else if ex =? 0 then
    match fr with
    | Zpos m => binary_round prec emax s m (-149)
    | _ => S754_zero s
    end
  else
    match fr + 2 ^ 23 with
    | Zpos m => binary_round prec emax s m (ex - 150)
    | _ => S754_zero s
    end.

End PyFloat.

(** ** Numbers: comparison and arithmetic across [int] and [float] *)

Inductive extended : Type :=
| XNaN
| XInf (s : bool)
| XFin (m e : Z).

(** The exact value of a number, [m * 2^e] when finite. *)
Definition extended_of_num (n : num) : extended :=
  match n with
  | NInt z => XFin z 0
  | NFloat (S754_zero _) => XFin 0 0
  | NFloat (S754_infinity s) => XInf s
  | NFloat S754_nan => XNaN
  | NFloat (S754_finite s m e) => XFin (if s then Zneg m else Zpos m) e
  end.

(** Python compares an [int] with a [float] exactly; a comparison that
    involves a NaN has no outcome (every ordering test is then false). *)
Definition num_compare (a b : num) : option comparison :=
  match extended_of_num a, extended_of_num b with
  | XNaN, _ | _, XNaN => None
  | XInf s1, XInf s2 => Some (if s1 then (if s2 then Eq else Lt) else (if s2 then Gt else Eq))
  | XInf s, XFin _ _ => Some (if s then Lt else Gt)
  | XFin _ _, XInf s => Some (if s then Gt else Lt)
  | XFin m1 e1, XFin m2 e2 =>
      let e := Z.min e1 e2 in
      Some (m1 * 2 ^ (e1 - e) ?= m2 * 2 ^ (e2 - e))
  end.

(** [a < b] *)
Definition num_lt (a b : num) : bool :=
  match num_compare a b with
  | Some Lt => true
  | _ => false
  end.

(** [a <= b] *)
Definition num_le (a b : num) : bool :=
  match num_compare a b with
  | Some Lt | Some Eq => true
  | _ => false
  end.

(** [a == b] *)
Definition num_eq (a b : num) : bool :=
  match num_compare a b with
  | Some Eq => true
  | _ => false
  end.

(** [a - b]: an [int] operand of a mixed subtraction is converted to
    [float] first. *)
Definition num_sub (a b : num) : res num :=
  match a, b with
  | NInt x, NInt y => Ok (NInt (x - y))
  | NFloat x, NFloat y => Ok (NFloat (PyFloat.sub x y))
  | NInt x, NFloat y => fx <- PyFloat.of_Z x ;; Ok (NFloat (PyFloat.sub fx y))
  | NFloat x, NInt y => fy <- PyFloat.of_Z y ;; Ok (NFloat (PyFloat.sub x fy))
  end.

(** Truth value of a number: [bool(n)]. *)
Definition num_truthy (n : num) : bool :=
  match n with
  | NInt z => negb (z =? 0)
  | NFloat f => PyFloat.truthy f
  end.

(** ** Reading numbers from text *)

(** [digitpart ::= digit (["_"] digit)*]: the longest such prefix, without
    its underscores, and what follows it. *)
Fixpoint span_digitpart (s : list ascii) : list ascii * list ascii :=
  match s with
  | c :: r =>
      if is_digit c then
        match r with
        | u :: r' =>
            if code u =? 95 then
              match r' with
              | c2 :: _ =>
                  if is_digit c2 then let '(d, t) := span_digitpart r' in (c :: d, t)
                  else ([c], r)
              | [] => ([c], r)
              end
            else let '(d, t) := span_digitpart r in (c :: d, t)
        | [] => ([c], [])
        end
      else ([], s)
  | [] => ([], [])
  end.

(** An optional sign. *)
Definition split_sign (s : list ascii) : bool * list ascii :=
  match s with
  | c :: r => if code c =? 45 then (true, r) else if code c =? 43 then (false, r) else (false, s)
  | [] => (false, [])
  end.

(** The exponent part [(e|E) [sign] digits] at the end of a number, or
    nothing at all. *)
Definition parse_exponent (span : list ascii -> list ascii * list ascii)
    (s : list ascii) : option Z :=
  match s with
  | [] => Some 0
  | c :: r =>
      if code (lower_char c) =? 101 then
        let '(neg, r1) := split_sign r in
        match span r1 with
        | (d :: ds, []) =>
            option_map (fun n => if neg then - Z.of_N n else Z.of_N n) (digits_value (d :: ds))
        | _ => None
        end
      else None
  end.

(** [digits [. digits] [exponent]] or [. digits [exponent]], read as
    coefficient and power of ten. *)
Definition parse_number (span : list ascii -> list ascii * list ascii)
    (s : list ascii) : option (Z * Z) :=
  let '(ip, r1) := span s in
  let '(fp, r2) :=
    match r1 with
    | c :: r => if code c =? 46 then span r else ([], r1)
    | [] => ([], r1)
    end in
  match ip ++ fp with
  | [] => None
  | ds =>
      match digits_value ds, parse_exponent span r2 with
      | Some n, Some x => Some (Z.of_N n, x - Z.of_nat (List.length fp))
      | _, _ => None
      end
  end.

(** [int(s)] for text, base 10. *)
Definition int_of_text (s : list ascii) : res Z :=
  let '(neg, r) := split_sign (strip s) in
  match span_digitpart r with
  | (d :: ds, []) =>
      match digits_value (d :: ds) with
      | Some n => Ok (if neg then - Z.of_N n else Z.of_N n)
      | None => Raise ValueError
      end
  | _ => Raise ValueError
  end.

Definition text_eqb (a : list ascii) (b : string) : bool :=
  if decide (text a = b) then true else false.

(** [float(s)] for text. *)
Definition float_of_text (s : list ascii) : res spec_float :=
  let '(neg, r) := split_sign (strip s) in
  match parse_number span_digitpart r with
  | Some (c, x) => Ok (PyFloat.of_decimal neg c x)
  | None =>
      let w := lower r in
      if text_eqb w "inf" || text_eqb w "infinity" then Ok (S754_infinity neg)
      else if text_eqb w "nan" then Ok S754_nan
      else Raise ValueError
  end.

(** ** [repr] and [str] *)

Definition has_char (n : Z) (s : list ascii) : bool := List.existsb (fun c => code c =? n) s.

(** One character inside quotes; [wide] tells whether bytes above 127
    stand (text, where they encode characters taken as printable) or are
    escaped (bytes). *)
Definition escape (quote : Z) (wide : bool) (c : ascii) : list ascii :=
  let n := code c in
  if (n =? 92) || (n =? quote) then [ "\"%char; c ]
  else if n =? 9 then chars "\t"
  else if n =? 10 then chars "\n"
  else if n =? 13 then chars "\r"
  else if (n <? 32) || (n =? 127) || (negb wide && (127 <? n)) then
    "\"%char :: "x"%char :: PyFloat.hex_digits 2 n []
  else [c].

Definition quoted (wide : bool) (s : list ascii) : list ascii :=
  let q := if has_char 39 s && negb (has_char 34 s) then 34 else 39 in
  let qc := ascii_of_N (Z.to_N q) in
  qc :: List.concat (List.map (escape q wide) s) ++ [qc].

Definition join_comma (parts : list (list ascii)) : list ascii :=
  match parts with
  | [] => []
  | p :: ps => p ++ List.concat (List.map (fun x => chars ", " ++ x) ps)
  end.

(** [repr(v)] *)
Fixpoint repr (v : pyval) : list ascii :=
  match v with
  | PNone => chars "None"
  | PBool b => chars (if b then "True" else "False")
  | PInt z => chars (str_of_Z z)
  | PFloat f => chars (PyFloat.repr f)
  | PStr s => quoted true (chars s)
  | PBytes bs => "b"%char :: quoted false (List.map ascii_of_byte bs)
  | PList items => "["%char :: join_comma (List.map repr items) ++ [ "]"%char ]
  | PDictEmpty => chars "{}"
  end.

(** [str(v)] *)
Definition str (v : pyval) : string :=
  match v with
  | PStr s => s
  | _ => text (repr v)
  end.

(** ** The built-in conversions *)

(** [int(v)] *)
Definition int (v : pyval) : res Z :=
  match v with
  | PBool b => Ok (if b then 1 else 0)
  | PInt z => Ok z
  | PFloat f => PyFloat.to_Z f
  | PStr s => int_of_text (chars s)
  | PBytes bs => int_of_text (List.map ascii_of_byte bs)
  | PNone | PList _ | PDictEmpty => Raise TypeError
  end.

(** [float(v)] *)
Definition float (v : pyval) : res spec_float :=
  match v with
  | PBool b => PyFloat.of_Z (if b then 1 else 0)
  | PInt z => PyFloat.of_Z z
  | PFloat f => Ok f
  | PStr s => float_of_text (chars s)
  | PBytes bs => float_of_text (List.map ascii_of_byte bs)
  | PNone | PList _ | PDictEmpty => Raise TypeError
  end.

(** Truth value: [bool(v)], what [if v] and [not v] test. *)
Definition truthy (v : pyval) : bool :=
  match v with
  | PNone => false
  | PBool b => b
  | PInt z => negb (z =? 0)
  | PFloat f => PyFloat.truthy f
  | PStr s => negb (text_eqb (chars s) "")
  | PBytes bs => match bs with [] => false | _ => true end
  | PList items => match items with [] => false | _ => true end
  | PDictEmpty => false
  end.

(** The number a value is, if it is one ([bool] is a kind of [int]). *)
Definition as_num (v : pyval) : option num :=
  match v with
  | PBool b => Some (NInt (if b then 1 else 0))
  | PInt z => Some (NInt z)
  | PFloat f => Some (NFloat f)
  | _ => None
  end.

(** [a == b] *)
Fixpoint py_eq (a b : pyval) : bool :=
  match a, b with
  | PNone, PNone => true
  | PStr s, PStr t => if decide (s = t) then true else false
  | PBytes s, PBytes t => if decide (s = t) then true else false
  | PDictEmpty, PDictEmpty => true
  | PList la, PList lb =>
      (fix all2 (la lb : list pyval) : bool :=
         match la, lb with
         | [], [] => true
         | x :: la', y :: lb' => py_eq x y && all2 la' lb'
         | _, _ => false
         end) la lb
  | _, _ =>
      match as_num a, as_num b with
      | Some x, Some y => num_eq x y
      | _, _ => false
      end
  end.

(** [x in l]; the identity shortcut of [in], which only a NaN could
    tell from [==], is not modelled. *)
Definition py_in (x : pyval) (l : list pyval) : bool := List.existsb (py_eq x) l.

(** ** The [decimal] module

    After the reference implementation [_pydecimal.py].  A finite
    [Decimal] is [(-1)^sign * coeff * 10^exp] with [0 <= coeff]; the
    digits of a NaN are not kept.  The context carries what the source
    sets or leaves at its default: the traps are the default ones
    ([InvalidOperation], [DivisionByZero], [Overflow]) and [clamp] is 0. *)
Module decimal.

Inductive rounding_mode : Type :=
| ROUND_HALF_EVEN
| ROUND_HALF_UP.

Record Context : Type := {
  prec : Z;
  rounding : rounding_mode;
  Emin : Z;
  Emax : Z
}.

Definition DefaultContext : Context :=
  {| prec := 28; rounding := ROUND_HALF_EVEN; Emin := -999999; Emax := 999999 |}.

Definition set_prec (ctx : Context) (p : Z) : Context :=
  {| prec := p; rounding := rounding ctx; Emin := Emin ctx; Emax := Emax ctx |}.

Definition set_rounding (ctx : Context) (r : rounding_mode) : Context :=
  {| prec := prec ctx; rounding := r; Emin := Emin ctx; Emax := Emax ctx |}.

Definition Etiny (ctx : Context) : Z := Emin ctx - prec ctx + 1.
Definition Etop (ctx : Context) : Z := Emax ctx - prec ctx + 1.

Inductive Decimal : Type :=
| Finite (sign : bool) (coeff : Z) (exp : Z)
| Infinity (sign : bool)
| NaN (sign : bool) (signaling : bool).

Definition is_zero (d : Decimal) : bool :=
  match d with
  | Finite _ c _ => c =? 0
  | _ => false
  end.

Fixpoint trailing_zeros (m : positive) : Z :=
  match m with
  | xO p => 1 + trailing_zeros p
  | _ => 0
  end.

(** [Decimal.from_float]: the exact value of a float, from its reduced
    fraction [n / 2^k] as [n * 5^k * 10^-k]. *)
Definition from_float (f : spec_float) : Decimal :=
  match f with
  | S754_zero s => Finite s 0 0
  | S754_infinity s => Infinity s
  | S754_nan => NaN false false
  | S754_finite s m e =>
      if 0 <=? e then Finite s (Zpos m * 2 ^ e) 0
      else
        let t := Z.min (trailing_zeros m) (- e) in
        let k := - e - t in
        Finite s (Zpos m / 2 ^ t * 5 ^ k) (- k)
  end.

Definition of_Z (z : Z) : Decimal := Finite (z <? 0) (Z.abs z) 0.

Definition strip_prefix (p : string) (w : list ascii) : option (list ascii) :=
  let n := String.length p in
  if text_eqb (List.firstn n w) p then Some (List.skipn n w) else None.

(** [Decimal(s)] for text: blanks around and every underscore are
    dropped, then the text is a number, an infinity or a NaN. *)
Definition of_text (s : list ascii) : res Decimal :=
  let t := strip (List.filter (fun c => negb (code c =? 95)) (strip s)) in
  let '(neg, r) := split_sign t in
  match parse_number span_digits r with
  | Some (c, x) => Ok (Finite neg c x)
  | None =>
      let w := lower r in
      if text_eqb w "inf" || text_eqb w "infinity" then Ok (Infinity neg)
      else
        match strip_prefix "nan" w, strip_prefix "snan" w with
        | Some d, _ => if List.forallb is_digit d then Ok (NaN neg false) else Raise InvalidOperation
        | None, Some d => if List.forallb is_digit d then Ok (NaN neg true) else Raise InvalidOperation
        | None, None => Raise InvalidOperation
        end
  end.

(** [Decimal(v)] *)
Definition new (v : pyval) : res Decimal :=
  match v with
  | PBool b => Ok (of_Z (if b then 1 else 0))
  | PInt z => Ok (of_Z z)
  | PFloat f => Ok (from_float f)
  | PStr s => of_text (chars s)
  | PNone | PBytes _ | PList _ | PDictEmpty => Raise TypeError
  end.

(** [Decimal(n)] for a number of the configuration. *)
Definition of_num (n : num) : Decimal :=
  match n with
  | NInt z => of_Z z
  | NFloat f => from_float f
  end.

(** Whether the kept digits [q] are incremented when the digits
    [r < 10^k] are dropped. *)
Definition round_up (mode : rounding_mode) (q r k : Z) : bool :=
  match mode with
  | ROUND_HALF_UP => 10 ^ k <=? 2 * r
  | ROUND_HALF_EVEN => (10 ^ k <? 2 * r) || ((10 ^ k =? 2 * r) && Z.odd q)
  end.

(** [_rescale]: the number with exponent [exp], rounded if digits go. *)
Definition _rescale (d : Decimal) (exp : Z) (mode : rounding_mode) : Decimal :=
  match d with
  | Finite s c e =>
      if c =? 0 then Finite s 0 exp
      else if exp <=? e then Finite s (c * 10 ^ (e - exp)) exp
      else
        let k := exp - e in
        let q := c / 10 ^ k in
        Finite s (if round_up mode q (c mod 10 ^ k) k then q + 1 else q) exp
  | _ => d
  end.

(** [_fix]: round to the precision of the context and keep the exponent
    within its bounds. *)
Definition _fix (ctx : Context) (d : Decimal) : res Decimal :=
  match d with
  | Finite s c e =>
      if c =? 0 then Ok (Finite s 0 (Z.min (Z.max e (Etiny ctx)) (Emax ctx)))
      else
        let exp_min := ndigits c + e - prec ctx in
        if Etop ctx <? exp_min then Raise DecimalOverflow
        else
          let exp_min := Z.max exp_min (Etiny ctx) in
          if e <? exp_min then
            let k := exp_min - e in
            let q := c / 10 ^ k in
            let '(coeff, exp_min) :=
              if round_up (rounding ctx) q (c mod 10 ^ k) k then
                if prec ctx <? ndigits (q + 1) then ((q + 1) / 10, exp_min + 1)
                else (q + 1, exp_min)
              else (q, exp_min) in
            if Etop ctx <? exp_min then Raise DecimalOverflow
            else Ok (Finite s coeff exp_min)
          else Ok d
  | _ => Ok d
  end.

(** [_check_nans]: a signaling NaN raises, a quiet one is the answer. *)
Definition _check_nans (a b : Decimal) : option (res Decimal) :=
  match a, b with
  | NaN _ true, _ => Some (Raise InvalidOperation)
  | _, NaN _ true => Some (Raise InvalidOperation)
  | NaN s false, _ => Some (Ok (NaN s false))
  | _, NaN s false => Some (Ok (NaN s false))
  | _, _ => None
  end.

Definition copy_negate (d : Decimal) : Decimal :=
  match d with
  | Finite s c e => Finite (negb s) c e
  | Infinity s => Infinity (negb s)
  | NaN s g => NaN (negb s) g
  end.

(** [_normalize]: give the two operands of an addition the same
    exponent; an operand too small to matter is replaced by one that
    rounds the same way. *)
Definition _normalize (c1 e1 c2 e2 : Z) (prec : Z) : (Z * Z) * (Z * Z) :=
  if e1 <? e2 then
    let x := e2 + Z.min (-1) (ndigits c2 - prec - 2) in
    let '(c1, e1) := if ndigits c1 + e1 - 1 <? x then (1, x) else (c1, e1) in
    ((c1, e1), (c2 * 10 ^ (e2 - e1), e1))
  else
    let x := e1 + Z.min (-1) (ndigits c1 - prec - 2) in
    let '(c2, e2) := if ndigits c2 + e2 - 1 <? x then (1, x) else (c2, e2) in
    ((c1 * 10 ^ (e1 - e2), e2), (c2, e2)).

(** [a + b] *)
Definition __add__ (ctx : Context) (a b : Decimal) : res Decimal :=
  match _check_nans a b with
  | Some r => r
  | None =>
      match a, b with
      | Infinity s1, Infinity s2 =>
          if Bool.eqb s1 s2 then Ok a else Raise InvalidOperation
      | Infinity _, _ => Ok a
      | _, Infinity _ => Ok b
      | Finite s1 c1 e1, Finite s2 c2 e2 =>
          let exp := Z.min e1 e2 in
          if (c1 =? 0) && (c2 =? 0) then _fix ctx (Finite (s1 && s2) 0 exp)
          else if c1 =? 0 then
            _fix ctx (_rescale b (Z.max exp (e2 - prec ctx - 1)) (rounding ctx))
          else if c2 =? 0 then
            _fix ctx (_rescale a (Z.max exp (e1 - prec ctx - 1)) (rounding ctx))
          else
            let '((n1, x), (n2, _)) := _normalize c1 e1 c2 e2 (prec ctx) in
            if Bool.eqb s1 s2 then _fix ctx (Finite s1 (n1 + n2) x)
            else if n1 =? n2 then _fix ctx (Finite false 0 exp)
            else if n1 <? n2 then _fix ctx (Finite s2 (n2 - n1) x)
            else _fix ctx (Finite s1 (n1 - n2) x)
      | _, _ => Raise InvalidOperation
      end
  end.

(** [a - b] *)
Definition __sub__ (ctx : Context) (a b : Decimal) : res Decimal :=
  match _check_nans a b with
  | Some r => r
  | None => __add__ ctx a (copy_negate b)
  end.

(** [a * b] *)
Definition __mul__ (ctx : Context) (a b : Decimal) : res Decimal :=
  match _check_nans a b with
  | Some r => r
  | None =>
      match a, b with
      | Infinity s1, Infinity s2 => Ok (Infinity (xorb s1 s2))
      | Infinity s1, Finite s2 c2 _ =>
          if c2 =? 0 then Raise InvalidOperation else Ok (Infinity (xorb s1 s2))
      | Finite s1 c1 _, Infinity s2 =>
          if c1 =? 0 then Raise InvalidOperation else Ok (Infinity (xorb s1 s2))
      | Finite s1 c1 e1, Finite s2 c2 e2 => _fix ctx (Finite (xorb s1 s2) (c1 * c2) (e1 + e2))
      | _, _ => Raise InvalidOperation
      end
  end.

(** The loop of [__truediv__] for an exact quotient: drop trailing zeros
    while the exponent is below the ideal one. *)
Fixpoint to_ideal (fuel : nat) (coeff exp ideal_exp : Z) : Z * Z :=
  match fuel with
  | O => (coeff, exp)
  | S k =>
      if (exp <? ideal_exp) && (coeff mod 10 =? 0)
      then to_ideal k (coeff / 10) (exp + 1) ideal_exp
      else (coeff, exp)
  end.

(** [a / b] *)
Definition __truediv__ (ctx : Context) (a b : Decimal) : res Decimal :=
  match _check_nans a b with
  | Some r => r
  | None =>
      match a, b with
      | Infinity _, Infinity _ => Raise InvalidOperation
      | Infinity s1, Finite s2 _ _ => Ok (Infinity (xorb s1 s2))
      | Finite s1 _ _, Infinity s2 => Ok (Finite (xorb s1 s2) 0 (Etiny ctx))
      | Finite s1 c1 e1, Finite s2 c2 e2 =>
          let sign := xorb s1 s2 in
          if c2 =? 0 then
            if c1 =? 0 then Raise InvalidOperation else Raise DivisionByZero
          else if c1 =? 0 then _fix ctx (Finite sign 0 (e1 - e2))
          else
            let shift := ndigits c2 - ndigits c1 + prec ctx + 1 in
            let exp := e1 - e2 - shift in
            let '(coeff, remainder) :=
              if 0 <=? shift then Z.div_eucl (c1 * 10 ^ shift) c2
              else Z.div_eucl c1 (c2 * 10 ^ (- shift)) in
            let '(coeff, exp) :=
              if negb (remainder =? 0) then
                (if coeff mod 5 =? 0 then coeff + 1 else coeff, exp)
              else to_ideal (Z.to_nat (ndigits coeff)) coeff exp (e1 - e2) in
            _fix ctx (Finite sign coeff exp)
      | _, _ => Raise InvalidOperation
      end
  end.

(** [d.adjusted()]: the exponent of the leading digit. *)
Definition adjusted (c e : Z) : Z := e + ndigits c - 1.

(** [a % b] *)
Definition __mod__ (ctx : Context) (a b : Decimal) : res Decimal :=
  match _check_nans a b with
  | Some r => r
  | None =>
      match a, b with
      | Infinity _, _ => Raise InvalidOperation
      | Finite s1 c1 e1, Infinity _ => _fix ctx (_rescale a e1 (rounding ctx))
      | Finite s1 c1 e1, Finite s2 c2 e2 =>
          if c2 =? 0 then Raise InvalidOperation
          else
            let ideal_exp := Z.min e1 e2 in
            let expdiff := adjusted c1 e1 - adjusted c2 e2 in
            if (c1 =? 0) || (expdiff <=? -2) then
              _fix ctx (_rescale a ideal_exp (rounding ctx))
            else if expdiff <=? prec ctx then
              let '(n1, n2) :=
                if e2 <=? e1 then (c1 * 10 ^ (e1 - e2), c2) else (c1, c2 * 10 ^ (e2 - e1)) in
              if n1 / n2 <? 10 ^ prec ctx then _fix ctx (Finite s1 (n1 mod n2) ideal_exp)
              else Raise InvalidOperation
            else Raise InvalidOperation
      | _, _ => Raise InvalidOperation
      end
  end.

(** [d.to_integral_value(rounding)] *)
Definition to_integral_value (mode : rounding_mode) (d : Decimal) : res Decimal :=
  match d with
  | NaN _ true => Raise InvalidOperation
  | Finite _ _ e => if 0 <=? e then Ok d else Ok (_rescale d 0 mode)
  | _ => Ok d
  end.

(** [_cmp]: the order of two numbers that are not NaN. *)
Definition _cmp (a b : Decimal) : comparison :=
  let signed (s : bool) (c : comparison) := if s then CompOpp c else c in
  match a, b with
  | Infinity s1, Infinity s2 => if s1 then (if s2 then Eq else Lt) else (if s2 then Gt else Eq)
  | Infinity s, _ => if s then Lt else Gt
  | _, Infinity s => if s then Gt else Lt
  | Finite s1 c1 e1, Finite s2 c2 e2 =>
      if c1 =? 0 then
        if c2 =? 0 then Eq else (if s2 then Gt else Lt)
      else if c2 =? 0 then (if s1 then Lt else Gt)
      else if negb (Bool.eqb s1 s2) then (if s1 then Lt else Gt)
      else
        let e := Z.min e1 e2 in
        signed s1 (c1 * 10 ^ (e1 - e) ?= c2 * 10 ^ (e2 - e))
  | _, _ => Eq
  end.

Definition is_nan (d : Decimal) : bool :=
  match d with
  | NaN _ _ => true
  | _ => false
  end.

(** [a > b]: an ordering test on a NaN raises. *)
Definition __gt__ (a b : Decimal) : res bool :=
  if is_nan a || is_nan b then Raise InvalidOperation
  else Ok (match _cmp a b with Gt => true | _ => false end).

(** [a < b] *)
Definition __lt__ (a b : Decimal) : res bool :=
  if is_nan a || is_nan b then Raise InvalidOperation
  else Ok (match _cmp a b with Lt => true | _ => false end).

(** [d != 0] *)
Definition ne_zero (d : Decimal) : res bool :=
  match d with
  | NaN _ true => Raise InvalidOperation
  | NaN _ false => Ok true
  | _ => Ok (match _cmp d (of_Z 0) with Eq => false | _ => true end)
  end.

(** Built-in [max(a, b)]: [b] when [b > a], else [a]. *)
Definition max (a b : Decimal) : res Decimal :=
  gt <- __gt__ b a ;; Ok (if gt then b else a).

(** Built-in [min(a, b)]: [b] when [b < a], else [a]. *)
Definition min (a b : Decimal) : res Decimal :=
  lt <- __lt__ b a ;; Ok (if lt then b else a).

(** [int(d)]: truncation towards zero. *)
Definition __int__ (d : Decimal) : res Z :=
  match d with
  | NaN _ _ => Raise ValueError
  | Infinity _ => Raise OverflowError
  | Finite s c e =>
      let a := if 0 <=? e then c * 10 ^ e else c / 10 ^ (- e) in
      Ok (if s then - a else a)
  end.

(** [float(d)] *)
Definition __float__ (d : Decimal) : res spec_float :=
  match d with
  | NaN _ true => Raise ValueError
  | NaN _ false => Ok S754_nan
  | Infinity s => Ok (S754_infinity s)
  | Finite s c e => Ok (PyFloat.of_decimal s c e)
  end.

End decimal.

(** ** [distutils.util.strtobool] *)

Definition strtobool (val : string) : res Z :=
  let val := lower (chars val) in
  if List.existsb (text_eqb val) [ "y"; "yes"; "t"; "true"; "on"; "1" ]%string then Ok 1
  else if List.existsb (text_eqb val) [ "n"; "no"; "f"; "false"; "off"; "0" ]%string then Ok 0
  else Raise ValueError.

(** ** Bytes *)

Definition byte_of_Z (z : Z) : byte :=
  match Byte.of_N (Z.to_N (z mod 256)) with
  | Some b => b
  | None => x00
  end.

Definition Z_of_byte (b : byte) : Z := Z.of_N (Byte.to_N b).

(** [s.encode()] of a [str]: its UTF-8 bytes. *)
Definition encode (s : string) : list byte := List.map byte_of_ascii (chars s).

Definition continuation (b : Z) : bool := (128 <=? b) && (b <=? 191).

(** Whether a byte sequence is well-formed UTF-8. *)
Fixpoint utf8_valid (fuel : nat) (bs : list Z) : bool :=
  match fuel with
  | O => match bs with [] => true | _ => false end
  | S k =>
      match bs with
      | [] => true
      | b :: r =>
          if b <? 128 then utf8_valid k r
          else if (194 <=? b) && (b <=? 223) then
            match r with
            | b1 :: r1 => continuation b1 && utf8_valid k r1
            | _ => false
            end
          else if (224 <=? b) && (b <=? 239) then
            match r with
            | b1 :: b2 :: r2 =>
                continuation b1 && continuation b2
                && (if b =? 224 then 160 <=? b1 else true)
                && (if b =? 237 then b1 <=? 159 else true)
                && utf8_valid k r2
            | _ => false
            end
          else if (240 <=? b) && (b <=? 244) then
            match r with
            | b1 :: b2 :: b3 :: r3 =>
                continuation b1 && continuation b2 && continuation b3
                && (if b =? 240 then 144 <=? b1 else true)
                && (if b =? 244 then b1 <=? 143 else true)
                && utf8_valid k r3
            | _ => false
            end
          else false
      end
  end.

(** [bs.decode("UTF-8")] *)
Definition decode_utf8 (bs : list byte) : res string :=
  if utf8_valid (List.length bs) (List.map Z_of_byte bs)
  then Ok (text (List.map ascii_of_byte bs))
  else Raise UnicodeDecodeError.

(** [bs.hex()] *)
Definition bytes_hex (bs : list byte) : string :=
  text (List.concat (List.map (fun b => PyFloat.hex_digits 2 (Z_of_byte b) []) bs)).

(** [len(v)] *)
Definition len (v : pyval) : res Z :=
  match v with
  | PStr s => Ok (str_len s)
  | PBytes bs => Ok (Z.of_nat (List.length bs))
  | PList items => Ok (Z.of_nat (List.length items))
  | PDictEmpty => Ok 0
  | PNone | PBool _ | PInt _ | PFloat _ => Raise TypeError
  end.

(** ** The [struct] module, native mode on a little-endian machine *)
Module struct.

Inductive code : Type :=
| c_bool    (** ["?"] *)
| c_B       (** ["B"] *)
| c_H       (** ["H"] *)
| c_I       (** ["I"] *)
| c_Q       (** ["Q"] *)
| c_i       (** ["i"] *)
| c_f.      (** ["f"] *)

Definition calcsize (c : code) : nat :=
  match c with
  | c_bool | c_B => 1
  | c_H => 2
  | c_I | c_i | c_f => 4
  | c_Q => 8
  end.

Definition le_value (bs : list byte) : Z :=
  List.fold_right (fun b acc => Z_of_byte b + 256 * acc) 0 bs.

Fixpoint le_bytes (n : nat) (z : Z) : list byte :=
  match n with
  | O => []
  | S k => byte_of_Z z :: le_bytes k (z / 256)
  end.

(** [struct.unpack(c, v)[0]] *)
Definition unpack (c : code) (v : pyval) : res pyval :=
  match v with
  | PBytes bs =>
      if negb (Nat.eqb (List.length bs) (calcsize c)) then Raise struct_error
      else
        let n := le_value bs in
        match c with
        | c_bool => Ok (PBool (negb (n =? 0)))
        | c_B | c_H | c_I | c_Q => Ok (PInt n)
        | c_i => Ok (PInt (if n <? 2 ^ 31 then n else n - 2 ^ 32))
        | c_f => Ok (PFloat (PyFloat.single_of_bits n))
        end
  | _ => Raise TypeError
  end.

(** [struct.pack(c, v)] *)
Definition pack (c : code) (v : pyval) : res (list byte) :=
  match c with
  | c_bool => Ok [ if truthy v then x01 else x00 ]
  | c_f =>
      match as_num v with
      | Some (NFloat f) => Ok (le_bytes 4 (PyFloat.bits_of_single (PyFloat.to_single f)))
      | Some (NInt z) =>
          f <- PyFloat.of_Z z ;;
          Ok (le_bytes 4 (PyFloat.bits_of_single (PyFloat.to_single f)))
      | None => Raise struct_error
      end
  | _ =>
      let '(lo, hi) :=
        match c with
        | c_i => (- 2 ^ 31, 2 ^ 31 - 1)
        | c_B => (0, 2 ^ 8 - 1)
        | c_H => (0, 2 ^ 16 - 1)
        | c_I => (0, 2 ^ 32 - 1)
        | _ => (0, 2 ^ 64 - 1)
        end in
      match as_num v with
      | Some (NInt z) =>
          if (lo <=? z) && (z <=? hi) then Ok (le_bytes (calcsize c) z) else Raise struct_error
      | _ => Raise struct_error
      end
  end.

End struct.

(** ** [base64.decodebytes]

    The lenient decoder of [binascii.a2b_base64]: characters outside the
    alphabet are skipped, a complete padding ends the data, and an
    incomplete last group is an error. *)
Module base64.

(** Value of a character of the alphabet. *)
Definition sextet (b : Z) : option Z :=
  if (65 <=? b) && (b <=? 90) then Some (b - 65)
  else if (97 <=? b) && (b <=? 122) then Some (b - 71)
  else if (48 <=? b) && (b <=? 57) then Some (b + 4)
  else if b =? 43 then Some 62
  else if b =? 47 then Some 63
  else None.

(** The decoding loop over the input, with the position in the group of
    four, the bits left over, the padding seen and the output so far
    (last byte first). *)
Fixpoint a2b (bs : list Z) (quad_pos leftchar pads : Z) (out : list byte) : res (list byte) :=
  match bs with
  | [] =>
      if quad_pos =? 0 then Ok (List.rev out) else Raise binascii_Error
  | b :: r =>
      if b =? 61 then
        if (2 <=? quad_pos) && (4 <=? quad_pos + (pads + 1)) then Ok (List.rev out)
        else a2b r quad_pos leftchar (if 2 <=? quad_pos then pads + 1 else pads) out
      else
        match sextet b with
        | None => a2b r quad_pos leftchar pads out
        | Some v =>
            if quad_pos =? 0 then a2b r 1 v 0 out
            else if quad_pos =? 1 then
              a2b r 2 (Z.land v 15) 0 (byte_of_Z (leftchar * 4 + v / 16) :: out)
            else if quad_pos =? 2 then
              a2b r 3 (Z.land v 3) 0 (byte_of_Z (leftchar * 16 + v / 4) :: out)
            else a2b r 0 0 0 (byte_of_Z (leftchar * 64 + v) :: out)
        end
  end.

Definition decodebytes (s : list byte) : res (list byte) :=
  a2b (List.map Z_of_byte s) 0 0 0 [].

End base64.

(** ** Tag-length-value structures *)

(** Modelled from the spec: [TLV.decode_bytes] is defined in
    [protocol/tlv.py], which is not among the sources.  The spec has a
    structured blob parse as a tag-length-value structure and fail when
    malformed: a sequence of entries, each a tag byte, a length byte and
    that many bytes of value; an entry cut short is malformed. *)
Fixpoint TLV_decode_bytes (fuel : nat) (bs : list byte) : res (list (Z * list byte)) :=
  match fuel with
  | O => Ok []
  | S k =>
      match bs with
      | [] => Ok []
      | [ _ ] => Raise TlvParseException
      | tag :: n :: r =>
          let n := Z.to_nat (Z_of_byte n) in
          if (List.length r <? n)%nat then Raise TlvParseException
          else
            rest <- TLV_decode_bytes k (List.skipn n r) ;;
            Ok ((Z_of_byte tag, List.firstn n r) :: rest)
      end
  end.

(** ** The module [characteristic.py] *)

(** [DEFAULT_FOR_TYPE]; [None] where the dictionary has no entry. *)
Definition DEFAULT_FOR_TYPE (f : CharacteristicFormats) : option pyval :=
  match f with
  | Fbool => Some (PBool false)
  | Fuint8 => Some (PInt 0)
  | Fuint16 => Some (PInt 0)
  | Fuint32 => Some (PInt 0)
  | Fuint64 => Some (PInt 0)
  | Fint => Some (PInt 0)
  | Ffloat => Some (PFloat PyFloat.zero)
  | Fstring => Some (PStr "")
  | Farray => Some (PList [])
  | Fdict => Some PDictEmpty
  | Fdata | Ftlv8 => None
  end.

Definition INTEGER_TYPES : list CharacteristicFormats :=
  [ Fuint64; Fuint32; Fuint16; Fuint8; Fint ].

Definition NUMBER_TYPES : list CharacteristicFormats := INTEGER_TYPES ++ [ Ffloat ].

(** [fmt in l], for the format of a characteristic, which may be [None]. *)
Definition format_in (fmt : option CharacteristicFormats) (l : list CharacteristicFormats) : bool :=
  match fmt with
  | Some f => bool_decide (f ∈ l)
  | None => false
  end.

(** [fmt == f] *)
Definition format_is (fmt : option CharacteristicFormats) (f : CharacteristicFormats) : bool :=
  bool_decide (fmt = Some f).

(** [p in perms] *)
Definition has_perm (p : CharacteristicPermissions) (l : list CharacteristicPermissions) : bool :=
  bool_decide (p ∈ l).

(** The attributes of a [Characteristic] object (the owning service is
    left out). *)
Record Characteristic : Type := {
  iid : Z;
  type : string;
  perms : list CharacteristicPermissions;
  format : option CharacteristicFormats;
  ev : pyval;
  description : option string;
  unit : option string;
  minValue : option num;
  maxValue : option num;
  minStep : option num;
  maxLen : Z;
  maxDataLen : Z;
  valid_values : option (list pyval);
  valid_values_range : option (num * num);
  value : pyval
}.

(** [self.value = v] *)
Definition with_value (self : Characteristic) (v : pyval) : Characteristic :=
  {| iid := iid self; type := type self; perms := perms self; format := format self;
     ev := ev self; description := description self; unit := unit self;
     minValue := minValue self; maxValue := maxValue self; minStep := minStep self;
     maxLen := maxLen self; maxDataLen := maxDataLen self;
     valid_values := valid_values self; valid_values_range := valid_values_range self;
     value := v |}.

(** [self.ev = v] *)
Definition with_ev (self : Characteristic) (v : pyval) : Characteristic :=
  {| iid := iid self; type := type self; perms := perms self; format := format self;
     ev := v; description := description self; unit := unit self;
     minValue := minValue self; maxValue := maxValue self; minStep := minStep self;
     maxLen := maxLen self; maxDataLen := maxDataLen self;
     valid_values := valid_values self; valid_values_range := valid_values_range self;
     value := value self |}.

(** *** Methods: the object before, the outcome and the object after *)

Definition M (A : Type) : Type := Characteristic -> res A * Characteristic.

Definition m_ret {A : Type} (a : A) : M A := fun self => (Ok a, self).

Definition m_bind {A B : Type} (m : M A) (k : A -> M B) : M B :=
  fun self =>
    match m self with
    | (Ok a, self') => k a self'
    | (Raise e, self') => (Raise e, self')
    end.

Definition raise {A : Type} (e : exn) : M A := fun self => (Raise e, self).

(** A computation that does not touch the object. *)
Definition lift {A : Type} (r : res A) : M A := fun self => (r, self).

(** Reading an attribute. *)
Definition attr {A : Type} (f : Characteristic -> A) : M A := fun self => (Ok (f self), self).

Definition assign_value (v : pyval) : M Datatypes.unit := fun self => (Ok tt, with_value self v).

Definition assign_ev (v : pyval) : M Datatypes.unit := fun self => (Ok tt, with_ev self v).

(** [if b: m] *)
Definition when (b : bool) (m : M Datatypes.unit) : M Datatypes.unit :=
  if b then m else m_ret tt.

Declare Scope M_scope.
Delimit Scope M_scope with M.
Notation "x <- c1 ;; c2" := (m_bind c1 (fun x => c2))
  (at level 100, c1 at next level, right associativity) : M_scope.
Notation "c1 ;;; c2" := (m_bind c1 (fun _ => c2))
  (at level 100, right associativity) : M_scope.

(** *** Comparisons of a value with a bound *)

(** [v < n] *)
Definition py_lt_num (v : pyval) (n : num) : res bool :=
  match as_num v with
  | Some x => Ok (num_lt x n)
  | None => Raise TypeError
  end.

(** [n < v] *)
Definition num_lt_py (n : num) (v : pyval) : res bool :=
  match as_num v with
  | Some x => Ok (num_lt n x)
  | None => Raise TypeError
  end.

(** [lo <= v <= hi] *)
Definition py_between (lo : num) (v : pyval) (hi : num) : res bool :=
  match as_num v with
  | Some x => Ok (num_le lo x && num_le x hi)
  | None => Raise TypeError
  end.

(** [v - n] *)
Definition py_sub_num (v : pyval) (n : num) : res pyval :=
  match as_num v with
  | Some x => r <- num_sub x n ;; Ok (pyval_of_num r)
  | None => Raise TypeError
  end.

(** Built-in [max(v, n)]: [n] when [n > v], else [v]. *)
Definition max_with (v : pyval) (n : num) : res pyval :=
  gt <- py_lt_num v n ;; Ok (if gt then pyval_of_num n else v).

(** Built-in [min(v, n)]: [n] when [n < v], else [v]. *)
Definition min_with (v : pyval) (n : num) : res pyval :=
  lt <- num_lt_py n v ;; Ok (if lt then pyval_of_num n else v).

(** The decimal context of the calling thread: Python's default one,
    which this module never changes outside its [localcontext] block. *)
Definition getcontext : decimal.Context := decimal.DefaultContext.

(** *** Construction *)

(** The keyword arguments of the constructor, and likewise an entry of
    the table [characteristics]: every key may be absent. *)
Record Config : Type := {
  k_perms : option (list CharacteristicPermissions);
  k_format : option (option CharacteristicFormats);
  k_description : option (option string);
  k_unit : option (option string);
  k_min_value : option (option num);
  k_max_value : option (option num);
  k_min_step : option (option num);
  k_valid_values : option (option (list pyval));
  k_value : option pyval
}.

Definition no_config : Config :=
  {| k_perms := None; k_format := None; k_description := None; k_unit := None;
     k_min_value := None; k_max_value := None; k_min_step := None;
     k_valid_values := None; k_value := None |}.

(** [_get_configuration]: the keyword argument, else the entry of the
    table for this type, else the default. *)
Definition _get_configuration {A : Type} (characteristics : gmap string Config)
    (self_type : string) (kwargs : Config) (key : Config -> option A) (default : A) : A :=
  match key kwargs with
  | Some v => v
  | None =>
      match characteristics !! self_type with
      | None => default
      | Some entry =>
          match key entry with
          | None => default
          | Some v => v
          end
      end
  end.

(** The end of [__init__], from [self.value = None] on. *)
Definition init_value (kwargs : Config) : M Datatypes.unit :=
  (assign_value PNone ;;;
   ps <- attr perms ;;
   if negb (has_perm paired_read ps) then m_ret tt
   else
     match k_value kwargs with
     | Some v => assign_value v
     | None =>
         vv <- attr valid_values ;;
         match vv with
         | Some (first :: _) => assign_value first
         | _ =>
             fmt <- attr format ;;
             assign_value
               (match fmt with
                | Some f => match DEFAULT_FOR_TYPE f with Some v => v | None => PNone end
                | None => PNone
                end) ;;;
             lo <- attr minValue ;;
             match lo with
             | Some lo =>
                 when (num_truthy lo)
                   (v <- attr value ;;
                    when (negb (truthy v)) (assign_value (pyval_of_num lo)) ;;;
                    v <- attr value ;;
                    v <- lift (max_with v lo) ;;
                    assign_value v)
             | None => m_ret tt
             end ;;;
             hi <- attr maxValue ;;
             match hi with
             | Some hi =>
                 when (num_truthy hi)
                   (v <- attr value ;;
                    when (negb (truthy v)) (assign_value (pyval_of_num hi)) ;;;
                    v <- attr value ;;
                    v <- lift (min_with v hi) ;;
                    assign_value v)
             | None => m_ret tt
             end
         end
     end)%M.

(** [Characteristic(service, characteristic_type, **kwargs)].  The
    identifier [next_id] is what [service.accessory.get_next_id()]
    returns; [get_uuid] is [CharacteristicsTypes.get_uuid] ([None] for a
    [KeyError]) and [characteristics] the table of [data], neither of
    which is among the sources. *)
Definition __init__ (get_uuid : string -> option string)
    (characteristics : gmap string Config)
    (next_id : Z) (characteristic_type : string) (kwargs : Config)
    : res Datatypes.unit * Characteristic :=
  let self_type :=
    match get_uuid characteristic_type with
    | Some u => u
    | None => characteristic_type
    end in
  let conf {A : Type} := @_get_configuration A characteristics self_type kwargs in
  init_value kwargs
    {| iid := next_id;
       type := self_type;
       perms := conf k_perms [ paired_read ];
       format := conf k_format None;
       ev := PNone;
       description := conf k_description None;
       unit := conf k_unit None;
       minValue := conf k_min_value None;
       maxValue := conf k_max_value None;
       minStep := conf k_min_step None;
       maxLen := 64;
       maxDataLen := 2097152;
       valid_values := conf k_valid_values None;
       valid_values_range := None;
       value := PNone |}.

(** [set_events] *)
Definition set_events (new_val : pyval) : M Datatypes.unit := assign_ev new_val.

(** *** The guarded write path *)

Definition invalid_value : exn := FormatError (FE_status INVALID_VALUE).

(** The conversions of [set_value], inside its [try] block. *)
Definition convert_input (fmt : option CharacteristicFormats) (new_val : pyval) : res pyval :=
  new_val <-
    (if format_in fmt [ Fuint64; Fuint32; Fuint16; Fuint8; Fint ]
     then z <- int new_val ;; Ok (PInt z)
     else Ok new_val) ;;
  new_val <-
    (if format_is fmt Ffloat
     then f <- float new_val ;; Ok (PFloat f)
     else Ok new_val) ;;
  (if format_is fmt Fbool
   then z <- strtobool (str new_val) ;; Ok (PInt z)
   else Ok new_val).

(** [Decimal(str(tmp)) % Decimal(str(self.minStep)) != 0] *)
Definition off_step (tmp : pyval) (step : num) : res bool :=
  a <- decimal.new (PStr (str tmp)) ;;
  b <- decimal.new (PStr (str (pyval_of_num step))) ;;
  r <- decimal.__mod__ getcontext a b ;;
  decimal.ne_zero r.

(** [set_value(new_val)] *)
Definition set_value (new_val : pyval) : M Datatypes.unit :=
  (ps <- attr perms ;;
   when (negb (has_perm paired_write ps))
     (raise (CharacteristicPermissionError CANT_WRITE_READ_ONLY)) ;;;
   fmt <- attr format ;;
   new_val <- lift (try_except (convert_input fmt new_val) is_ValueError invalid_value) ;;
   when (format_in fmt [ Fuint64; Fuint32; Fuint16; Fuint8; Fint; Ffloat ])
     (lo <- attr minValue ;;
      hi <- attr maxValue ;;
      match lo with
      | Some lo => below <- lift (py_lt_num new_val lo) ;; when below (raise invalid_value)
      | None => m_ret tt
      end ;;;
      match hi with
      | Some hi => above <- lift (num_lt_py hi new_val) ;; when above (raise invalid_value)
      | None => m_ret tt
      end ;;;
      step <- attr minStep ;;
      match step with
      | Some step =>
          tmp <-
            match lo with
            | Some lo => lift (py_sub_num new_val lo)
            | None => m_ret new_val
            end ;;
          off <- lift (off_step tmp step) ;;
          when off (raise invalid_value)
      | None => m_ret tt
      end ;;;
      vv <- attr valid_values ;;
      match vv with
      | Some vv => when (negb (py_in new_val vv)) (raise invalid_value)
      | None => m_ret tt
      end ;;;
      vr <- attr valid_values_range ;;
      match vr with
      | Some (r0, r1) =>
          inside <- lift (py_between r0 new_val r1) ;; when (negb inside) (raise invalid_value)
      | None => m_ret tt
      end) ;;;
   when (format_is fmt Fdata)
     (byte_data <-
        lift
          (match
             (match new_val with
              | PStr s => base64.decodebytes (encode s)
              | _ => Raise AttributeError
              end)
           with
           | Ok b => Ok b
           | Raise e =>
               if is_binascii_Error e then Raise invalid_value
               else Raise (FormatError (FE_status OUT_OF_RESOURCES))
           end) ;;
      cap <- attr maxDataLen ;;
      when (cap <? Z.of_nat (List.length byte_data)) (raise invalid_value)) ;;;
   when (format_is fmt Fstring)
     (n <- lift (len new_val) ;;
      cap <- attr maxLen ;;
      when (cap <? n) (raise invalid_value)) ;;;
   assign_value new_val)%M.

(** *** The compact transport *)

(** The decoding of [set_value_from_ble], by format. *)
Definition ble_decode (fmt : option CharacteristicFormats) (value : pyval) : res pyval :=
  if format_is fmt Fbool then struct.unpack struct.c_bool value
  else if format_is fmt Fuint8 then struct.unpack struct.c_B value
  else if format_is fmt Fuint16 then struct.unpack struct.c_H value
  else if format_is fmt Fuint32 then struct.unpack struct.c_I value
  else if format_is fmt Fuint64 then struct.unpack struct.c_Q value
  else if format_is fmt Fint then struct.unpack struct.c_i value
  else if format_is fmt Ffloat then struct.unpack struct.c_f value
  else if format_is fmt Fstring then
    match value with
    | PBytes bs => s <- decode_utf8 bs ;; Ok (PStr s)
    | _ => Raise AttributeError
    end
  else
    match value with
    | PBytes bs => Ok (PStr (bytes_hex bs))
    | PFloat f => Ok (PStr (PyFloat.hex f))
    | _ => Raise AttributeError
    end.

(** [set_value_from_ble(value)] *)
Definition set_value_from_ble (value : pyval) : M Datatypes.unit :=
  (fmt <- attr format ;;
   value <- lift (ble_decode fmt value) ;;
   set_value value)%M.

(** [get_value()] *)
Definition get_value : M pyval :=
  (ps <- attr perms ;;
   when (negb (has_perm paired_read ps))
     (raise (CharacteristicPermissionError CANT_READ_WRITE_ONLY)) ;;;
   attr value)%M.

(** [get_value_for_ble()] *)
Definition get_value_for_ble : M pyval :=
  (value <- get_value ;;
   fmt <- attr format ;;
   if format_is fmt Fbool then
     val <- lift (try_except (strtobool (str value)) is_ValueError
                    (FormatError (FE_no_valid value fmt))) ;;
     bs <- lift (struct.pack struct.c_bool (PInt val)) ;;
     m_ret (PBytes bs)
   else if format_is fmt Fint then
     z <- lift (int value) ;;
     bs <- lift (struct.pack struct.c_i (PInt z)) ;;
     m_ret (PBytes bs)
   else if format_is fmt Ffloat then
     f <- lift (float value) ;;
     bs <- lift (struct.pack struct.c_f (PFloat f)) ;;
     m_ret (PBytes bs)
   else if format_is fmt Fstring then
     match value with
     | PStr s => m_ret (PBytes (encode s))
     | _ => raise AttributeError
     end
   else m_ret value)%M.

(** *** Descriptors *)

(** What a descriptor holds under a key. *)
Inductive field : Type :=
| f_text (s : string)
| f_int (z : Z)
| f_perms (l : list CharacteristicPermissions)
| f_format (f : option CharacteristicFormats)
| f_value (v : pyval)
| f_num (n : num)
| f_values (l : list pyval).

(** [get_meta()] *)
Definition get_meta (self : Characteristic) : gmap string field :=
  let tmp : gmap string field := {[ "format"%string := f_format (format self) ]} in
  if format_is (format self) Fstring then <[ "maxLen"%string := f_int 64 ]> tmp else tmp.

Definition text_truthy (s : option string) : bool :=
  match s with
  | Some s => negb (text_eqb (chars s) "")
  | None => false
  end.

Definition bound_truthy (n : option num) : bool :=
  match n with
  | Some n => num_truthy n
  | None => false
  end.

(** [d[k] = v] when [cond] holds. *)
Definition put_if (cond : bool) (k : string) (v : field) (d : gmap string field) : gmap string field :=
  if cond then <[ k := v ]> d else d.

Definition the {A : Type} (o : option A) (default : A) : A :=
  match o with
  | Some a => a
  | None => default
  end.

(** [to_accessory_and_service_list()] *)
Definition to_accessory_and_service_list (self : Characteristic) : gmap string field :=
  let d : gmap string field :=
    <[ "format"%string := f_format (format self) ]>
      (<[ "perms"%string := f_perms (perms self) ]>
         (<[ "iid"%string := f_int (iid self) ]>
            {[ "type"%string := f_text (type self) ]})) in
  let d := put_if (has_perm paired_read (perms self)) "value" (f_value (value self)) d in
  let d := put_if (truthy (ev self)) "ev" (f_value (ev self)) d in
  let d := put_if (text_truthy (description self)) "description" (f_text (the (description self) "")) d in
  let d := put_if (text_truthy (unit self)) "unit" (f_text (the (unit self) "")) d in
  let d := put_if (bound_truthy (minValue self)) "minValue" (f_num (the (minValue self) (NInt 0))) d in
  let d := put_if (bound_truthy (maxValue self)) "maxValue" (f_num (the (maxValue self) (NInt 0))) d in
  let d := put_if (bound_truthy (minStep self)) "minStep" (f_num (the (minStep self) (NInt 0))) d in
  let d := put_if (negb (maxLen self =? 0) && format_in (format self) [ Fstring ])
             "maxLen" (f_int (maxLen self)) d in
  let d := put_if (match valid_values self with Some (_ :: _) => true | _ => false end)
             "valid-values" (f_values (the (valid_values self) [])) d in
  d.

(** *** The lenient pipeline *)

Definition no_valid (val : pyval) (char : Characteristic) : exn :=
  FormatError (FE_no_valid val (format char)).

(** The block under [with localcontext() as ctx]: the value snapped to
    a multiple of the step, counted from the minimum. *)
Definition snap_to_step (char : Characteristic) (min_step : num) (val : decimal.Decimal)
    : res decimal.Decimal :=
  let ctx := getcontext in
  let ctx := decimal.set_prec ctx 6 in
  let ctx := decimal.set_rounding ctx decimal.ROUND_HALF_UP in
  let offset := decimal.of_num (match minValue char with Some lo => lo | None => NInt 0 end) in
  let min_step := decimal.of_num min_step in
  d <- decimal.__sub__ ctx val offset ;;
  q <- decimal.__truediv__ ctx d min_step ;;
  n <- decimal.to_integral_value (decimal.rounding ctx) q ;;
  p <- decimal.__mul__ ctx n min_step ;;
  decimal.__add__ ctx offset p.

(** [check_convert_value(val, char)] *)
Definition check_convert_value (val : pyval) (char : Characteristic) : res pyval :=
  if format_is (format char) Fbool then
    b <- try_except (strtobool (str val)) is_ValueError (no_valid val char) ;;
    Ok (PInt (if negb (b =? 0) then 1 else 0))
  else
    val <-
      (if format_in (format char) NUMBER_TYPES then
         d <- try_except (decimal.new val) is_ValueError (no_valid val char) ;;
         d <- match minValue char with
              | Some lo => decimal.max (decimal.of_num lo) d
              | None => Ok d
              end ;;
         d <- match maxValue char with
              | Some hi => decimal.min (decimal.of_num hi) d
              | None => Ok d
              end ;;
         d <- match minStep char with
              | Some step => snap_to_step char step d
              | None => Ok d
              end ;;
         if format_in (format char) INTEGER_TYPES then
           n <- decimal.to_integral_value (decimal.rounding getcontext) d ;;
           z <- decimal.__int__ n ;;
           Ok (PInt z)
         else
           f <- decimal.__float__ d ;;
           Ok (PFloat f)
       else Ok val) ;;
    _ <-
      (if format_is (format char) Fdata then
         match val with
         | PStr s =>
             _ <- try_except (base64.decodebytes (encode s)) is_binascii_Error (no_valid val char) ;;
             Ok tt
         | _ => Raise AttributeError
         end
       else Ok tt) ;;
    _ <-
      (if format_is (format char) Ftlv8 then
         match val with
         | PStr s =>
             _ <- try_except
                    (tmp_bytes <- base64.decodebytes (encode s) ;;
                     TLV_decode_bytes (List.length tmp_bytes) tmp_bytes)
                    (fun e => is_binascii_Error e || is_TlvParseException e)
                    (no_valid val char) ;;
             Ok tt
         | _ => Raise AttributeError
         end
       else Ok tt) ;;
    Ok val.

(** ** The strict pipeline, after the specification

    The specification describes the write path as a guard and a
    validation that come before the one mutation: [authorize_write],
    then [validate_write] (parse, range, step, enumeration), then the
    opaque-data and string-length checks; the value is replaced only when
    all of them pass.  These definitions follow that description; they
    are compared with [set_value] below. *)

Definition authorize_write (ps : list CharacteristicPermissions) : res Datatypes.unit :=
  if has_perm paired_write ps then Ok tt
  else Raise (CharacteristicPermissionError CANT_WRITE_READ_ONLY).

(** Fail with [FormatError(INVALID_VALUE)] when [bad] holds. *)
Definition reject_if (bad : bool) : res Datatypes.unit :=
  if bad then Raise invalid_value else Ok tt.

(** Steps 2 to 4 of the strict pipeline, on the parsed value [w]. *)
Definition validate_number (self : Characteristic) (w : pyval) : res Datatypes.unit :=
  _ <- match minValue self with
       | Some lo => below <- py_lt_num w lo ;; reject_if below
       | None => Ok tt
       end ;;
  _ <- match maxValue self with
       | Some hi => above <- num_lt_py hi w ;; reject_if above
       | None => Ok tt
       end ;;
  _ <- match minStep self with
       | Some step =>
           tmp <- match minValue self with
                  | Some lo => py_sub_num w lo
                  | None => Ok w
                  end ;;
           off <- off_step tmp step ;;
           reject_if off
       | None => Ok tt
       end ;;
  _ <- match valid_values self with
       | Some vv => reject_if (negb (py_in w vv))
       | None => Ok tt
       end ;;
  match valid_values_range self with
  | Some (r0, r1) => inside <- py_between r0 w r1 ;; reject_if (negb inside)
  | None => Ok tt
  end.

(** The opaque-data check: base64, then the size cap. *)
Definition validate_opaque (self : Characteristic) (w : pyval) : res Datatypes.unit :=
  match w with
  | PStr s =>
      match base64.decodebytes (encode s) with
      | Ok byte_data => reject_if (maxDataLen self <? Z.of_nat (List.length byte_data))
      | Raise _ => Raise invalid_value
      end
  | _ => Raise (FormatError (FE_status OUT_OF_RESOURCES))
  end.

(** The string-length check. *)
Definition validate_string (self : Characteristic) (w : pyval) : res Datatypes.unit :=
  n <- len w ;; reject_if (maxLen self <? n).

(** The value [write] stores for the candidate [new_val], or the
    violation it fails with. *)
Definition validate_write (self : Characteristic) (new_val : pyval) : res pyval :=
  _ <- authorize_write (perms self) ;;
  w <- try_except (convert_input (format self) new_val) is_ValueError invalid_value ;;
  _ <- (if format_in (format self) NUMBER_TYPES then validate_number self w else Ok tt) ;;
  _ <- (if format_is (format self) Fdata then validate_opaque self w else Ok tt) ;;
  _ <- (if format_is (format self) Fstring then validate_string self w else Ok tt) ;;
  Ok w.

(** ** Vocabulary of the construction and of the descriptor *)

(** A bound that the truth tests of the module see: present and not zero. *)
Definition effective_bound (o : option num) : option num :=
  match o with
  | Some n => if num_truthy n then Some n else None
  | None => None
  end.

(** The default of a format, [None] where there is none. *)
Definition format_default (fmt : option CharacteristicFormats) : pyval :=
  match fmt with
  | Some f => the (DEFAULT_FOR_TYPE f) PNone
  | None => PNone
  end.

(** The same characteristic with other numeric constraints. *)
Definition with_constraints (self : Characteristic) (lo hi step : option num) : Characteristic :=
  {| iid := iid self; type := type self; perms := perms self; format := format self;
     ev := ev self; description := description self; unit := unit self;
     minValue := lo; maxValue := hi; minStep := step;
     maxLen := maxLen self; maxDataLen := maxDataLen self;
     valid_values := valid_values self; valid_values_range := valid_values_range self;
     value := value self |}.

(** The same characteristic with other enumeration constraints. *)
Definition with_valid_values (self : Characteristic) (vv : option (list pyval))
    (vr : option (num * num)) : Characteristic :=
  {| iid := iid self; type := type self; perms := perms self; format := format self;
     ev := ev self; description := description self; unit := unit self;
     minValue := minValue self; maxValue := maxValue self; minStep := minStep self;
     maxLen := maxLen self; maxDataLen := maxDataLen self;
     valid_values := vv; valid_values_range := vr;
     value := value self |}.

(** The value a new characteristic holds, by precedence: nothing
    without read permission; else the explicit initial value; else the
    first of a non-empty [valid_values]; else the minimum, capped by the
    maximum, where a bound counts only if it is set and not zero; else
    the default of the format. *)
Definition initial_value (kwargs : Config) (self : Characteristic) : pyval :=
  if has_perm paired_read (perms self) then
    match k_value kwargs with
    | Some v => v
    | None =>
        match valid_values self with
        | Some (first :: _) => first
        | _ =>
            match effective_bound (minValue self), effective_bound (maxValue self) with
            | Some lo, Some hi => pyval_of_num (if num_lt hi lo then hi else lo)
            | Some lo, None => pyval_of_num lo
            | None, Some hi => pyval_of_num hi
            | None, None => format_default (format self)
            end
        end
    end
  else PNone.

(** ** Vocabulary of the numeric pipelines *)


(** The cast that ends the lenient pipeline, on an integer: an [int]
    for the integer formats, the nearest [float] for the float format. *)
Definition cast (fmt : option CharacteristicFormats) (z : Z) : pyval :=
  if format_in fmt INTEGER_TYPES then PInt z
  else PFloat (PyFloat.of_decimal (z <? 0) (Z.abs z) 0).

(** ** The snapping of the lenient pipeline, after the specification

    The specification has the value snapped to the nearest multiple of
    the step "using round-half-up at 6 significant digits of precision --
    [offset + round_half_up((value - offset) / step) * step]".  These
    definitions say that with the operations of [decimal]; they are
    compared with [check_convert_value] below. *)

(** Six significant digits, ties away from zero. *)
Definition six_digits_half_up : decimal.Context :=
  {| decimal.prec := 6; decimal.rounding := decimal.ROUND_HALF_UP;
     decimal.Emin := -999999; decimal.Emax := 999999 |}.

(** [offset + round_half_up((value - offset) / step) * step], every
    operation rounded as the context says. *)
Definition nearest_multiple (ctx : decimal.Context) (offset step value : decimal.Decimal)
    : res decimal.Decimal :=
  d <- decimal.__sub__ ctx value offset ;;
  q <- decimal.__truediv__ ctx d step ;;
  n <- decimal.to_integral_value decimal.ROUND_HALF_UP q ;;
  p <- decimal.__mul__ ctx n step ;;
  decimal.__add__ ctx offset p.

(** Step 2 of the lenient pipeline: into [min, max], by the bounds
    that are present. *)
Definition clamp_decimal (lo hi : option num) (d : decimal.Decimal) : res decimal.Decimal :=
  d <- match lo with
       | Some lo => decimal.max (decimal.of_num lo) d
       | None => Ok d
       end ;;
  match hi with
  | Some hi => decimal.min (decimal.of_num hi) d
  | None => Ok d
  end.

(** Step 4 of the lenient pipeline: to an integer (ties to even, by the
    default context) for the integer formats, to a float otherwise. *)
Definition cast_decimal (fmt : option CharacteristicFormats) (d : decimal.Decimal) : res pyval :=
  if format_in fmt INTEGER_TYPES then
    n <- decimal.to_integral_value decimal.ROUND_HALF_EVEN d ;;
    z <- decimal.__int__ n ;;
    Ok (PInt z)
  else
    f <- decimal.__float__ d ;;
    Ok (PFloat f).

(** [n / d] rounded to the nearest integer, ties upwards:
    [floor(n / d + 1/2)]. *)
Definition half_up (n d : Z) : Z := (2 * n + d) / (2 * d).

(** The multiple of [step] nearest to [v], counted from [offset], ties
    upwards. *)
Definition snap (offset step v : Z) : Z :=
  offset + half_up (v - offset) step * step.

(** The digits [x] stand for the quotient [a / s] scaled by [10^K]: [x]
    is at least the floor of the scaled quotient, and below every
    multiple of five above it.  So do the digits of an exact quotient,
    and those [__truediv__] leaves when there is a remainder, where a
    last digit 0 or 5 is replaced by 1 or 6. *)
Definition stands_for (a s K x : Z) : Prop :=
  (forall u, u * s <= a * 10 ^ K -> u <= x)
  /\ (forall u, (5 | u) -> a * 10 ^ K < u * s -> x < u).

(** ** Example characteristics *)

Definition no_uuid (_ : string) : option string := None.

Definition example_kwargs (ps : option (list CharacteristicPermissions))
    (fmt : CharacteristicFormats) (lo hi step : option num) (v : option pyval) : Config :=
  {| k_perms := ps; k_format := Some (Some fmt); k_description := None; k_unit := None;
     k_min_value := option_map Some lo; k_max_value := option_map Some hi;
     k_min_step := option_map Some step; k_valid_values := None; k_value := v |}.

Definition construct (kwargs : Config) : Characteristic :=
  snd (__init__ no_uuid ∅ 1 "example" kwargs).

(** An unsigned-8 level from 0 to 100 in steps of 10, readable and
    writable, holding 0. *)
Definition level : Characteristic :=
  construct (example_kwargs (Some [ paired_read; paired_write ]) Fuint8
               (Some (NInt 0)) (Some (NInt 100)) (Some (NInt 10)) (Some (PInt 0))).

(** An unsigned-32 count in steps of 1, without bounds. *)
Definition ticks : Characteristic :=
  construct (example_kwargs (Some [ paired_read; paired_write ]) Fuint32
               None None (Some (NInt 1)) (Some (PInt 0))).


(** The keyword arguments of an unsigned-8 value capped at 100, with
    no minimum and no initial value. *)
Definition capped_default_kwargs : Config :=
  example_kwargs None Fuint8 None (Some (NInt 100)) None None.

(** A write-only unsigned-8 value. *)
Definition write_only : Characteristic :=
  construct (example_kwargs (Some [ paired_write ]) Fuint8 None None None None).

(** A read-only unsigned-8 value holding 7. *)
Definition read_only_seven : Characteristic :=
  construct (example_kwargs (Some [ paired_read ]) Fuint8 None None None (Some (PInt 7))).

(** An unconstrained unsigned-8 counter, readable and writable, holding 5. *)
Definition counter : Characteristic :=
  construct (example_kwargs (Some [ paired_read; paired_write ]) Fuint8
               None None None (Some (PInt 5))).

(** An unconstrained signed-32 value, readable and writable, holding -5. *)
Definition signed : Characteristic :=
  construct (example_kwargs (Some [ paired_read; paired_write ]) Fint
               None None None (Some (PInt (-5)))).

(** ** Vocabulary of the properties *)

(** A computation that leaves the object as it found it. *)
Definition read_only {A : Type} (m : M A) : Prop :=
  forall self, snd (m self) = self.

(** A computation that, when it raises, leaves the object as it found it. *)
Definition fails_clean {A : Type} (m : M A) : Prop :=
  forall self e self', m self = (Raise e, self') -> self' = self.


(** ** The rest of the class

    [type_name]: the short name of the type of the characteristic;
    [get_short] is [CharacteristicsTypes.get_short] ([None] for a
    [KeyError]), which is not among the sources. *)
Definition type_name (get_short : string -> option string) (self : Characteristic)
    : option string :=
  get_short (type self).

(** ** Vocabulary and examples of the further properties *)

(** A text characteristic, readable and writable, holding the empty text. *)
Definition label : Characteristic :=
  construct (example_kwargs (Some [ paired_read; paired_write ]) Fstring
               None None None (Some (PStr ""))).

(** A switch: a boolean, readable and writable, holding 0. *)
Definition switch : Characteristic :=
  construct (example_kwargs (Some [ paired_read; paired_write ]) Fbool
               None None None (Some (PInt 0))).

(** A call of one of the methods that take the object. *)
Inductive call : Type :=
| call_set_value (new_val : pyval)
| call_set_value_from_ble (value : pyval)
| call_set_events (new_val : pyval)
| call_get_value
| call_get_value_for_ble.

(** The object after a call, whether the call returned or raised. *)
Definition after (c : call) (self : Characteristic) : Characteristic :=
  match c with
  | call_set_value new_val => snd (set_value new_val self)
  | call_set_value_from_ble value => snd (set_value_from_ble value self)
  | call_set_events new_val => snd (set_events new_val self)
  | call_get_value => snd (get_value self)
  | call_get_value_for_ble => snd (get_value_for_ble self)
  end.

(** The object after a sequence of calls. *)
Definition after_all (cs : list call) (self : Characteristic) : Characteristic :=
  List.fold_left (fun s c => after c s) cs self.

(** The attributes of the object other than [value] and [ev]. *)
Definition configuration (self : Characteristic) : Characteristic :=
  with_ev (with_value self PNone) PNone.

(** The two calls that can assign [value]. *)
Definition is_write (c : call) : bool :=
  match c with
  | call_set_value _ | call_set_value_from_ble _ => true
  | _ => false
  end.

(** The call that assigns [ev]. *)
Definition is_set_events (c : call) : bool :=
  match c with
  | call_set_events _ => true
  | _ => false
  end.

(** The keys a wire descriptor can hold. *)
Definition descriptor_keys : list string :=
  [ "type"; "iid"; "perms"; "format"; "value"; "ev"; "description"; "unit";
    "minValue"; "maxValue"; "minStep"; "maxLen"; "valid-values" ]%string.

(** The [struct] code by which [set_value_from_ble] unpacks a format;
    [None] for the formats it does not unpack. *)
Definition ble_code (f : CharacteristicFormats) : option struct.code :=
  match f with
  | Fbool => Some struct.c_bool
  | Fuint8 => Some struct.c_B
  | Fuint16 => Some struct.c_H
  | Fuint32 => Some struct.c_I
  | Fuint64 => Some struct.c_Q
  | Fint => Some struct.c_i
  | Ffloat => Some struct.c_f
  | Fstring | Fdata | Ftlv8 | Farray | Fdict => None
  end.

(** A signed-32 value, readable and writable, between -100 and 100. *)
Definition offset_value : Characteristic :=
  construct (example_kwargs (Some [ paired_read; paired_write ]) Fint
               (Some (NInt (-100))) (Some (NInt 100)) None (Some (PInt (-5)))).

(** An opaque-data characteristic, readable and writable, holding the
    empty text. *)
Definition blob : Characteristic :=
  construct (example_kwargs (Some [ paired_read; paired_write ]) Fdata
               None None None (Some (PStr ""))).

(** The codes of the characters of [bs.hex()], as [base64.decodebytes]
    reads them. *)
Definition hex_codes (bs : list byte) : list Z :=
  List.map Z_of_byte (encode (bytes_hex bs)).

(** An unsigned-8 level from 0 to 95 in steps of 10: the maximum is
    not on the step grid. *)
Definition uneven : Characteristic :=
  construct (example_kwargs (Some [ paired_read; paired_write ]) Fuint8
               (Some (NInt 0)) (Some (NInt 95)) (Some (NInt 10)) (Some (PInt 0))).

(** * Properties *)

(** ** Computations that read, and the one that writes *)

Lemma read_only_ret {A : Type} (a : A) : read_only (m_ret a).
Proof. by intros self. Qed.

Lemma read_only_raise {A : Type} (e : exn) : read_only (@raise A e).
Proof. by intros self. Qed.

Lemma read_only_lift {A : Type} (r : res A) : read_only (lift r).
Proof. by intros self. Qed.

Lemma read_only_attr {A : Type} (f : Characteristic -> A) : read_only (attr f).
Proof. by intros self. Qed.

Lemma read_only_bind {A B : Type} (m : M A) (k : A -> M B) :
  read_only m -> (forall a, read_only (k a)) -> read_only (m_bind m k).
Proof.
  intros Hm Hk self. unfold m_bind.
  specialize (Hm self). destruct (m self) as [[a|e] s]; simpl in *; subst; [apply Hk | done].
Qed.

Lemma read_only_when (b : bool) (m : M Datatypes.unit) :
  read_only m -> read_only (when b m).
Proof. destruct b; [done | intros _; apply read_only_ret]. Qed.

Lemma read_only_match_option {A B : Type} (o : option A) (f : A -> M B) (d : M B) :
  (forall a, read_only (f a)) -> read_only d ->
  read_only (match o with Some a => f a | None => d end).
Proof. by destruct o. Qed.

Lemma fails_clean_read_only {A : Type} (m : M A) : read_only m -> fails_clean m.
Proof. intros Hm self e self' E. specialize (Hm self). rewrite E in Hm. done. Qed.

Lemma fails_clean_assign (v : pyval) : fails_clean (assign_value v).
Proof. intros self e self' E. discriminate E. Qed.

Lemma fails_clean_bind {A B : Type} (m : M A) (k : A -> M B) :
  read_only m -> (forall a, fails_clean (k a)) -> fails_clean (m_bind m k).
Proof.
  intros Hm Hk self e self'. unfold m_bind.
  specialize (Hm self). destruct (m self) as [[a|e0] s]; simpl in *; subst.
  - apply Hk.
  - by intros [= _ <-].
Qed.

Create HintDb frame discriminated.

#[global] Hint Resolve read_only_ret read_only_raise read_only_lift read_only_attr
  read_only_when fails_clean_assign : frame.
#[global] Hint Extern 2 (read_only (m_bind _ _)) => apply read_only_bind; [ | intros ] : frame.
#[global] Hint Extern 2 (fails_clean (m_bind _ _)) => apply fails_clean_bind; [ | intros ] : frame.
#[global] Hint Extern 3 (read_only (match ?o with _ => _ end)) => destruct o : frame.

(** The checks of [set_value] come before its one assignment. *)
Lemma set_value_fails_clean (new_val : pyval) : fails_clean (set_value new_val).
Proof. unfold set_value. auto 30 with frame. Qed.

(** ** C8: a failing write changes nothing *)

(** C8.  Whenever [set_value] raises -- a [CharacteristicPermissionError],
    a [FormatError], or any other exception -- the object, and so its
    stored value, is what it was before the call: every check comes
    before the assignment. *)
Theorem set_value_failure_leaves_value (self : Characteristic) (new_val : pyval)
    (e : exn) (self' : Characteristic) :
  set_value new_val self = (Raise e, self') ->
  value self' = value self /\ self' = self.
Proof.
  intros E. apply set_value_fails_clean in E. by subst.
Qed.

(** ** The write path is the strict pipeline followed by the assignment *)

Ltac run_M :=
  cbv beta iota zeta delta [m_bind attr lift when raise m_ret assign_value assign_ev negb].


Lemma a2b_raises (bs : list Z) (quad_pos leftchar pads : Z) (out : list byte) (e : exn) :
  base64.a2b bs quad_pos leftchar pads out = Raise e -> e = binascii_Error.
Proof.
  revert quad_pos leftchar pads out.
  induction bs as [|b r IH]; intros quad_pos leftchar pads out; simpl.
  - destruct (quad_pos =? 0); congruence.
  - destruct (b =? 61).
    + destruct (_ && _); [discriminate | apply IH].
    + destruct (base64.sextet b); [ | apply IH ].
      repeat (destruct (quad_pos =? _)); apply IH.
Qed.

Lemma decodebytes_raises (s : list byte) (e : exn) :
  base64.decodebytes s = Raise e -> is_binascii_Error e = true.
Proof. intros E. apply a2b_raises in E. by subst. Qed.

Ltac step_match :=
  match goal with
  | |- context [match ?x with _ => _ end] =>
      lazymatch x with
      | context [match _ with _ => _ end] => fail
      | _ => destruct x eqn:?
      end
  end.

(** [set_value] validates as the specification's strict pipeline does,
    and assigns when the validation passes. *)
Lemma set_value_validate_write (self : Characteristic) (new_val : pyval) :
  set_value new_val self =
  match validate_write self new_val with
  | Ok w => (Ok tt, with_value self w)
  | Raise e => (Raise e, self)
  end.
Proof.
  cbv beta iota zeta delta [set_value validate_write authorize_write validate_number
    validate_opaque validate_string reject_if m_bind attr lift when raise m_ret
    assign_value rbind NUMBER_TYPES INTEGER_TYPES app].
  repeat (step_match; cbv beta iota zeta; try reflexivity; try discriminate; try congruence).
  all: match goal with
       | H : base64.decodebytes _ = Raise _ |- _ => apply decodebytes_raises in H; congruence
       end.
Qed.

(** ** C7: text that is not a number in the lenient pipeline *)

(** [Decimal(v)] never raises a [ValueError]: text that is not a number
    raises [InvalidOperation], an object of another type [TypeError]. *)
Lemma decimal_new_raises (v : pyval) (e : exn) :
  decimal.new v = Raise e -> e = InvalidOperation \/ e = TypeError.
Proof.
  destruct v; simpl; try (intros [= <-]; by auto); try discriminate.
  unfold decimal.of_text.
  repeat (step_match; try discriminate; try (intros [= <-]; by auto)).
Qed.

(** So the handler [except ValueError] around [Decimal(val)] never runs. *)
Lemma check_convert_value_parse_error (char : Characteristic) (val : pyval) (e : exn) :
  format_in (format char) NUMBER_TYPES = true ->
  decimal.new val = Raise e ->
  check_convert_value val char = Raise e.
Proof.
  intros Hf E. unfold check_convert_value.
  assert (format_is (format char) Fbool = false) as ->.
  { destruct (format char) as [[]|]; by vm_compute in Hf |- *. }
  rewrite Hf, E.
  destruct (decimal_new_raises _ _ E) as [-> | ->]; reflexivity.
Qed.

(** C7 (the code departs from the claim).  On the unsigned-8 example
    [level] the text ["abc"] makes [check_convert_value] raise
    [decimal.InvalidOperation], which is not a [FormatError]:
    [Decimal("abc")] does not raise the [ValueError] that the handler
    turns into one. *)
Theorem check_convert_value_abc :
  check_convert_value (PStr "abc") level = Raise InvalidOperation.
Proof. vm_compute. reflexivity. Qed.

(** ** C2: the round trip through the compact transport *)

(** For the unsigned formats [get_value_for_ble] hands out the stored
    value itself, not bytes. *)
Lemma get_value_for_ble_unsigned (self : Characteristic) (fmt : CharacteristicFormats) :
  has_perm paired_read (perms self) = true ->
  format self = Some fmt ->
  fmt ∈ [ Fuint8; Fuint16; Fuint32; Fuint64 ] ->
  get_value_for_ble self = (Ok (value self), self).
Proof.
  intros Hp Hf Hin. unfold get_value_for_ble, get_value. run_M. rewrite Hp. run_M.
  rewrite Hf. rewrite !elem_of_cons in Hin.
  destruct Hin as [-> | [-> | [-> | [-> | Hin]]]]; try reflexivity.
  by apply elem_of_nil in Hin.
Qed.

(** C2 (the code departs from the claim).  On the unsigned-8 example
    [counter], which holds 5, the encoder returns the integer 5 as it is
    and the decoder, given that result, raises [TypeError]: the round
    trip does not yield the value. *)
Theorem ble_round_trip_unsigned :
  get_value_for_ble counter = (Ok (PInt 5), counter)
  /\ set_value_from_ble (PInt 5) counter = (Raise TypeError, counter).
Proof. split; vm_compute; reflexivity. Qed.

(** The signed-32 format, which both directions handle, does round-trip. *)
Example ble_round_trip_signed :
  get_value_for_ble signed = (Ok (PBytes [ xfb; xff; xff; xff ]), signed)
  /\ set_value_from_ble (PBytes [ xfb; xff; xff; xff ]) signed = (Ok tt, signed).
Proof. split; vm_compute; reflexivity. Qed.

(** A write of 55 to [level], which is not a multiple of its step 10,
    fails and leaves the stored 0. *)
Lemma set_value_failure_leaves_value_witness :
  set_value (PInt 55) level = (Raise invalid_value, level)
  /\ (value level = value level /\ level = level).
Proof.
  split; [ vm_compute; reflexivity | ].
  apply (set_value_failure_leaves_value level (PInt 55) invalid_value level).
  vm_compute; reflexivity.
Defined.

(** ** C10: what the wire descriptor leaves out *)

Lemma lookup_put_if_ne (c : bool) (k k' : string) (v : field) (d : gmap string field) :
  k <> k' -> put_if c k v d !! k' = d !! k'.
Proof. intros Hk. destruct c; simpl; [by apply lookup_insert_ne | done]. Qed.

Lemma lookup_put_if (c : bool) (k : string) (v : field) (d : gmap string field) :
  put_if c k v d !! k = if c then Some v else d !! k.
Proof. destruct c; simpl; [by apply lookup_insert_eq | done]. Qed.

Ltac descriptor_lookup :=
  unfold to_accessory_and_service_list;
  cbn [with_constraints with_value minValue maxValue minStep perms format value ev
    description unit valid_values maxLen iid type bound_truthy];
  repeat first
    [ rewrite lookup_put_if
    | rewrite lookup_put_if_ne by done
    | rewrite lookup_insert_ne by done
    | rewrite lookup_singleton_ne by done ].

(** C10.  A bound or step that is set to zero is left out of the wire
    descriptor, which is then the descriptor of the characteristic
    without that constraint; and the key ["value"] is present exactly
    when the characteristic can be read, whatever is stored -- [None]
    included. *)
Theorem descriptor_zero_constraints (self : Characteristic) (z : num) (lo hi step : option num) :
  num_truthy z = false ->
  let d := to_accessory_and_service_list in
  (d (with_constraints self (Some z) hi step) !! "minValue"%string = None
   /\ d (with_constraints self (Some z) hi step) = d (with_constraints self None hi step))
  /\ (d (with_constraints self lo (Some z) step) !! "maxValue"%string = None
      /\ d (with_constraints self lo (Some z) step) = d (with_constraints self lo None step))
  /\ (d (with_constraints self lo hi (Some z)) !! "minStep"%string = None
      /\ d (with_constraints self lo hi (Some z)) = d (with_constraints self lo hi None))
  /\ d self !! "value"%string
     = if has_perm paired_read (perms self) then Some (f_value (value self)) else None.
Proof.
  intros Hz d. subst d.
  repeat split.
  - descriptor_lookup. rewrite Hz. done.
  - unfold to_accessory_and_service_list. cbn [with_constraints minValue maxValue minStep perms format value ev
    description unit valid_values maxLen iid type bound_truthy]. rewrite Hz. reflexivity.
  - descriptor_lookup. rewrite Hz. done.
  - unfold to_accessory_and_service_list. cbn [with_constraints minValue maxValue minStep perms format value ev
    description unit valid_values maxLen iid type bound_truthy]. rewrite Hz. reflexivity.
  - descriptor_lookup. rewrite Hz. done.
  - unfold to_accessory_and_service_list. cbn [with_constraints minValue maxValue minStep perms format value ev
    description unit valid_values maxLen iid type bound_truthy]. rewrite Hz. reflexivity.
  - descriptor_lookup. destruct (has_perm _ _); done.
Qed.

Lemma descriptor_zero_constraints_witness :
  num_truthy (NInt 0) = false
  /\ (let d := to_accessory_and_service_list in
      (d (with_constraints read_only_seven (Some (NInt 0)) (Some (NInt 100)) (Some (NInt 10)))
         !! "minValue"%string = None
       /\ d (with_constraints read_only_seven (Some (NInt 0)) (Some (NInt 100)) (Some (NInt 10)))
          = d (with_constraints read_only_seven None (Some (NInt 100)) (Some (NInt 10))))
      /\ (d (with_constraints read_only_seven (Some (NInt 1)) (Some (NInt 0)) (Some (NInt 10)))
            !! "maxValue"%string = None
          /\ d (with_constraints read_only_seven (Some (NInt 1)) (Some (NInt 0)) (Some (NInt 10)))
             = d (with_constraints read_only_seven (Some (NInt 1)) None (Some (NInt 10))))
      /\ (d (with_constraints read_only_seven (Some (NInt 1)) (Some (NInt 100)) (Some (NInt 0)))
            !! "minStep"%string = None
          /\ d (with_constraints read_only_seven (Some (NInt 1)) (Some (NInt 100)) (Some (NInt 0)))
             = d (with_constraints read_only_seven (Some (NInt 1)) (Some (NInt 100)) None))
      /\ d read_only_seven !! "value"%string
         = if has_perm paired_read (perms read_only_seven)
           then Some (f_value (value read_only_seven)) else None).
Proof.
  split; [ reflexivity | ].
  exact (descriptor_zero_constraints read_only_seven (NInt 0)
           (Some (NInt 1)) (Some (NInt 100)) (Some (NInt 10)) eq_refl).
Defined.

(** A readable characteristic whose stored value is [None] still shows
    the key ["value"]. *)
Example descriptor_value_none :
  to_accessory_and_service_list (with_value read_only_seven PNone) !! "value"%string
  = Some (f_value PNone).
Proof. vm_compute. reflexivity. Qed.

(** ** C3: the value a new characteristic holds *)

Lemma format_default_falsy (fmt : option CharacteristicFormats) :
  truthy (format_default fmt) = false.
Proof. by destruct fmt as [[]|]. Qed.

Lemma truthy_pyval_of_num (n : num) : truthy (pyval_of_num n) = num_truthy n.
Proof. by destruct n. Qed.

Lemma as_num_pyval_of_num (n : num) : as_num (pyval_of_num n) = Some n.
Proof. by destruct n. Qed.

Lemma with_value_with_value (c : Characteristic) (v w : pyval) :
  with_value (with_value c v) w = with_value c w.
Proof. reflexivity. Qed.

Ltac norm :=
  repeat (progress (run_M;
    cbn [with_value with_ev iid type perms format ev description unit minValue maxValue
         minStep maxLen maxDataLen valid_values valid_values_range value fst snd])).

Ltac settle :=
  repeat (progress (norm;
    try change (truthy PNone) with false;
    try change (truthy (PBool false)) with false;
    try change (truthy (PInt 0)) with false;
    try change (truthy (PFloat PyFloat.zero)) with false;
    try change (truthy (PStr "")) with false;
    try change (truthy (PList [])) with false;
    try change (truthy PDictEmpty) with false;
    repeat match goal with
    | |- context [truthy (pyval_of_num ?n)] => rewrite (truthy_pyval_of_num n)
    | |- context [as_num (pyval_of_num ?n)] => rewrite (as_num_pyval_of_num n)
    | H : num_truthy ?n = _ |- context [num_truthy ?n] => rewrite H
    end)).

Lemma init_value_spec (kwargs : Config) (c0 : Characteristic) :
  init_value kwargs c0 = (Ok tt, with_value c0 (initial_value kwargs c0)).
Proof.
  unfold init_value, initial_value. norm.
  destruct (has_perm paired_read (perms c0)); norm; [ | reflexivity ].
  destruct (k_value kwargs); norm; [ reflexivity | ].
  destruct (valid_values c0) as [[|first rest]|]; norm; try reflexivity.
  all: unfold effective_bound, max_with, min_with, py_lt_num, num_lt_py, rbind, format_default, the.
  all: destruct (format c0) as [[]|]; cbn [DEFAULT_FOR_TYPE]; norm.
  all: destruct (minValue c0) as [lo|]; [destruct (num_truthy lo) eqn:Hlo | ]; settle.
  all: destruct (maxValue c0) as [hi|]; [destruct (num_truthy hi) eqn:Hhi | ]; settle.
  all: try reflexivity.
  all: try (destruct (num_lt lo lo); settle; try reflexivity).
  all: try (destruct (num_lt hi hi); reflexivity).
  all: try (destruct (num_lt hi lo); reflexivity).
Qed.

(** C3 (amended).  Construction always succeeds, and the initial value
    is: [None] without read permission, whatever the configuration;
    else the explicit initial value; else the first element of a
    non-empty [valid_values]; else the format default, which a bound
    that is set and not zero replaces rather than clamps -- by the
    minimum (capped by the maximum) if there is one, else by the
    maximum.  So the default 0 with [max_value=100] and no minimum
    becomes 100. *)
Theorem constructed_value (get_uuid : string -> option string)
    (characteristics : gmap string Config) (next_id : Z) (characteristic_type : string)
    (kwargs : Config) :
  let init := __init__ get_uuid characteristics next_id characteristic_type kwargs in
  let self := snd init in
  fst init = Ok tt
  /\ value self =
     if has_perm paired_read (perms self) then
       match k_value kwargs with
       | Some v => v
       | None =>
           match valid_values self with
           | Some (first :: _) => first
           | _ =>
               match effective_bound (minValue self), effective_bound (maxValue self) with
               | Some lo, Some hi => pyval_of_num (if num_lt hi lo then hi else lo)
               | Some lo, None => pyval_of_num lo
               | None, Some hi => pyval_of_num hi
               | None, None => format_default (format self)
               end
           end
       end
     else PNone.
Proof.
  unfold __init__. rewrite init_value_spec. split; reflexivity.
Qed.

(** The claim fails where it says that an in-range default stays: an
    unsigned-8 characteristic with [max_value=100], no minimum and no
    initial value starts at 100, not at the format default 0. *)
Lemma constructed_value_counterexample :
  fst (__init__ no_uuid ∅ 1 "example" capped_default_kwargs) = Ok tt
  /\ format_default (format (construct capped_default_kwargs)) = PInt 0
  /\ minValue (construct capped_default_kwargs) = None
  /\ maxValue (construct capped_default_kwargs) = Some (NInt 100)
  /\ value (construct capped_default_kwargs) = PInt 100
  /\ value (construct capped_default_kwargs) <> PInt 0.
Proof. vm_compute. repeat split; try reflexivity. discriminate. Qed.

(** ** C6: the value of a characteristic that cannot be read *)

(** Without read permission the constructor returns before it looks at
    the configured value. *)
Lemma constructed_unreadable (get_uuid : string -> option string)
    (characteristics : gmap string Config) (next_id : Z) (characteristic_type : string)
    (kwargs : Config) :
  let self := snd (__init__ get_uuid characteristics next_id characteristic_type kwargs) in
  has_perm paired_read (perms self) = false -> value self = PNone.
Proof.
  unfold __init__. rewrite init_value_spec. cbv zeta.
  cbn [snd value perms with_value]. unfold initial_value.
  cbn [perms]. intros ->. reflexivity.
Qed.

Lemma validate_write_authorized (self : Characteristic) (v w : pyval) :
  validate_write self v = Ok w -> has_perm paired_write (perms self) = true.
Proof.
  unfold validate_write, authorize_write.
  destruct (has_perm paired_write (perms self)); [ done | discriminate ].
Qed.

Lemma set_value_from_ble_decoded (self : Characteristic) (value : pyval) :
  set_value_from_ble value self =
  match ble_decode (format self) value with
  | Ok v => set_value v self
  | Raise e => (Raise e, self)
  end.
Proof. unfold set_value_from_ble. run_M. by destruct (ble_decode _ _). Qed.

(** C6 (amended).  A characteristic constructed without read permission
    holds [None], and its value can never be read: [get_value] and
    [get_value_for_ble] raise [CharacteristicPermissionError] and the
    descriptor has no ["value"].  Reading, [set_events] and every failing
    write leave the stored value as it is.  But a write that succeeds --
    it needs write permission only -- stores the validated candidate,
    on a write-only characteristic too. *)
Theorem unreadable_value (get_uuid : string -> option string)
    (characteristics : gmap string Config) (next_id : Z) (characteristic_type : string)
    (kwargs : Config) :
  let self0 := snd (__init__ get_uuid characteristics next_id characteristic_type kwargs) in
  has_perm paired_read (perms self0) = false ->
  value self0 = PNone
  /\ forall self, perms self = perms self0 ->
       get_value self = (Raise (CharacteristicPermissionError CANT_READ_WRITE_ONLY), self)
       /\ get_value_for_ble self
          = (Raise (CharacteristicPermissionError CANT_READ_WRITE_ONLY), self)
       /\ to_accessory_and_service_list self !! "value"%string = None
       /\ (forall v, perms (snd (set_events v self)) = perms self
                     /\ value (snd (set_events v self)) = value self)
       /\ (forall v,
             match set_value v self with
             | (Ok _, self') =>
                 has_perm paired_write (perms self) = true
                 /\ validate_write self v = Ok (value self')
                 /\ self' = with_value self (value self')
             | (Raise _, self') => self' = self
             end)
       /\ (forall bs,
             match set_value_from_ble bs self with
             | (Ok _, self') =>
                 has_perm paired_write (perms self) = true
                 /\ exists v, ble_decode (format self) bs = Ok v
                              /\ validate_write self v = Ok (value self')
                              /\ self' = with_value self (value self')
             | (Raise _, self') => self' = self
             end).
Proof.
  intros self0 Hr.
  split; [ exact (constructed_unreadable _ _ _ _ _ Hr) | ].
  intros self Hp. rewrite <- Hp in Hr.
  assert (Hset : forall v,
             match set_value v self with
             | (Ok _, self') =>
                 has_perm paired_write (perms self) = true
                 /\ validate_write self v = Ok (value self')
                 /\ self' = with_value self (value self')
             | (Raise _, self') => self' = self
             end).
  { intros v. rewrite set_value_validate_write.
    destruct (validate_write self v) as [w|e] eqn:E; [ | reflexivity ].
    split; [ by eapply validate_write_authorized | by split ]. }
  repeat split.
  - unfold get_value. run_M. rewrite Hr. reflexivity.
  - unfold get_value_for_ble, get_value. run_M. rewrite Hr. reflexivity.
  - descriptor_lookup. rewrite Hr. done.
  - exact Hset.
  - intros bs. rewrite set_value_from_ble_decoded.
    destruct (ble_decode (format self) bs) as [v|e] eqn:E; [ | reflexivity ].
    specialize (Hset v). destruct (set_value v self) as [[[]|e] self']; [ | exact Hset ].
    destruct Hset as (Hw & Hval & Hself). split; [ exact Hw | by exists v ].
Qed.

(** The write-only example: [None] at construction, a successful
    write, and 5 stored afterwards. *)
Lemma unreadable_value_counterexample :
  has_perm paired_read (perms write_only) = false
  /\ value write_only = PNone
  /\ set_value (PInt 5) write_only = (Ok tt, with_value write_only (PInt 5))
  /\ has_perm paired_read (perms (with_value write_only (PInt 5))) = false
  /\ value (with_value write_only (PInt 5)) <> PNone.
Proof. vm_compute. repeat split; try reflexivity. discriminate. Qed.

Lemma unreadable_value_witness :
  has_perm paired_read
    (perms (snd (__init__ no_uuid ∅ 1 "example"
                   (example_kwargs (Some [ paired_write ]) Fuint8 None None None None))))
  = false
  /\ value write_only = PNone
  /\ set_value (PInt 5) write_only = (Ok tt, with_value write_only (PInt 5)).
Proof.
  split; [ reflexivity | ].
  destruct (unreadable_value no_uuid ∅ 1 "example"
              (example_kwargs (Some [ paired_write ]) Fuint8 None None None None) eq_refl)
    as [Hv _].
  split; [ exact Hv | vm_compute; reflexivity ].
Defined.

(** ** C1: what the compact transport applies to the decoded value *)


Lemma validate_write_numeric (self : Characteristic) (v w : pyval) :
  format_in (format self) NUMBER_TYPES = true ->
  convert_input (format self) v = Ok w ->
  validate_write self v = Ok w ->
  validate_number self w = Ok tt.
Proof.
  intros Hf Hc. unfold validate_write, rbind.
  destruct (authorize_write _); [ | discriminate ].
  rewrite Hc. cbn [try_except]. rewrite Hf.
  destruct (validate_number self w) as [[]|]; [ done | discriminate ].
Qed.

Lemma validate_number_in_range (self : Characteristic) (w : pyval) :
  validate_number self w = Ok tt ->
  (forall lo, minValue self = Some lo -> py_lt_num w lo = Ok false)
  /\ (forall hi, maxValue self = Some hi -> num_lt_py hi w = Ok false)
  /\ (forall vv, valid_values self = Some vv -> py_in w vv = true).
Proof.
  unfold validate_number, rbind, reject_if. intros E. repeat split.
  - intros lo Hlo. rewrite Hlo in E.
    destruct (py_lt_num w lo) as [[]|]; done.
  - intros hi Hhi. rewrite Hhi in E.
    destruct (minValue self) as [lo|];
      [ destruct (py_lt_num w lo) as [[]|]; try done | ];
      destruct (num_lt_py hi w) as [[]|]; done.
  - intros vv Hvv. rewrite Hvv in E. revert E.
    repeat (step_match; try discriminate).
    all: intros _; by destruct (py_in w vv).
Qed.




(** ** Decimals that are integers *)

Lemma cmp_of_Z (a b : Z) : decimal._cmp (decimal.of_Z a) (decimal.of_Z b) = (a ?= b).
Proof.
  unfold decimal._cmp, decimal.of_Z.
  rewrite Z.min_id, Z.sub_diag, Z.pow_0_r, !Z.mul_1_r.
  destruct (Z.abs a =? 0) eqn:Ha, (Z.abs b =? 0) eqn:Hb,
    (a <? 0) eqn:Sa, (b <? 0) eqn:Sb; cbn [negb Bool.eqb CompOpp];
    rewrite ?Z.eqb_eq, ?Z.eqb_neq, ?Z.ltb_lt, ?Z.ltb_ge in *;
    symmetry;
    first [ apply Z.compare_eq_iff; lia
          | apply Z.compare_lt_iff; lia
          | apply Z.compare_gt_iff; lia
          | idtac ].
  - replace (Z.abs a) with (- a) by lia. replace (Z.abs b) with (- b) by lia.
    rewrite Z.compare_opp. apply Z.compare_antisym.
  - f_equal; lia.
Qed.

Lemma max_of_Z (a b : Z) : decimal.max (decimal.of_Z a) (decimal.of_Z b) = Ok (decimal.of_Z (Z.max a b)).
Proof.
  unfold decimal.max, decimal.__gt__, rbind. cbn [decimal.is_nan decimal.of_Z orb].
  fold (decimal.of_Z a). fold (decimal.of_Z b). rewrite cmp_of_Z.
  destruct (b ?= a) eqn:E; f_equal; f_equal.
  - apply Z.compare_eq in E. lia.
  - rewrite Z.compare_lt_iff in E. lia.
  - rewrite Z.compare_gt_iff in E. lia.
Qed.

Lemma min_of_Z (a b : Z) : decimal.min (decimal.of_Z a) (decimal.of_Z b) = Ok (decimal.of_Z (Z.min a b)).
Proof.
  unfold decimal.min, decimal.__lt__, rbind. cbn [decimal.is_nan decimal.of_Z orb].
  fold (decimal.of_Z a). fold (decimal.of_Z b). rewrite cmp_of_Z.
  destruct (b ?= a) eqn:E; f_equal; f_equal.
  - apply Z.compare_eq in E. lia.
  - rewrite Z.compare_lt_iff in E. lia.
  - rewrite Z.compare_gt_iff in E. lia.
Qed.

Lemma int_of_Z (z : Z) : decimal.__int__ (decimal.of_Z z) = Ok z.
Proof.
  unfold decimal.__int__, decimal.of_Z. cbn [Z.leb Z.compare]. rewrite Z.pow_0_r, Z.mul_1_r.
  f_equal. destruct (z <? 0) eqn:E; rewrite ?Z.ltb_lt, ?Z.ltb_ge in E; lia.
Qed.

Lemma to_integral_of_Z (mode : decimal.rounding_mode) (z : Z) :
  decimal.to_integral_value mode (decimal.of_Z z) = Ok (decimal.of_Z z).
Proof. reflexivity. Qed.

Lemma float_of_Z (z : Z) :
  decimal.__float__ (decimal.of_Z z) = Ok (PyFloat.of_decimal (z <? 0) (Z.abs z) 0).
Proof. reflexivity. Qed.

Lemma numeric_not_bool (fmt : option CharacteristicFormats) :
  format_in fmt NUMBER_TYPES = true -> format_is fmt Fbool = false.
Proof. destruct fmt as [[]|]; by vm_compute. Qed.

(** The cast of the lenient pipeline, on a Decimal that is an integer. *)
Lemma cast_of_Z (fmt : option CharacteristicFormats) (z : Z) :
  (if format_in fmt INTEGER_TYPES
   then (n <- decimal.to_integral_value (decimal.rounding getcontext) (decimal.of_Z z) ;;
         z <- decimal.__int__ n ;; Ok (PInt z))
   else (f <- decimal.__float__ (decimal.of_Z z) ;; Ok (PFloat f)))%res
  = Ok (cast fmt z).
Proof.
  unfold cast. destruct (format_in fmt INTEGER_TYPES).
  - rewrite to_integral_of_Z. cbn [rbind]. rewrite int_of_Z. reflexivity.
  - rewrite float_of_Z. reflexivity.
Qed.

(** ** C9: the lenient pipeline clamps and does not look at the enumeration *)




(** *** Printing an integer and reading it back *)

Lemma digits_of_uint (d : Decimal.uint) :
  List.Forall (fun c => is_digit c = true) (chars (NilEmpty.string_of_uint d)).
Proof.
  induction d; simpl; constructor; (reflexivity || assumption).
Qed.

Lemma digit_code (c : ascii) : is_digit c = true -> 48 <= code c <= 57.
Proof. unfold is_digit. rewrite andb_true_iff, !Z.leb_le. lia. Qed.

Lemma digit_not_space (c : ascii) : is_digit c = true -> is_space c = false.
Proof.
  intros H%digit_code. unfold is_space.
  rewrite orb_false_iff, !andb_false_iff, !Z.leb_gt. lia.
Qed.

Lemma lstrip_plain (l : list ascii) :
  List.Forall (fun c => is_space c = false) l -> lstrip l = l.
Proof. destruct 1 as [|c l Hc _]; [ done | simpl; by rewrite Hc ]. Qed.

Lemma strip_plain (l : list ascii) :
  List.Forall (fun c => is_space c = false) l -> strip l = l.
Proof.
  intros H. unfold strip. rewrite (lstrip_plain l H).
  rewrite lstrip_plain by (by apply List.Forall_rev).
  apply List.rev_involutive.
Qed.

Lemma filter_all {A : Type} (f : A -> bool) (l : list A) :
  List.Forall (fun c => f c = true) l -> List.filter f l = l.
Proof. induction 1 as [|c l Hc _ IH]; simpl; [ done | by rewrite Hc, IH ]. Qed.

Lemma span_digits_all (l : list ascii) :
  List.Forall (fun c => is_digit c = true) l -> span_digits l = (l, []).
Proof. induction 1 as [|c l Hc _ IH]; simpl; [ done | by rewrite Hc, IH ]. Qed.

(** Text made of digits after an optional minus sign reads as the
    number it denotes. *)
Lemma of_text_digits (neg : bool) (d : Decimal.uint) :
  d <> Decimal.Nil ->
  decimal.of_text ((if neg then [ "-"%char ] else []) ++ chars (NilEmpty.string_of_uint d))
  = Ok (decimal.Finite neg (Z.of_N (N.of_uint d)) 0).
Proof.
  intros Hd. pose proof (digits_of_uint d) as Hds.
  assert (Hval : digits_value (chars (NilEmpty.string_of_uint d)) = Some (N.of_uint d)).
  { unfold digits_value, text, chars.
    by rewrite string_of_list_ascii_of_string, NilEmpty.usu. }
  assert (Hne : exists c r, chars (NilEmpty.string_of_uint d) = c :: r /\ is_digit c = true).
  { destruct d; try done; simpl; eexists _, _; split; reflexivity. }
  remember (chars (NilEmpty.string_of_uint d)) as ds eqn:Eds. clear Eds.
  assert (Hsp : List.Forall (fun c => is_space c = false)
                  ((if neg then [ "-"%char ] else []) ++ ds)).
  { apply List.Forall_app. split.
    - destruct neg; repeat constructor.
    - eapply List.Forall_impl; [ | exact Hds ]. apply digit_not_space. }
  assert (Hus : List.Forall (fun c => negb (code c =? 95) = true)
                  ((if neg then [ "-"%char ] else []) ++ ds)).
  { apply List.Forall_app. split.
    - destruct neg; repeat constructor.
    - eapply List.Forall_impl; [ | exact Hds ].
      intros c Hc%digit_code. apply negb_true_iff, Z.eqb_neq. lia. }
  unfold decimal.of_text.
  rewrite (strip_plain _ Hsp), (filter_all _ _ Hus), (strip_plain _ Hsp).
  assert (Hsign : split_sign ((if neg then [ "-"%char ] else []) ++ ds) = (neg, ds)).
  { destruct neg; [ reflexivity | ].
    destruct Hne as (c & r & -> & Hc%digit_code). simpl.
    destruct (code c =? 45) eqn:E1; [ apply Z.eqb_eq in E1; lia | ].
    destruct (code c =? 43) eqn:E2; [ apply Z.eqb_eq in E2; lia | ]. reflexivity. }
  rewrite Hsign. unfold parse_number. rewrite (span_digits_all _ Hds).
  rewrite List.app_nil_r.
  destruct Hne as (c & r & -> & Hc).
  cbv beta iota. rewrite Hval.
  reflexivity.
Qed.

Lemma string_of_uint_nonnil (d : Decimal.uint) :
  d <> Decimal.Nil -> NilZero.string_of_uint d = NilEmpty.string_of_uint d.
Proof. by destruct d. Qed.

Lemma of_text_str_of_Z (z : Z) :
  decimal.of_text (chars (str_of_Z z)) = Ok (decimal.of_Z z).
Proof.
  unfold str_of_Z, decimal.of_Z. destruct z as [|p|p].
  - reflexivity.
  - cbn [Z.to_int NilZero.string_of_int].
    pose proof (DecimalPos.Unsigned.to_uint_nonnil p) as Hn.
    rewrite (string_of_uint_nonnil _ Hn).
    etransitivity; [ exact (of_text_digits false _ Hn) | ].
    unfold N.of_uint. rewrite DecimalPos.Unsigned.of_to. reflexivity.
  - cbn [Z.to_int NilZero.string_of_int].
    pose proof (DecimalPos.Unsigned.to_uint_nonnil p) as Hn.
    rewrite (string_of_uint_nonnil _ Hn).
    etransitivity; [ exact (of_text_digits true _ Hn) | ].
    unfold N.of_uint. rewrite DecimalPos.Unsigned.of_to. reflexivity.
Qed.

(** [Decimal(str(n))] is [n]. *)
Lemma new_str_int (z : Z) : decimal.new (PStr (str (PInt z))) = Ok (decimal.of_Z z).
Proof.
  cbn [decimal.new str repr]. unfold text, chars at 1.
  rewrite string_of_list_ascii_of_string. apply of_text_str_of_Z.
Qed.

(** *** Counting digits *)

Lemma ndigits_aux_bounds (fuel : nat) (c k : Z) :
  0 <= c < 10 ^ k -> 1 <= k -> 1 <= ndigits_aux fuel c <= k.
Proof.
  revert c k. induction fuel as [|fuel IH]; intros c k Hc Hk; simpl; [ lia | ].
  destruct (c <? 10) eqn:E; [ lia | ]. apply Z.ltb_ge in E.
  assert (2 <= k).
  { destruct (Z.eq_dec k 1) as [->|]; [ | lia ]. change (10 ^ 1) with 10 in Hc. lia. }
  assert (0 <= c / 10 < 10 ^ (k - 1)).
  { split; [ apply Z.div_pos; lia | ].
    apply Z.div_lt_upper_bound; [ lia | ].
    replace (10 * 10 ^ (k - 1)) with (10 ^ k); [ lia | ].
    replace k with (Z.succ (k - 1)) at 1 by lia. rewrite Z.pow_succ_r by lia. reflexivity. }
  specialize (IH (c / 10) (k - 1)). lia.
Qed.

Lemma ndigits_bounds (c k : Z) : 0 <= c < 10 ^ k -> 1 <= k -> 1 <= ndigits c <= k.
Proof. apply ndigits_aux_bounds. Qed.

Lemma ndigits_aux_pos (fuel : nat) (c : Z) : 1 <= ndigits_aux fuel c.
Proof.
  revert c. induction fuel as [|fuel IH]; intros c; simpl; [ lia | ].
  destruct (c <? 10); [ lia | ]. specialize (IH (c / 10)). lia.
Qed.

Lemma ndigits_aux_spec (fuel : nat) (c : Z) :
  0 < c <= 2 ^ Z.of_nat fuel ->
  10 ^ (ndigits_aux fuel c - 1) <= c < 10 ^ ndigits_aux fuel c.
Proof.
  revert c. induction fuel as [|fuel IH]; intros c Hc.
  - change (2 ^ Z.of_nat 0) with 1 in Hc. assert (c = 1) as -> by lia. simpl. lia.
  - simpl ndigits_aux. destruct (c <? 10) eqn:E.
    + apply Z.ltb_lt in E. change (10 ^ (1 - 1)) with 1. change (10 ^ 1) with 10. lia.
    + apply Z.ltb_ge in E.
      assert (H2 : 2 ^ Z.of_nat (S fuel) = 2 * 2 ^ Z.of_nat fuel).
      { rewrite Nat2Z.inj_succ, Z.pow_succ_r by lia. reflexivity. }
      assert (Hq : 0 < c / 10 <= 2 ^ Z.of_nat fuel).
      { split; [ apply Z.div_str_pos; lia | ].
        apply Z.div_le_upper_bound; lia. }
      specialize (IH _ Hq).
      pose proof (ndigits_aux_pos fuel (c / 10)).
      replace (1 + ndigits_aux fuel (c / 10) - 1) with (Z.succ (ndigits_aux fuel (c / 10) - 1)) by lia.
      replace (1 + ndigits_aux fuel (c / 10)) with (Z.succ (ndigits_aux fuel (c / 10))) by lia.
      rewrite !Z.pow_succ_r by lia.
      pose proof (Z.div_mod c 10 ltac:(lia)). pose proof (Z.mod_pos_bound c 10 ltac:(lia)).
      lia.
Qed.

Lemma ndigits_spec (c : Z) : 0 < c -> 10 ^ (ndigits c - 1) <= c < 10 ^ ndigits c.
Proof.
  intros Hc. apply ndigits_aux_spec. split; [ done | ].
  rewrite Z2Nat.id by apply Z.log2_up_nonneg.
  destruct (Z.eq_dec c 1) as [->|]; [ by vm_compute | ].
  apply Z.log2_up_spec. lia.
Qed.

Lemma ndigits_pos (c : Z) : 1 <= ndigits c.
Proof. apply ndigits_aux_pos. Qed.

(** *** The default context on integers below [10^28] *)

Lemma fix_small (s : bool) (c : Z) :
  0 <= c < 10 ^ 28 ->
  decimal._fix getcontext (decimal.Finite s c 0) = Ok (decimal.Finite s c 0).
Proof.
  intros Hc. unfold decimal._fix.
  destruct (c =? 0) eqn:E; [ apply Z.eqb_eq in E; subst; reflexivity | ].
  pose proof (ndigits_bounds c 28 Hc ltac:(lia)) as Hn.
  change (decimal.prec getcontext) with 28.
  change (decimal.Etop getcontext) with 999972.
  change (decimal.Etiny getcontext) with (-1000026).
  destruct (999972 <? ndigits c + 0 - 28) eqn:E1; [ apply Z.ltb_lt in E1; lia | ].
  destruct (0 <? Z.max (ndigits c + 0 - 28) (-1000026)) eqn:E2; [ apply Z.ltb_lt in E2; lia | ].
  reflexivity.
Qed.

Lemma ne_zero_finite (s : bool) (c : Z) :
  decimal.ne_zero (decimal.Finite s c 0) = Ok (negb (c =? 0)).
Proof.
  unfold decimal.ne_zero, decimal._cmp, decimal.of_Z. cbn [Z.abs Z.eqb Z.ltb Z.compare].
  destruct (c =? 0); [ reflexivity | ]. by destruct s.
Qed.

Lemma abs_mod_zero (t s : Z) : s <> 0 -> (Z.abs t mod Z.abs s =? 0) = (t mod s =? 0).
Proof.
  intros Hs. apply eq_true_iff_eq. rewrite !Z.eqb_eq.
  rewrite !Z.mod_divide by lia. rewrite Z.divide_abs_l, Z.divide_abs_r. done.
Qed.

(** [a % b] on integers, in the default context. *)
Lemma mod_of_Z (t s : Z) :
  s <> 0 -> Z.abs t < 10 ^ 28 -> Z.abs s < 10 ^ 28 ->
  decimal.__mod__ getcontext (decimal.of_Z t) (decimal.of_Z s)
  = Ok (decimal.Finite (t <? 0) (Z.abs t mod Z.abs s) 0).
Proof.
  intros Hs Ht Hs'. unfold decimal.__mod__, decimal.of_Z. cbn [decimal._check_nans].
  set (a := Z.abs t). set (b := Z.abs s).
  assert (Ha : 0 <= a < 10 ^ 28) by (subst a; lia).
  assert (Hb : 0 < b < 10 ^ 28) by (subst b; lia).
  destruct (b =? 0) eqn:E; [ apply Z.eqb_eq in E; lia | ].
  rewrite Z.min_id. unfold decimal.adjusted.
  pose proof (ndigits_bounds a 28 Ha ltac:(lia)) as Hna.
  pose proof (ndigits_bounds b 28 ltac:(lia) ltac:(lia)) as Hnb.
  change (decimal.prec getcontext) with 28.
  change (decimal.rounding getcontext) with decimal.ROUND_HALF_EVEN.
  destruct ((a =? 0) || (0 + ndigits a - 1 - (0 + ndigits b - 1) <=? -2)) eqn:E1.
  - (* the dividend is shorter than the divisor by two digits, or zero *)
    assert (Hlt : a < b \/ a = 0).
    { apply orb_true_iff in E1 as [E1|E1]; [ apply Z.eqb_eq in E1; lia | ].
      apply Z.leb_le in E1. left.
      destruct (Z.lt_ge_cases a b) as [|Hge]; [ done | exfalso ].
      assert (a <> 0) by lia.
      pose proof (ndigits_spec a ltac:(lia)) as [_ Hua].
      pose proof (ndigits_spec b ltac:(lia)) as [Hlb _].
      assert (10 ^ ndigits a <= 10 ^ (ndigits b - 1)) by (apply Z.pow_le_mono_r; lia).
      lia. }
    unfold decimal._rescale.
    assert (Hfix : decimal._fix getcontext (decimal.Finite (t <? 0) a 0)
                   = Ok (decimal.Finite (t <? 0) (a mod b) 0)).
    { rewrite fix_small by done. do 2 f_equal.
      destruct Hlt as [Hlt | ->]; [ by rewrite Z.mod_small by lia | by rewrite Z.mod_0_l by lia ]. }
    destruct (a =? 0) eqn:E0.
    + apply Z.eqb_eq in E0. rewrite E0 in Hfix |- *. exact Hfix.
    + cbn [Z.leb Z.compare Z.sub Z.opp Z.add]. rewrite Z.pow_0_r, Z.mul_1_r. exact Hfix.
  - apply orb_false_iff in E1 as [E1 E2]. apply Z.leb_gt in E2.
    destruct (0 + ndigits a - 1 - (0 + ndigits b - 1) <=? 28) eqn:E3;
      [ | apply Z.leb_gt in E3; lia ].
    cbn [Z.leb Z.compare Z.sub Z.opp Z.add]. rewrite Z.pow_0_r, Z.mul_1_r.
    destruct (a / b <? 10 ^ 28) eqn:E4.
    + apply fix_small. pose proof (Z.mod_pos_bound a b ltac:(lia)). lia.
    + apply Z.ltb_ge in E4. pose proof (Z.div_le_upper_bound a b a ltac:(lia) ltac:(nia)). lia.
Qed.

(** The step test of the strict pipeline on integers: the Decimal
    remainder is zero exactly when the integer remainder is. *)
Lemma off_step_int (t s : Z) :
  s <> 0 -> Z.abs t < 10 ^ 28 -> Z.abs s < 10 ^ 28 ->
  off_step (PInt t) (NInt s) = Ok (negb (t mod s =? 0)).
Proof.
  intros Hs Ht Hs'. unfold off_step. cbn [pyval_of_num].
  rewrite !new_str_int. cbn [rbind].
  rewrite mod_of_Z by done. cbn [rbind].
  rewrite ne_zero_finite, abs_mod_zero by done. reflexivity.
Qed.

(** ** C5: the step check of the strict pipeline *)

(** In a numeric format the conversions of the write path yield a number. *)
Ltac decide_closed :=
  repeat match goal with
  | |- context [bool_decide ?P] =>
      let b := eval vm_compute in (bool_decide P) in change (bool_decide P) with b
  end.

Lemma convert_input_numeric (fmt : option CharacteristicFormats) (v w : pyval) :
  format_in fmt NUMBER_TYPES = true ->
  convert_input fmt v = Ok w ->
  exists n, as_num w = Some n.
Proof.
  intros Hf. unfold convert_input, rbind.
  destruct fmt as [[]|]; try discriminate Hf;
    cbv beta iota delta [format_in format_is]; decide_closed; cbv beta iota.
  all: step_match; cbv beta iota; try discriminate;
    intros E; simplify_eq; eexists; reflexivity.
Qed.

Lemma numeric_not_data (fmt : option CharacteristicFormats) :
  format_in fmt NUMBER_TYPES = true -> format_is fmt Fdata = false.
Proof. destruct fmt as [[]|]; by vm_compute. Qed.

Lemma numeric_not_string (fmt : option CharacteristicFormats) :
  format_in fmt NUMBER_TYPES = true -> format_is fmt Fstring = false.
Proof. destruct fmt as [[]|]; by vm_compute. Qed.



(** ** C4: the lenient pipeline snaps to the step *)

Lemma numeric_not_tlv8 (fmt : option CharacteristicFormats) :
  format_in fmt NUMBER_TYPES = true -> format_is fmt Ftlv8 = false.
Proof. destruct fmt as [[]|]; by vm_compute. Qed.

(** The lenient pipeline on a numeric characteristic with a step: the
    parsed and clamped value goes through [nearest_multiple] at six
    digits, then through the cast. *)
Lemma check_convert_value_step (char : Characteristic) (val : pyval) (step : num)
    (d clamped : decimal.Decimal) :
  format_in (format char) NUMBER_TYPES = true ->
  minStep char = Some step ->
  decimal.new val = Ok d ->
  clamp_decimal (minValue char) (maxValue char) d = Ok clamped ->
  check_convert_value val char =
  (snapped <- nearest_multiple six_digits_half_up
                (decimal.of_num (the (minValue char) (NInt 0))) (decimal.of_num step) clamped ;;
   cast_decimal (format char) snapped)%res.
Proof.
  intros Hf Hst Hd Hc. unfold check_convert_value.
  rewrite (numeric_not_bool _ Hf), Hf, Hd, Hst. cbn [try_except rbind].
  unfold clamp_decimal in Hc. unfold rbind in Hc |- *.
  destruct (match minValue char with Some lo => _ | None => _ end) as [d1|]; [ | discriminate ].
  cbv beta iota. rewrite Hc. cbv beta iota.
  change (snap_to_step char step clamped)
    with (nearest_multiple six_digits_half_up
            (decimal.of_num (the (minValue char) (NInt 0))) (decimal.of_num step) clamped).
  destruct (nearest_multiple _ _ _ _) as [snapped|e]; [ | reflexivity ].
  cbv beta iota. unfold cast_decimal.
  change (decimal.rounding getcontext) with decimal.ROUND_HALF_EVEN.
  rewrite (numeric_not_data _ Hf), (numeric_not_tlv8 _ Hf).
  destruct (format_in (format char) INTEGER_TYPES); unfold rbind;
    repeat (step_match; try reflexivity).
Qed.

(** *** Rounding half up *)

Lemma half_up_spec (n d z : Z) : 0 < d -> z <= half_up n d <-> (2 * z - 1) * d <= 2 * n.
Proof.
  intros Hd. unfold half_up. split; intros H.
  - pose proof (Z.mul_div_le (2 * n + d) (2 * d) ltac:(lia)). nia.
  - apply Z.div_le_lower_bound; lia.
Qed.

Lemma half_up_unique (n d r : Z) :
  0 < d -> (2 * r - 1) * d <= 2 * n < (2 * r + 1) * d -> half_up n d = r.
Proof.
  intros Hd [H1 H2].
  pose proof (proj2 (half_up_spec n d r Hd) H1).
  destruct (Z_lt_le_dec r (half_up n d)) as [L|L]; [ | lia ].
  pose proof (proj1 (half_up_spec n d (r + 1) Hd) ltac:(lia)). lia.
Qed.

Lemma half_up_bounds (n d : Z) :
  0 < d -> (2 * half_up n d - 1) * d <= 2 * n < (2 * half_up n d + 1) * d.
Proof.
  intros Hd. split.
  - apply half_up_spec; lia.
  - destruct (Z_lt_le_dec (2 * n) ((2 * half_up n d + 1) * d)) as [L|L]; [ done | ].
    pose proof (proj2 (half_up_spec n d (half_up n d + 1) Hd) ltac:(lia)). lia.
Qed.

Lemma pow10_pos (k : Z) : 0 <= k -> 0 < 10 ^ k.
Proof. intros. apply Z.pow_pos_nonneg; lia. Qed.

Lemma pow10_half (k : Z) : 1 <= k -> 10 ^ k = 2 * (5 * 10 ^ (k - 1)).
Proof.
  intros Hk. replace k with (1 + (k - 1)) at 1 by lia.
  rewrite Z.pow_add_r by lia. change (10 ^ 1) with 10. lia.
Qed.

Lemma stands_for_below (a s K x : Z) :
  0 <= a < 10 ^ 5 -> 0 < s -> 0 <= K -> stands_for a s K x -> x < 10 ^ (5 + K).
Proof.
  intros Ha Hs HK [_ B]. apply B.
  - exists (2 * 10 ^ (4 + K)). replace (5 + K) with (1 + (4 + K)) by lia.
    rewrite Z.pow_add_r by lia. change (10 ^ 1) with 10. lia.
  - rewrite Z.pow_add_r by lia. pose proof (pow10_pos K HK). nia.
Qed.

Lemma dropped_digits (a s K x : Z) :
  0 <= a < 10 ^ 5 -> 0 < s -> 1 <= K -> 0 < x -> stands_for a s K x ->
  let k := Z.max 0 (ndigits x - 6) in
  0 <= k < K /\ (1 <= k -> s < 10 ^ (K - k)).
Proof.
  intros Ha Hs HK Hx St k.
  pose proof (stands_for_below a s K x Ha Hs ltac:(lia) St) as Hlt.
  destruct (Z_le_gt_dec (ndigits x) 6) as [L|L].
  { subst k. rewrite Z.max_l by lia. split; lia. }
  assert (Ek : k = ndigits x - 6) by (subst k; lia).
  pose proof (ndigits_spec x Hx) as [Hlo _].
  replace (ndigits x - 1) with (k + 5) in Hlo by lia.
  assert (Hk : k < K).
  { assert (10 ^ (k + 5) < 10 ^ (5 + K)) as H by lia.
    apply Z.pow_lt_mono_r_iff in H; lia. }
  split; [ lia | ]. intros _.
  destruct (Z_lt_le_dec s (10 ^ (K - k))) as [G|G]; [ done | exfalso ].
  destruct St as [_ B].
  assert (x < 10 ^ (k + 5)); [ | lia ].
  apply B.
  - exists (2 * 10 ^ (k + 4)). replace (k + 5) with (1 + (k + 4)) by lia.
    rewrite Z.pow_add_r by lia. change (10 ^ 1) with 10. lia.
  - replace K with (k + (K - k)) by lia. rewrite !Z.pow_add_r by lia.
    pose proof (pow10_pos k ltac:(lia)). pose proof (pow10_pos (K - k) ltac:(lia)).
    change (10 ^ 5) with 100000 in *.
    assert (a * (10 ^ k * 10 ^ (K - k)) < 100000 * (10 ^ k * 10 ^ (K - k))) by nia.
    assert (10 ^ k * 10 ^ (K - k) <= 10 ^ k * s) by nia.
    nia.
Qed.

Lemma double_rounding (a s K x : Z) :
  0 <= a < 10 ^ 5 -> 0 < s -> 1 <= K -> 0 < x -> stands_for a s K x ->
  let k := Z.max 0 (ndigits x - 6) in
  half_up (half_up x (10 ^ k)) (10 ^ (K - k)) = half_up a s.
Proof.
  intros Ha Hs HK Hx St k.
  destruct (dropped_digits a s K x Ha Hs HK Hx St) as [Hk HM]. fold k in Hk, HM.
  pose proof (half_up_bounds a s Hs) as [R1 R2].
  set (R := half_up a s) in *.
  pose proof (pow10_pos k ltac:(lia)) as HP.
  pose proof (pow10_pos (K - k) ltac:(lia)) as HM0.
  pose proof (pow10_half (K - k) ltac:(lia)) as EM.
  assert (ET : 10 ^ K = 10 ^ k * 10 ^ (K - k)).
  { rewrite <- Z.pow_add_r by lia. f_equal. lia. }
  destruct St as [A B]. rewrite ET in A, B.
  set (P := 10 ^ k) in *. set (M' := 5 * 10 ^ (K - k - 1)) in *.
  assert (HM' : 0 < M') by lia.
  set (M := 10 ^ (K - k)) in *. clearbody M.
  assert (EP0 : P = 10 ^ k) by reflexivity.
  assert (EM' : M' = 5 * 10 ^ (K - k - 1)) by reflexivity.
  clearbody M' P. subst M.
  apply half_up_unique; [ lia | ].
  split.
  - (* the lower bound *)
    assert (L : (2 * R - 1) * M' <= half_up x P).
    { apply half_up_spec; [ done | ].
      assert ((2 * R - 1) * M' * P <= x); [ | nia ].
      apply A. nia. }
    nia.
  - (* the upper bound *)
    assert (U : half_up x P < (2 * R + 1) * M'); [ | nia ].
    destruct (Z_lt_le_dec (half_up x P) ((2 * R + 1) * M')) as [G|G]; [ done | exfalso ].
    apply half_up_spec in G; [ | done ].
    destruct (Z.eq_dec k 0) as [E0|E0].
    + assert (P = 1) as EP by (rewrite EP0, E0; reflexivity).
      clear EP0. subst P.
      assert (x < (2 * R + 1) * M'); [ | lia ].
      apply B.
      * exists ((2 * R + 1) * 10 ^ (K - k - 1)). lia.
      * nia.
    + pose proof (pow10_half k ltac:(lia)) as EP. rewrite <- EP0 in EP.
      remember (5 * 10 ^ (k - 1)) as P' eqn:EP'.
      specialize (HM ltac:(lia)).
      assert (HP' : 0 < P') by lia.
      assert (x < ((2 * R + 1) * (2 * M') - 1) * P'); [ | nia ].
      apply B.
      * exists (((2 * R + 1) * (2 * M') - 1) * 10 ^ (k - 1)). lia.
      * rewrite EP.
        assert (2 * a * (2 * M' * P') <= ((2 * R + 1) * s - 1) * (2 * M' * P')) by nia.
        assert (s * P' < 2 * M' * P') by nia.
        nia.
Qed.

Lemma half_up_1 (n : Z) : half_up n 1 = n.
Proof. apply half_up_unique; lia. Qed.

Lemma half_up_mul (n d : Z) : 0 < d -> half_up (n * d) d = n.
Proof. intros Hd. apply half_up_unique; nia. Qed.

Lemma half_up_scale (n d t : Z) : 0 < d -> 0 < t -> half_up (n * t) (d * t) = half_up n d.
Proof.
  intros Hd Ht. apply half_up_unique; [ nia | ].
  pose proof (half_up_bounds n d Hd). nia.
Qed.

Lemma half_up_nonneg (n d : Z) : 0 < d -> 0 <= n -> 0 <= half_up n d.
Proof. intros Hd Hn. apply half_up_spec; lia. Qed.

Lemma half_up_pos (n d : Z) : 0 < d -> d <= 2 * n -> 0 < half_up n d.
Proof. intros Hd Hn. assert (1 <= half_up n d); [ apply half_up_spec; lia | lia ]. Qed.

(** Dropping [k] digits under ROUND_HALF_UP. *)
Lemma round_up_half_up (c k : Z) :
  0 <= k ->
  (if decimal.round_up decimal.ROUND_HALF_UP (c / 10 ^ k) (c mod 10 ^ k) k
   then c / 10 ^ k + 1 else c / 10 ^ k) = half_up c (10 ^ k).
Proof.
  intros Hk. assert (HP : 0 < 10 ^ k) by (apply Z.pow_pos_nonneg; lia).
  pose proof (Z.div_mod c (10 ^ k) ltac:(lia)) as E.
  pose proof (Z.mod_pos_bound c (10 ^ k) HP) as B.
  unfold decimal.round_up. symmetry.
  destruct (10 ^ k <=? 2 * (c mod 10 ^ k)) eqn:L;
    [ apply Z.leb_le in L | apply Z.leb_gt in L ]; apply half_up_unique; nia.
Qed.

Lemma of_Z_nonneg (z : Z) : 0 <= z -> decimal.of_Z z = decimal.Finite false z 0.
Proof.
  intros Hz. unfold decimal.of_Z. rewrite Z.abs_eq by done.
  destruct (z <? 0) eqn:E; [ apply Z.ltb_lt in E; lia | reflexivity ].
Qed.

(** [to_integral_value] under ROUND_HALF_UP on a positive number with
    exponent at most 0. *)
Lemma integral_half_up (s : bool) (y e : Z) :
  0 < y -> e <= 0 ->
  decimal.to_integral_value decimal.ROUND_HALF_UP (decimal.Finite s y e)
  = Ok (decimal.Finite s (half_up y (10 ^ (- e))) 0).
Proof.
  intros Hy He. unfold decimal.to_integral_value.
  destruct (0 <=? e) eqn:E.
  - apply Z.leb_le in E. assert (e = 0) as -> by lia.
    change (10 ^ (- 0)) with 1. by rewrite half_up_1.
  - unfold decimal._rescale.
    destruct (y =? 0) eqn:Ey; [ apply Z.eqb_eq in Ey; lia | ].
    rewrite E. apply Z.leb_gt in E. rewrite Z.sub_0_l. by rewrite round_up_half_up by lia.
Qed.

(** [_fix] at six digits on a positive number below [10^5]: the digits
    beyond the sixth are rounded off. *)
Lemma fix6_round (s : bool) (x e : Z) :
  0 < x -> -1000 <= e <= 0 -> x < 10 ^ (5 - e) ->
  exists y e',
    decimal._fix six_digits_half_up (decimal.Finite s x e) = Ok (decimal.Finite s y e')
    /\ 0 < y /\ e' <= 0
    /\ half_up y (10 ^ (- e'))
       = half_up (half_up x (10 ^ Z.max 0 (ndigits x - 6)))
           (10 ^ (- e - Z.max 0 (ndigits x - 6))).
Proof.
  intros Hx He Hlt.
  pose proof (ndigits_spec x Hx) as [Hlo Hhi].
  pose proof (ndigits_pos x) as Hn.
  assert (Hd : ndigits x - 1 < 5 - e).
  { assert (10 ^ (ndigits x - 1) < 10 ^ (5 - e)) as H by lia.
    apply Z.pow_lt_mono_r_iff in H; lia. }
  unfold decimal._fix.
  destruct (x =? 0) eqn:Ex; [ apply Z.eqb_eq in Ex; lia | ].
  change (decimal.prec six_digits_half_up) with 6.
  change (decimal.Etop six_digits_half_up) with 999994.
  change (decimal.Etiny six_digits_half_up) with (-1000004).
  change (decimal.rounding six_digits_half_up) with decimal.ROUND_HALF_UP.
  destruct (999994 <? ndigits x + e - 6) eqn:E1; [ apply Z.ltb_lt in E1; lia | ].
  rewrite (Z.max_l (ndigits x + e - 6)) by lia.
  destruct (e <? ndigits x + e - 6) eqn:E2;
    [ apply Z.ltb_lt in E2 | apply Z.ltb_ge in E2 ].
  - (* more than six digits *)
    rewrite (Z.max_r 0 (ndigits x - 6)) by lia.
    replace (ndigits x + e - 6 - e) with (ndigits x - 6) by lia.
    set (k := ndigits x - 6) in *.
    pose proof (round_up_half_up x k ltac:(lia)) as Hr.
    pose proof (pow10_pos k ltac:(lia)) as HP.
    assert (Hq : 10 ^ 5 <= x / 10 ^ k < 10 ^ 6).
    { split.
      - apply Z.div_le_lower_bound; [ done | ].
        rewrite <- Z.pow_add_r by lia. replace (k + 5) with (ndigits x - 1) by lia. lia.
      - apply Z.div_lt_upper_bound; [ done | ].
        rewrite <- Z.pow_add_r by lia. replace (k + 6) with (ndigits x) by lia. lia. }
    destruct (decimal.round_up decimal.ROUND_HALF_UP (x / 10 ^ k) (x mod 10 ^ k) k).
    + destruct (6 <? ndigits (x / 10 ^ k + 1)) eqn:E3;
        [ apply Z.ltb_lt in E3 | apply Z.ltb_ge in E3 ].
      * (* the carry gives a seventh digit *)
        assert (Hc : x / 10 ^ k + 1 = 10 ^ 6).
        { destruct (Z.eq_dec (x / 10 ^ k + 1) (10 ^ 6)) as [|Hne]; [ done | ].
          pose proof (ndigits_bounds (x / 10 ^ k + 1) 6 ltac:(lia) ltac:(lia)). lia. }
        rewrite Hc in *.
        destruct (999994 <? ndigits x + e - 6 + 1) eqn:E4; [ apply Z.ltb_lt in E4; lia | ].
        exists (10 ^ 6 / 10), (ndigits x + e - 6 + 1).
        split; [ reflexivity | ]. split; [ by vm_compute | ]. split; [ lia | ].
        rewrite <- Hr.
        replace (- e - k) with (1 + - (ndigits x + e - 6 + 1)) by lia.
        rewrite Z.pow_add_r by lia.
        change (10 ^ 6 / 10) with (10 ^ 5). change (10 ^ 6) with (10 ^ 5 * 10).
        change (10 ^ 1) with 10. rewrite (Z.mul_comm 10).
        rewrite half_up_scale; [ done | apply pow10_pos; lia | lia ].
      * destruct (999994 <? ndigits x + e - 6) eqn:E4; [ apply Z.ltb_lt in E4; lia | ].
        exists (x / 10 ^ k + 1), (ndigits x + e - 6).
        split; [ reflexivity | ]. split; [ lia | ]. split; [ lia | ].
        rewrite <- Hr. f_equal. f_equal. lia.
    + destruct (999994 <? ndigits x + e - 6) eqn:E4; [ apply Z.ltb_lt in E4; lia | ].
      exists (x / 10 ^ k), (ndigits x + e - 6).
      split; [ reflexivity | ]. split; [ lia | ]. split; [ lia | ].
      rewrite <- Hr. f_equal. f_equal. lia.
  - (* at most six digits: nothing to round *)
    rewrite (Z.max_l 0 (ndigits x - 6)) by lia.
    exists x, e. split; [ reflexivity | ]. split; [ done | ]. split; [ lia | ].
    change (10 ^ 0) with 1. rewrite half_up_1. f_equal. f_equal. lia.
Qed.

(** The loop that drops trailing zeros keeps the value. *)
Lemma to_ideal_spec (fuel : nat) (c e i : Z) :
  0 < c -> e <= i ->
  0 < fst (decimal.to_ideal fuel c e i)
  /\ e <= snd (decimal.to_ideal fuel c e i) <= i
  /\ c = fst (decimal.to_ideal fuel c e i) * 10 ^ (snd (decimal.to_ideal fuel c e i) - e).
Proof.
  revert c e. induction fuel as [|fuel IH]; intros c e Hc He; cbn [decimal.to_ideal].
  - cbn [fst snd]. rewrite Z.sub_diag. change (10 ^ 0) with 1. lia.
  - destruct ((e <? i) && (c mod 10 =? 0)) eqn:E.
    + apply andb_true_iff in E as [E1 E2]. apply Z.ltb_lt in E1. apply Z.eqb_eq in E2.
      pose proof (Z.div_mod c 10 ltac:(lia)) as Hdm. rewrite E2 in Hdm.
      destruct (IH (c / 10) (e + 1) ltac:(lia) ltac:(lia)) as (H1 & H2 & H3).
      split; [ done | ]. split; [ lia | ].
      set (r := decimal.to_ideal fuel (c / 10) (e + 1) i) in *.
      replace (snd r - e) with (1 + (snd r - (e + 1))) by lia.
      rewrite Z.pow_add_r by lia. change (10 ^ 1) with 10. lia.
    + cbn [fst snd]. rewrite Z.sub_diag. change (10 ^ 0) with 1. lia.
Qed.

(** *** Six digits on naturals below [10^5] *)

Lemma fix6_small (s : bool) (c : Z) :
  0 <= c < 10 ^ 6 ->
  decimal._fix six_digits_half_up (decimal.Finite s c 0) = Ok (decimal.Finite s c 0).
Proof.
  intros Hc. unfold decimal._fix.
  destruct (c =? 0) eqn:E; [ apply Z.eqb_eq in E; subst; reflexivity | ].
  pose proof (ndigits_bounds c 6 Hc ltac:(lia)) as Hn.
  change (decimal.prec six_digits_half_up) with 6.
  change (decimal.Etop six_digits_half_up) with 999994.
  change (decimal.Etiny six_digits_half_up) with (-1000004).
  destruct (999994 <? ndigits c + 0 - 6) eqn:E1; [ apply Z.ltb_lt in E1; lia | ].
  destruct (0 <? Z.max (ndigits c + 0 - 6) (-1000004)) eqn:E2; [ apply Z.ltb_lt in E2; lia | ].
  reflexivity.
Qed.

(** The digits that [__truediv__] hands to [_fix]. *)
Lemma truediv_digits (a s : Z) :
  0 < a < 10 ^ 5 -> 0 < s < 10 ^ 5 ->
  exists x K,
    decimal.__truediv__ six_digits_half_up (decimal.Finite false a 0) (decimal.Finite false s 0)
    = decimal._fix six_digits_half_up (decimal.Finite false x (- K))
    /\ 0 < x /\ 0 <= K <= 11
    /\ ((K = 0 /\ x * s = a) \/ (1 <= K /\ stands_for a s K x)).
Proof.
  intros Ha Hs. unfold decimal.__truediv__. cbn [decimal._check_nans xorb].
  destruct (s =? 0) eqn:Es; [ apply Z.eqb_eq in Es; lia | ].
  destruct (a =? 0) eqn:Ea; [ apply Z.eqb_eq in Ea; lia | ].
  change (decimal.prec six_digits_half_up) with 6.
  pose proof (ndigits_bounds a 5 ltac:(lia) ltac:(lia)) as Hna.
  pose proof (ndigits_bounds s 5 ltac:(lia) ltac:(lia)) as Hns.
  set (shift := ndigits s - ndigits a + 6 + 1).
  assert (Hsh : 3 <= shift <= 11) by (subst shift; lia). clearbody shift.
  destruct (0 <=? shift) eqn:E0; [ | apply Z.leb_gt in E0; lia ]. clear E0.
  change (0 - 0) with 0. rewrite Z.sub_0_l.
  pose proof (pow10_pos shift ltac:(lia)) as HT.
  pose proof (Z_div_mod (a * 10 ^ shift) s ltac:(lia)) as Hdm.
  destruct (Z.div_eucl (a * 10 ^ shift) s) as [c r]. destruct Hdm as [Hdm Hr].
  assert (Hc : 0 <= c) by nia.
  destruct (r =? 0) eqn:Er; cbn [negb];
    [ apply Z.eqb_eq in Er | apply Z.eqb_neq in Er ].
  - (* the division is exact *)
    subst r. assert (0 < c) as Hc' by nia.
    pose proof (to_ideal_spec (Z.to_nat (ndigits c)) c (- shift) 0 Hc' ltac:(lia))
      as (H1 & H2 & H3).
    destruct (decimal.to_ideal (Z.to_nat (ndigits c)) c (- shift) 0) as [x e].
    cbn [fst snd] in H1, H2, H3.
    exists x, (- e). rewrite Z.opp_involutive.
    split; [ reflexivity | ]. split; [ done | ]. split; [ lia | ].
    assert (Ex : x * s = a * 10 ^ (- e)).
    { pose proof (pow10_pos (e - - shift) ltac:(lia)) as HD.
      assert (ET : 10 ^ shift = 10 ^ (- e) * 10 ^ (e - - shift)).
      { rewrite <- Z.pow_add_r by lia. f_equal. lia. }
      apply (Z.mul_reg_r _ _ (10 ^ (e - - shift))); [ lia | ].
      rewrite ET, H3 in Hdm. lia. }
    destruct (Z.eq_dec e 0) as [->|Hne].
    + left. split; [ done | ]. change (10 ^ (- 0)) with 1 in Ex. lia.
    + right. split; [ lia | ]. split; intros u; [ | intros _ ]; rewrite <- Ex; nia.
  - (* a remainder: the last digit is made a marker *)
    exists (if c mod 5 =? 0 then c + 1 else c), shift.
    split; [ reflexivity | ].
    split.
    { destruct (c mod 5 =? 0) eqn:E5; [ lia | ]. apply Z.eqb_neq in E5.
      destruct (Z.eq_dec c 0) as [->|]; [ exfalso; apply E5; reflexivity | lia ]. }
    split; [ lia | ]. right. split; [ lia | ].
    split; intros u.
    + intros Hu. assert (u <= c) by nia. destruct (c mod 5 =? 0); lia.
    + intros [u' ->] Hu. assert (c < u' * 5) by nia.
      destruct (c mod 5 =? 0) eqn:E5; [ | done ].
      apply Z.eqb_eq in E5. pose proof (Z.div_mod c 5 ltac:(lia)). lia.
Qed.

(** The quotient at six digits, then rounded to an integer, is the
    exact quotient rounded half up. *)
Lemma quotient_half_up (a s : Z) :
  0 <= a < 10 ^ 5 -> 0 < s < 10 ^ 5 ->
  (q <- decimal.__truediv__ six_digits_half_up (decimal.of_Z a) (decimal.of_Z s) ;;
   decimal.to_integral_value decimal.ROUND_HALF_UP q)%res
  = Ok (decimal.of_Z (half_up a s)).
Proof.
  intros Ha Hs.
  rewrite (of_Z_nonneg (half_up a s)) by (apply half_up_nonneg; lia).
  rewrite !of_Z_nonneg by lia.
  destruct (Z.eq_dec a 0) as [->|Hne].
  { assert (half_up 0 s = 0) as -> by (apply half_up_unique; lia).
    unfold decimal.__truediv__. cbn [decimal._check_nans xorb].
    destruct (s =? 0) eqn:Es; [ apply Z.eqb_eq in Es; lia | ]. reflexivity. }
  destruct (truediv_digits a s ltac:(lia) Hs) as (x & K & -> & Hx & HK & Hrel).
  assert (Hlt : x < 10 ^ (5 - - K)).
  { rewrite Z.sub_opp_r. destruct Hrel as [[-> E]|[HK1 St]].
    - change (10 ^ (5 + 0)) with (10 ^ 5). nia.
    - apply (stands_for_below a s); [ lia | lia | lia | done ]. }
  destruct (fix6_round false x (- K) Hx ltac:(lia) Hlt) as (y & e' & -> & Hy & He' & Ey).
  cbn [rbind]. rewrite integral_half_up by done. rewrite Ey.
  f_equal. f_equal. rewrite Z.opp_involutive.
  destruct Hrel as [[-> E]|[HK1 St]].
  - assert (ndigits x <= 5) by (apply ndigits_bounds; [ nia | lia ]).
    rewrite Z.max_l by lia. change (10 ^ (0 - 0)) with 1. change (10 ^ 0) with 1.
    rewrite !half_up_1. rewrite <- E. symmetry. apply half_up_mul. lia.
  - apply double_rounding; [ lia | lia | done | done | done ].
Qed.

Lemma sub_small (v off : Z) :
  0 <= off <= v -> v < 10 ^ 6 ->
  decimal.__sub__ six_digits_half_up (decimal.of_Z v) (decimal.of_Z off)
  = Ok (decimal.of_Z (v - off)).
Proof.
  intros Ho Hv. rewrite !of_Z_nonneg by lia.
  unfold decimal.__sub__, decimal.copy_negate, decimal.__add__.
  cbn [decimal._check_nans negb andb].
  change (Z.min 0 0) with 0. change (decimal.prec six_digits_half_up) with 6.
  change (Z.max 0 (0 - 6 - 1)) with 0.
  destruct (v =? 0) eqn:Ev, (off =? 0) eqn:Eo; cbn [andb];
    [ apply Z.eqb_eq in Ev | apply Z.eqb_eq in Ev | apply Z.eqb_neq in Ev | apply Z.eqb_neq in Ev ];
    [ apply Z.eqb_eq in Eo | apply Z.eqb_neq in Eo | apply Z.eqb_eq in Eo | apply Z.eqb_neq in Eo ].
  - subst. reflexivity.
  - lia.
  - subst off. unfold decimal._rescale.
    destruct (v =? 0) eqn:Ev'; [ apply Z.eqb_eq in Ev'; lia | ].
    change (0 <=? 0) with true. cbv beta iota. change (10 ^ (0 - 0)) with 1.
    rewrite Z.mul_1_r, Z.sub_0_r. apply fix6_small. lia.
  - unfold decimal._normalize. change (0 <? 0) with false. cbv beta iota zeta.
    pose proof (ndigits_pos off).
    destruct (ndigits off + 0 - 1 <? 0 + Z.min (-1) (ndigits v - 6 - 2)) eqn:E;
      [ apply Z.ltb_lt in E; lia | ].
    cbv beta iota. change (10 ^ (0 - 0)) with 1. rewrite Z.mul_1_r.
    cbn [Bool.eqb].
    destruct (v =? off) eqn:E1; [ apply Z.eqb_eq in E1; subst; rewrite Z.sub_diag; reflexivity | ].
    destruct (v <? off) eqn:E2; [ apply Z.ltb_lt in E2; lia | ].
    apply fix6_small. lia.
Qed.

Lemma add_small (a b : Z) :
  0 <= a -> 0 <= b -> a + b < 10 ^ 6 ->
  decimal.__add__ six_digits_half_up (decimal.of_Z a) (decimal.of_Z b)
  = Ok (decimal.of_Z (a + b)).
Proof.
  intros Ha Hb Hab. rewrite !of_Z_nonneg by lia.
  unfold decimal.__add__.
  cbn [decimal._check_nans negb andb].
  change (Z.min 0 0) with 0. change (decimal.prec six_digits_half_up) with 6.
  change (Z.max 0 (0 - 6 - 1)) with 0.
  destruct (a =? 0) eqn:Ea, (b =? 0) eqn:Eb; cbn [andb];
    [ apply Z.eqb_eq in Ea | apply Z.eqb_eq in Ea | apply Z.eqb_neq in Ea | apply Z.eqb_neq in Ea ];
    [ apply Z.eqb_eq in Eb | apply Z.eqb_neq in Eb | apply Z.eqb_eq in Eb | apply Z.eqb_neq in Eb ].
  - subst. reflexivity.
  - subst a. unfold decimal._rescale.
    destruct (b =? 0) eqn:Eb'; [ apply Z.eqb_eq in Eb'; lia | ].
    change (0 <=? 0) with true. cbv beta iota. change (10 ^ (0 - 0)) with 1.
    rewrite Z.mul_1_r, Z.add_0_l. apply fix6_small. lia.
  - subst b. unfold decimal._rescale.
    destruct (a =? 0) eqn:Ea'; [ apply Z.eqb_eq in Ea'; lia | ].
    change (0 <=? 0) with true. cbv beta iota. change (10 ^ (0 - 0)) with 1.
    rewrite Z.mul_1_r, Z.add_0_r. apply fix6_small. lia.
  - unfold decimal._normalize. change (0 <? 0) with false. cbv beta iota zeta.
    pose proof (ndigits_pos b).
    destruct (ndigits b + 0 - 1 <? 0 + Z.min (-1) (ndigits a - 6 - 2)) eqn:E;
      [ apply Z.ltb_lt in E; lia | ].
    cbv beta iota. change (10 ^ (0 - 0)) with 1. rewrite Z.mul_1_r.
    cbn [Bool.eqb]. apply fix6_small. lia.
Qed.

Lemma mul_small (a b : Z) :
  0 <= a -> 0 <= b -> a * b < 10 ^ 6 ->
  decimal.__mul__ six_digits_half_up (decimal.of_Z a) (decimal.of_Z b)
  = Ok (decimal.of_Z (a * b)).
Proof.
  intros Ha Hb Hab. rewrite !of_Z_nonneg by nia.
  unfold decimal.__mul__. cbn [decimal._check_nans xorb].
  change (0 + 0) with 0. apply fix6_small. nia.
Qed.

(** On naturals below [10^5], six digits are enough: the arithmetic of
    the lenient pipeline finds the nearest multiple, ties upwards. *)
Lemma nearest_multiple_exact (off s v : Z) :
  0 <= off < 10 ^ 5 -> 0 < s < 10 ^ 5 -> off <= v < off + 10 ^ 5 ->
  nearest_multiple six_digits_half_up (decimal.of_Z off) (decimal.of_Z s) (decimal.of_Z v)
  = Ok (decimal.of_Z (snap off s v)).
Proof.
  intros Ho Hs Hv. unfold nearest_multiple, snap.
  change (10 ^ 5) with 100000 in *.
  rewrite sub_small by (change (10 ^ 6) with 1000000; lia). cbn [rbind].
  pose proof (quotient_half_up (v - off) s ltac:(change (10 ^ 5) with 100000; lia)
                ltac:(change (10 ^ 5) with 100000; lia)) as Hq.
  unfold rbind in Hq |- *.
  destruct (decimal.__truediv__ _ _ _) as [q|]; [ | discriminate ].
  rewrite Hq.
  pose proof (half_up_bounds (v - off) s ltac:(lia)) as [B1 B2].
  pose proof (half_up_nonneg (v - off) s ltac:(lia) ltac:(lia)) as B0.
  rewrite mul_small by (change (10 ^ 6) with 1000000; nia).
  apply add_small; [ lia | nia | change (10 ^ 6) with 1000000; nia ].
Qed.

(** C4.  On a numeric characteristic with a step, the lenient pipeline
    takes the parsed and clamped value and computes
    [offset + round_half_up((value - offset) / step) * step] with
    [offset] the minimum when it is set and 0 otherwise, in decimal
    arithmetic at six significant digits that rounds ties away from
    zero, and casts the result.  When offset, step and value are
    integers with [0 <= offset < 10^5], [0 < step < 10^5] and
    [offset <= value < offset + 10^5], six digits lose nothing: the
    result is the multiple of the step nearest to the value, counted
    from the offset, ties upwards. *)
Theorem lenient_snaps (char : Characteristic) (val : pyval) (step : num)
    (d clamped : decimal.Decimal) :
  format_in (format char) NUMBER_TYPES = true ->
  minStep char = Some step ->
  decimal.new val = Ok d ->
  clamp_decimal (minValue char) (maxValue char) d = Ok clamped ->
  check_convert_value val char =
  (snapped <- nearest_multiple six_digits_half_up
                (decimal.of_num (the (minValue char) (NInt 0))) (decimal.of_num step) clamped ;;
   cast_decimal (format char) snapped)%res
  /\ forall off s v : Z,
       the (minValue char) (NInt 0) = NInt off -> step = NInt s -> clamped = decimal.of_Z v ->
       0 <= off < 10 ^ 5 -> 0 < s < 10 ^ 5 -> off <= v < off + 10 ^ 5 ->
       check_convert_value val char = Ok (cast (format char) (snap off s v)).
Proof.
  intros Hf Hst Hd Hc.
  pose proof (check_convert_value_step char val step d clamped Hf Hst Hd Hc) as E.
  split; [ exact E | ].
  intros off s v Eo -> -> Ho Hs Hv. rewrite E, Eo.
  cbn [decimal.of_num]. rewrite nearest_multiple_exact by done.
  cbn [rbind]. apply cast_of_Z.
Qed.

(** 55 on [level] (0 to 100 in steps of 10): 5.5 steps round up to 6,
    and the value becomes 60. *)
Lemma lenient_snaps_witness :
  format_in (format level) NUMBER_TYPES = true
  /\ minStep level = Some (NInt 10)
  /\ decimal.new (PInt 55) = Ok (decimal.of_Z 55)
  /\ clamp_decimal (minValue level) (maxValue level) (decimal.of_Z 55) = Ok (decimal.of_Z 55)
  /\ nearest_multiple six_digits_half_up (decimal.of_Z 0) (decimal.of_Z 10) (decimal.of_Z 55)
     = Ok (decimal.of_Z 60)
  /\ check_convert_value (PInt 55) level = Ok (PInt 60).
Proof.
  repeat (split; [ reflexivity | ]).
  refine (proj2 (lenient_snaps level (PInt 55) (NInt 10) (decimal.of_Z 55) (decimal.of_Z 55)
                   eq_refl eq_refl eq_refl eq_refl) 0 10 55 eq_refl eq_refl eq_refl _ _ _); lia.
Defined.

(** Beyond six digits the arithmetic rounds: 1234567 in steps of 1
    becomes 1234570. *)
Lemma six_digits_only :
  nearest_multiple six_digits_half_up (decimal.of_Z 0) (decimal.of_Z 1) (decimal.of_Z 1234567)
  = Ok (decimal.Finite false 123457 1)
  /\ check_convert_value (PInt 1234567) ticks = Ok (PInt 1234570).
Proof. split; by vm_compute. Qed.

(** * Further properties *)

(** ** The write path *)
Lemma format_is_eq (fmt : option CharacteristicFormats) (f : CharacteristicFormats) :
  format_is fmt f = true -> fmt = Some f.
Proof. unfold format_is. intros H. by apply bool_decide_eq_true in H. Qed.

Lemma try_except_ok {A : Type} (r : res A) (h : exn -> bool) (e : exn) (a : A) :
  try_except r h e = Ok a -> r = Ok a.
Proof. destruct r as [a'|e']; cbn; [ done | by destruct (h e') ]. Qed.

(** [strtobool] answers 1 or 0, or raises [ValueError]. *)
Lemma strtobool_cases (s : string) :
  strtobool s = Ok 1 \/ strtobool s = Ok 0 \/ strtobool s = Raise ValueError.
Proof.
  unfold strtobool.
  destruct (existsb _ _); [ by left | ].
  destruct (existsb _ _); [ right; by left | right; by right ].
Qed.

(** X1.  Without write permission a write fails before anything else is
    looked at; over the compact transport only the decoding comes
    first. *)
Theorem write_needs_permission (self : Characteristic) :
  has_perm paired_write (perms self) = false ->
  (forall new_val,
     set_value new_val self
     = (Raise (CharacteristicPermissionError CANT_WRITE_READ_ONLY), self))
  /\ (forall value,
        set_value_from_ble value self =
        match ble_decode (format self) value with
        | Ok _ => (Raise (CharacteristicPermissionError CANT_WRITE_READ_ONLY), self)
        | Raise e => (Raise e, self)
        end).
Proof.
  intros Hp.
  assert (H : forall new_val,
             set_value new_val self
             = (Raise (CharacteristicPermissionError CANT_WRITE_READ_ONLY), self)).
  { intros new_val. rewrite set_value_validate_write.
    unfold validate_write, authorize_write. by rewrite Hp. }
  split; [ exact H | ].
  intros value. rewrite set_value_from_ble_decoded.
  destruct (ble_decode (format self) value); [ apply H | reflexivity ].
Qed.

Lemma write_needs_permission_witness :
  has_perm paired_write (perms read_only_seven) = false
  /\ set_value (PInt 7) read_only_seven
     = (Raise (CharacteristicPermissionError CANT_WRITE_READ_ONLY), read_only_seven)
  /\ set_value_from_ble (PBytes [ x07 ]) read_only_seven
     = (Raise (CharacteristicPermissionError CANT_WRITE_READ_ONLY), read_only_seven)
  /\ set_value_from_ble (PBytes []) read_only_seven = (Raise struct_error, read_only_seven).
Proof.
  split; [ reflexivity | ].
  pose proof (write_needs_permission read_only_seven eq_refl) as [H1 H2].
  split; [ apply H1 | ]. split; [ exact (H2 (PBytes [ x07 ])) | exact (H2 (PBytes [])) ].
Defined.

(** What the conversions of the write path yield is left as it is by
    them. *)
Lemma convert_input_converted (fmt : option CharacteristicFormats) (v w : pyval) :
  convert_input fmt v = Ok w -> convert_input fmt w = Ok w.
Proof.
  unfold convert_input, rbind.
  destruct fmt as [[]|];
    cbv beta iota delta [format_in format_is]; decide_closed; cbv beta iota.
  all: try (intros E; simplify_eq; reflexivity).
  all: try (destruct (int v) as [z|]; [ | discriminate ];
            intros E; simplify_eq; reflexivity).
  - destruct (strtobool_cases (str v)) as [E|[E|E]]; rewrite E; intros H; simplify_eq;
      reflexivity.
  - destruct (float v) as [f|]; [ | discriminate ]. intros E; simplify_eq. reflexivity.
Qed.

(** The checks of the write path after the conversions read the
    configuration only, not the stored value. *)
Lemma validate_write_converted (self : Characteristic) (v w x : pyval) :
  validate_write self v = Ok w -> validate_write (with_value self x) w = Ok w.
Proof.
  unfold validate_write, rbind. cbn [perms format with_value].
  destruct (authorize_write (perms self)); [ | discriminate ].
  destruct (try_except (convert_input (format self) v) is_ValueError invalid_value)
    as [w'|] eqn:Ec; [ | discriminate ].
  apply try_except_ok in Ec.
  change (validate_number (with_value self x)) with (validate_number self).
  change (validate_opaque (with_value self x)) with (validate_opaque self).
  change (validate_string (with_value self x)) with (validate_string self).
  intros E.
  assert (w' = w).
  { revert E. repeat (step_match; try discriminate). all: congruence. }
  subst w'. rewrite (convert_input_converted _ _ _ Ec). cbn [try_except]. exact E.
Qed.

(** X2.  Writing back what a successful write stored succeeds and stores
    the same. *)
Theorem set_value_idempotent (self self' : Characteristic) (new_val : pyval) :
  set_value new_val self = (Ok tt, self') ->
  set_value (value self') self' = (Ok tt, self').
Proof.
  rewrite set_value_validate_write.
  destruct (validate_write self new_val) as [w|] eqn:E; [ | discriminate ].
  intros H. injection H as <-. cbn [value with_value].
  rewrite set_value_validate_write, (validate_write_converted _ _ _ w E).
  reflexivity.
Qed.

Lemma set_value_idempotent_witness :
  set_value (PStr "50") level = (Ok tt, with_value level (PInt 50))
  /\ set_value (PInt 50) (with_value level (PInt 50)) = (Ok tt, with_value level (PInt 50)).
Proof.
  assert (E : set_value (PStr "50") level = (Ok tt, with_value level (PInt 50)))
    by (vm_compute; reflexivity).
  split; [ exact E | ].
  exact (set_value_idempotent level (with_value level (PInt 50)) (PStr "50") E).
Defined.

(** X3.  The two pipelines agree on a boolean: the lenient one yields 1 or 0
    exactly when the strict one stores it, and fails with a
    [FormatError] exactly when the strict one does. *)
Theorem bool_pipelines_agree (self : Characteristic) (val : pyval) :
  format_is (format self) Fbool = true ->
  has_perm paired_write (perms self) = true ->
  match check_convert_value val self with
  | Ok w => (w = PInt 0 \/ w = PInt 1) /\ set_value val self = (Ok tt, with_value self w)
  | Raise e => e = no_valid val self /\ set_value val self = (Raise invalid_value, self)
  end.
Proof.
  intros Hf Hp. rewrite set_value_validate_write.
  unfold check_convert_value, validate_write, authorize_write, convert_input.
  rewrite Hp, Hf. apply format_is_eq in Hf. rewrite Hf.
  cbv beta iota delta [format_in format_is NUMBER_TYPES INTEGER_TYPES app]. decide_closed.
  cbv beta iota delta [rbind try_except].
  destruct (strtobool_cases (str val)) as [E|[E|E]]; rewrite E; cbv beta iota;
    cbn [is_ValueError Z.eqb negb]; auto.
Qed.

Lemma bool_pipelines_agree_witness :
  format_is (format switch) Fbool = true
  /\ has_perm paired_write (perms switch) = true
  /\ check_convert_value (PStr "on") switch = Ok (PInt 1)
  /\ set_value (PStr "on") switch = (Ok tt, with_value switch (PInt 1)).
Proof.
  split; [ reflexivity | ]. split; [ reflexivity | ]. split; [ reflexivity | ].
  exact (proj2 (bool_pipelines_agree switch (PStr "on") eq_refl eq_refl)).
Defined.

(** X4.  The strict path caps a text at [maxLen] characters and stores it
    as it is; the lenient pipeline has no cap. *)
Theorem string_length_cap (self : Characteristic) (s : string) :
  format_is (format self) Fstring = true ->
  has_perm paired_write (perms self) = true ->
  set_value (PStr s) self
  = (if maxLen self <? str_len s then (Raise invalid_value, self)
     else (Ok tt, with_value self (PStr s)))
  /\ check_convert_value (PStr s) self = Ok (PStr s).
Proof.
  intros Hf Hp. rewrite set_value_validate_write.
  unfold check_convert_value, validate_write, authorize_write, convert_input,
    validate_string, reject_if.
  rewrite Hp, Hf. apply format_is_eq in Hf. rewrite Hf.
  cbv beta iota delta [format_in format_is NUMBER_TYPES INTEGER_TYPES app]. decide_closed.
  cbv beta iota delta [rbind try_except len].
  split; [ | reflexivity ].
  by destruct (maxLen self <? str_len s).
Qed.

Lemma string_length_cap_witness :
  format_is (format label) Fstring = true
  /\ has_perm paired_write (perms label) = true
  /\ set_value (PStr "kitchen") label = (Ok tt, with_value label (PStr "kitchen"))
  /\ check_convert_value (PStr "kitchen") label = Ok (PStr "kitchen").
Proof.
  split; [ reflexivity | ]. split; [ reflexivity | ].
  exact (string_length_cap label "kitchen" eq_refl eq_refl).
Defined.

(** X5.  The lenient pipeline changes boolean and numeric candidates only:
    in every other format a candidate it accepts is returned as it is,
    and where the format is neither [data] nor [tlv8] every candidate is
    accepted. *)
Theorem lenient_passes_through (char : Characteristic) (val : pyval) :
  format_is (format char) Fbool = false ->
  format_in (format char) NUMBER_TYPES = false ->
  (forall w, check_convert_value val char = Ok w -> w = val)
  /\ (format_is (format char) Fdata = false -> format_is (format char) Ftlv8 = false ->
      check_convert_value val char = Ok val).
Proof.
  intros Hb Hn. unfold check_convert_value. rewrite Hb, Hn.
  cbv beta iota delta [rbind]. split.
  - intros w. repeat (step_match; try discriminate). all: congruence.
  - intros -> ->. reflexivity.
Qed.

Lemma lenient_passes_through_witness :
  format_is (format label) Fbool = false
  /\ format_in (format label) NUMBER_TYPES = false
  /\ check_convert_value (PInt 3) label = Ok (PInt 3).
Proof.
  split; [ reflexivity | ]. split; [ reflexivity | ].
  exact (proj2 (lenient_passes_through label (PInt 3) eq_refl eq_refl) eq_refl eq_refl).
Defined.

(** X6.  The numeric constraints bind numeric formats only: in any other
    format a write has the same outcome whatever the bounds, the step
    and the enumerations are. *)
Theorem constraints_numeric_only (self : Characteristic) (new_val : pyval)
    (lo hi step : option num) (vv : option (list pyval)) (vr : option (num * num)) :
  format_in (format self) NUMBER_TYPES = false ->
  let other := with_constraints (with_valid_values self vv vr) lo hi step in
  fst (set_value new_val other) = fst (set_value new_val self)
  /\ value (snd (set_value new_val other)) = value (snd (set_value new_val self)).
Proof.
  intros Hf other. rewrite !set_value_validate_write.
  assert (E : validate_write other new_val = validate_write self new_val).
  { unfold validate_write. subst other.
    cbn [perms format with_constraints with_valid_values]. rewrite Hf.
    reflexivity. }
  rewrite E. destruct (validate_write self new_val); split; reflexivity.
Qed.

Lemma constraints_numeric_only_witness :
  format_in (format label) NUMBER_TYPES = false
  /\ fst (set_value (PStr "a")
            (with_constraints (with_valid_values label (Some [ PStr "b" ]) None)
               (Some (NInt 5)) None None))
     = Ok tt.
Proof.
  split; [ reflexivity | ].
  exact (proj1 (constraints_numeric_only label (PStr "a") (Some (NInt 5)) None None
                  (Some [ PStr "b" ]) None eq_refl)).
Defined.

Lemma set_value_ok (self self' : Characteristic) (new_val : pyval) :
  set_value new_val self = (Ok tt, self') ->
  validate_write self new_val = Ok (value self') /\ self' = with_value self (value self').
Proof.
  rewrite set_value_validate_write.
  destruct (validate_write self new_val) as [w|]; [ | discriminate ].
  intros H. injection H as <-. split; reflexivity.
Qed.

Lemma validate_write_convert (self : Characteristic) (v w : pyval) :
  validate_write self v = Ok w -> convert_input (format self) v = Ok w.
Proof.
  unfold validate_write, rbind.
  destruct (authorize_write (perms self)); [ | discriminate ].
  destruct (try_except (convert_input (format self) v) is_ValueError invalid_value)
    as [w'|] eqn:Ec; [ | discriminate ].
  apply try_except_ok in Ec. rewrite Ec.
  repeat (step_match; try discriminate). all: congruence.
Qed.

(** X7.  What a successful write stores: [int(new_val)] in an integer
    format, [float(new_val)] in the float format, the 1 or 0 of
    [strtobool(str(new_val))] in the boolean format, and the candidate
    itself in every other format; nothing but [value] changes. *)
Theorem set_value_stores_converted (self self' : Characteristic) (new_val : pyval) :
  set_value new_val self = (Ok tt, self') ->
  self' = with_value self (value self')
  /\ (format_in (format self) INTEGER_TYPES = true ->
      exists z, int new_val = Ok z /\ value self' = PInt z)
  /\ (format_is (format self) Ffloat = true ->
      exists f, float new_val = Ok f /\ value self' = PFloat f)
  /\ (format_is (format self) Fbool = true ->
      exists z, strtobool (str new_val) = Ok z /\ value self' = PInt z /\ (z = 0 \/ z = 1))
  /\ (format_in (format self) NUMBER_TYPES = false -> format_is (format self) Fbool = false ->
      value self' = new_val).
Proof.
  intros E. apply set_value_ok in E as [E Hs]. split; [ exact Hs | ].
  apply validate_write_convert in E. revert E. generalize (value self'). intros w.
  unfold convert_input, rbind.
  destruct (format self) as [[]|];
    cbv beta iota delta [format_in format_is NUMBER_TYPES INTEGER_TYPES app];
    decide_closed; cbv beta iota.
  all: intros E; repeat split; try discriminate.
  all: try (intros _ _; congruence).
  all: try (intros _; destruct (int new_val) as [z|]; [ | discriminate ];
            exists z; split; [ reflexivity | congruence ]).
  - intros _. destruct (strtobool_cases (str new_val)) as [H|[H|H]]; rewrite H in E |- *;
      [ exists 1 | exists 0 | discriminate ]; repeat split; try congruence; lia.
  - intros _. destruct (float new_val) as [f|]; [ | discriminate ].
    exists f. split; [ reflexivity | congruence ].
Qed.

Lemma set_value_stores_converted_witness :
  set_value (PStr "50") level = (Ok tt, with_value level (PInt 50))
  /\ with_value level (PInt 50) = with_value level (value (with_value level (PInt 50))).
Proof.
  assert (E : set_value (PStr "50") level = (Ok tt, with_value level (PInt 50)))
    by (vm_compute; reflexivity).
  split; [ exact E | ].
  exact (proj1 (set_value_stores_converted level (with_value level (PInt 50)) (PStr "50") E)).
Defined.

(** X8.  Only a [ValueError] of the conversions becomes a [FormatError]:
    any other exception they raise leaves [set_value] as it is, so
    [None] or a list written to a numeric characteristic raises
    [TypeError]. *)
Theorem set_value_conversion_errors (self : Characteristic) (new_val : pyval) (e : exn) :
  has_perm paired_write (perms self) = true ->
  convert_input (format self) new_val = Raise e ->
  set_value new_val self = (Raise (if is_ValueError e then invalid_value else e), self)
  /\ (format_in (format self) NUMBER_TYPES = true ->
      match new_val with
      | PNone | PList _ | PDictEmpty => e = TypeError
      | _ => True
      end).
Proof.
  intros Hp Hc. split.
  - rewrite set_value_validate_write. unfold validate_write, authorize_write.
    rewrite Hp, Hc. cbn [rbind try_except]. by destruct (is_ValueError e).
  - intros Hf. revert Hc. unfold convert_input, rbind.
    destruct (format self) as [[]|]; try discriminate Hf;
      cbv beta iota delta [format_in format_is]; decide_closed; cbv beta iota;
      destruct new_val; try done; cbn [int float]; congruence.
Qed.

Lemma set_value_conversion_errors_witness :
  has_perm paired_write (perms level) = true
  /\ convert_input (format level) (PStr "abc") = Raise ValueError
  /\ set_value (PStr "abc") level = (Raise invalid_value, level).
Proof.
  split; [ reflexivity | ]. split; [ reflexivity | ].
  exact (proj1 (set_value_conversion_errors level (PStr "abc") ValueError eq_refl eq_refl)).
Defined.

Lemma validate_number_ok (self : Characteristic) (w : pyval) :
  validate_number self w = Ok tt ->
  (forall lo, minValue self = Some lo -> py_lt_num w lo = Ok false)
  /\ (forall hi, maxValue self = Some hi -> num_lt_py hi w = Ok false)
  /\ (forall step, minStep self = Some step ->
        exists tmp,
          match minValue self with Some lo => py_sub_num w lo | None => Ok w end = Ok tmp
          /\ off_step tmp step = Ok false)
  /\ (forall vv, valid_values self = Some vv -> py_in w vv = true)
  /\ (forall r0 r1, valid_values_range self = Some (r0, r1) -> py_between r0 w r1 = Ok true).
Proof.
  unfold validate_number, rbind, reject_if. intros E.
  destruct (match minValue self with Some _ => _ | None => _ end) as [[]|] eqn:E1;
    [ | discriminate ].
  destruct (match maxValue self with Some _ => _ | None => _ end) as [[]|] eqn:E2;
    [ | discriminate ].
  destruct (match minStep self with Some _ => _ | None => _ end) as [[]|] eqn:E3;
    [ | discriminate ].
  destruct (match valid_values self with Some _ => _ | None => _ end) as [[]|] eqn:E4;
    [ | discriminate ].
  split; [ | split; [ | split; [ | split ] ] ].
  - intros lo Hlo. rewrite Hlo in E1. by destruct (py_lt_num w lo) as [[]|].
  - intros hi Hhi. rewrite Hhi in E2. by destruct (num_lt_py hi w) as [[]|].
  - intros step Hst. rewrite Hst in E3. clear E1.
    destruct (match minValue self with Some lo => py_sub_num w lo | None => Ok w end)
      as [tmp|]; [ | discriminate ].
    exists tmp. split; [ reflexivity | ]. by destruct (off_step tmp step) as [[]|].
  - intros vv Hvv. rewrite Hvv in E4. by destruct (py_in w vv).
  - intros r0 r1 Hvr. rewrite Hvr in E. by destruct (py_between r0 w r1) as [[]|].
Qed.

(** X9.  After a successful write to a numeric characteristic the stored
    value is a number that meets every constraint of the
    characteristic: not below the minimum, not above the maximum, on
    the step grid, in [valid_values] and within [valid_values_range]. *)
Theorem write_establishes_constraints (self self' : Characteristic) (new_val : pyval) :
  set_value new_val self = (Ok tt, self') ->
  format_in (format self') NUMBER_TYPES = true ->
  (exists x, as_num (value self') = Some x)
  /\ (forall lo, minValue self' = Some lo -> py_lt_num (value self') lo = Ok false)
  /\ (forall hi, maxValue self' = Some hi -> num_lt_py hi (value self') = Ok false)
  /\ (forall step, minStep self' = Some step ->
        exists tmp,
          match minValue self' with
          | Some lo => py_sub_num (value self') lo
          | None => Ok (value self')
          end = Ok tmp
          /\ off_step tmp step = Ok false)
  /\ (forall vv, valid_values self' = Some vv -> py_in (value self') vv = true)
  /\ (forall r0 r1, valid_values_range self' = Some (r0, r1) ->
        py_between r0 (value self') r1 = Ok true).
Proof.
  intros E. apply set_value_ok in E as [E Hs].
  pose proof (validate_write_convert _ _ _ E) as Hc.
  rewrite Hs. cbn [format minValue maxValue minStep valid_values valid_values_range
                    value with_value].
  generalize dependent (value self'). intros w E _ Hc Hf.
  split; [ exact (convert_input_numeric _ _ _ Hf Hc) | ].
  apply validate_number_ok. exact (validate_write_numeric _ _ _ Hf Hc E).
Qed.

Lemma write_establishes_constraints_witness :
  set_value (PInt 50) level = (Ok tt, with_value level (PInt 50))
  /\ format_in (format (with_value level (PInt 50))) NUMBER_TYPES = true
  /\ exists x, as_num (value (with_value level (PInt 50))) = Some x.
Proof.
  assert (E : set_value (PInt 50) level = (Ok tt, with_value level (PInt 50)))
    by (vm_compute; reflexivity).
  split; [ exact E | ]. split; [ reflexivity | ].
  exact (proj1 (write_establishes_constraints level (with_value level (PInt 50)) (PInt 50)
                  E eq_refl)).
Defined.

(** ** Calls *)
Lemma get_value_read_only : read_only get_value.
Proof. unfold get_value. auto 10 with frame. Qed.

Lemma get_value_for_ble_read_only : read_only get_value_for_ble.
Proof.
  unfold get_value_for_ble. apply read_only_bind; [ apply get_value_read_only | ].
  intros value. apply read_only_bind; [ auto with frame | ]. intros fmt.
  repeat match goal with
         | |- read_only (if ?b then _ else _) => destruct b
         end; auto 10 with frame.
Qed.

Lemma set_value_after (self : Characteristic) (new_val : pyval) :
  snd (set_value new_val self) = self
  \/ exists w, snd (set_value new_val self) = with_value self w.
Proof.
  rewrite set_value_validate_write.
  destruct (validate_write self new_val) as [w|]; [ right; by exists w | by left ].
Qed.

Lemma set_value_from_ble_after (self : Characteristic) (value : pyval) :
  snd (set_value_from_ble value self) = self
  \/ exists w, snd (set_value_from_ble value self) = with_value self w.
Proof.
  rewrite set_value_from_ble_decoded.
  destruct (ble_decode (format self) value); [ apply set_value_after | by left ].
Qed.

Lemma after_configuration (c : call) (self : Characteristic) :
  configuration (after c self) = configuration self
  /\ (is_write c = false -> value (after c self) = value self)
  /\ (is_set_events c = false -> ev (after c self) = ev self).
Proof.
  destruct c as [v|v|v| |]; cbn [after is_write is_set_events].
  - destruct (set_value_after self v) as [->|[w ->]]; repeat split; done.
  - destruct (set_value_from_ble_after self v) as [->|[w ->]]; repeat split; done.
  - repeat split; done.
  - rewrite get_value_read_only. repeat split; done.
  - rewrite get_value_for_ble_read_only. repeat split; done.
Qed.

Lemma after_all_configuration (cs : list call) (self : Characteristic) :
  configuration (after_all cs self) = configuration self.
Proof.
  unfold after_all. revert self. induction cs as [|c cs IH]; intros self; [ done | ].
  cbn [fold_left]. rewrite IH. apply after_configuration.
Qed.

Lemma configuration_fields (a b : Characteristic) :
  configuration a = configuration b ->
  iid a = iid b /\ type a = type b /\ perms a = perms b /\ format a = format b
  /\ description a = description b /\ unit a = unit b
  /\ minValue a = minValue b /\ maxValue a = maxValue b /\ minStep a = minStep b
  /\ maxLen a = maxLen b /\ maxDataLen a = maxDataLen b
  /\ valid_values a = valid_values b /\ valid_values_range a = valid_values_range b.
Proof.
  unfold configuration, with_ev, with_value.
  cbn [iid type perms format ev description unit minValue maxValue minStep maxLen maxDataLen
         valid_values valid_values_range value].
  intros H. injection H. intros. repeat split; assumption.
Qed.

(** X10.  No sequence of calls changes the configuration of a
    characteristic: only [value] and [ev] ever change, [value] by the
    two writes alone and [ev] by [set_events] alone.  So an object that
    [__init__] made keeps its identifier, [maxLen = 64],
    [maxDataLen = 2097152] and [valid_values_range = None] for good. *)
Theorem configuration_is_constant (cs : list call) (self : Characteristic) :
  configuration (after_all cs self) = configuration self
  /\ (forall c, is_write c = false -> value (after c self) = value self)
  /\ (forall c, is_set_events c = false -> ev (after c self) = ev self)
  /\ forall get_uuid characteristics next_id characteristic_type kwargs,
       self = snd (__init__ get_uuid characteristics next_id characteristic_type kwargs) ->
       iid (after_all cs self) = next_id
       /\ maxLen (after_all cs self) = 64
       /\ maxDataLen (after_all cs self) = 2097152
       /\ valid_values_range (after_all cs self) = None.
Proof.
  split; [ apply after_all_configuration | ].
  split; [ intros c; apply after_configuration | ].
  split; [ intros c; apply after_configuration | ].
  intros get_uuid characteristics next_id characteristic_type kwargs ->.
  pose proof (configuration_fields _ _
                (after_all_configuration cs
                   (snd (__init__ get_uuid characteristics next_id characteristic_type kwargs))))
    as (-> & _ & _ & _ & _ & _ & _ & _ & _ & -> & -> & _ & ->).
  unfold __init__. rewrite init_value_spec. repeat split; reflexivity.
Qed.

Lemma configuration_is_constant_witness :
  level = snd (__init__ no_uuid ∅ 1 "example"
                 (example_kwargs (Some [ paired_read; paired_write ]) Fuint8
                    (Some (NInt 0)) (Some (NInt 100)) (Some (NInt 10)) (Some (PInt 0))))
  /\ (let after_calls :=
        after_all [ call_set_value (PInt 50); call_set_events (PBool true);
                    call_set_value (PInt 55) ] level in
      iid after_calls = 1 /\ maxLen after_calls = 64 /\ maxDataLen after_calls = 2097152
      /\ valid_values_range after_calls = None).
Proof.
  split; [ reflexivity | ].
  exact (proj2 (proj2 (proj2
           (configuration_is_constant
              [ call_set_value (PInt 50); call_set_events (PBool true);
                call_set_value (PInt 55) ] level)))
           no_uuid ∅ 1 "example"%string _ eq_refl).
Defined.

(** ** Descriptors *)
Lemma put_if_lookup_congr (c : bool) (key k : string) (v : field) (d1 d2 : gmap string field) :
  d1 !! k = d2 !! k -> put_if c key v d1 !! k = put_if c key v d2 !! k.
Proof.
  intros H. destruct c; cbn [put_if]; [ | done ].
  destruct (decide (key = k)) as [->|Hne].
  - by rewrite !lookup_insert_eq.
  - by rewrite !lookup_insert_ne.
Qed.

Lemma put_if_lookup_none (c : bool) (key k : string) (v : field) (d : gmap string field) :
  key <> k -> d !! k = None -> put_if c key v d !! k = None.
Proof. intros Hne H. by rewrite lookup_put_if_ne. Qed.

Ltac descriptor_fields :=
  unfold to_accessory_and_service_list;
  cbn [with_value with_ev minValue maxValue minStep perms format value ev
         description unit valid_values maxLen iid type].

Ltac descriptor_field :=
  descriptor_fields;
  repeat first
    [ rewrite lookup_put_if
    | rewrite lookup_put_if_ne by done
    | rewrite lookup_insert_ne by done
    | rewrite lookup_singleton_ne by done ].

(** The descriptor after [self.value = w]. *)
Lemma descriptor_with_value (self : Characteristic) (w : pyval) :
  to_accessory_and_service_list (with_value self w)
  = put_if (has_perm paired_read (perms self)) "value" (f_value w)
      (to_accessory_and_service_list self).
Proof.
  apply map_eq. intros k.
  destruct (decide ("value"%string = k)) as [<-|Hk].
  - rewrite lookup_put_if. descriptor_lookup.
    by destruct (has_perm paired_read (perms self)).
  - rewrite lookup_put_if_ne by done. descriptor_fields.
    do 8 apply put_if_lookup_congr. by rewrite !lookup_put_if_ne.
Qed.

(** The descriptor after [self.ev = v]. *)
Lemma descriptor_with_ev (self : Characteristic) (v : pyval) :
  to_accessory_and_service_list (with_ev self v)
  = if truthy v then <[ "ev"%string := f_value v ]> (to_accessory_and_service_list self)
    else delete "ev"%string (to_accessory_and_service_list self).
Proof.
  apply map_eq. intros k.
  destruct (decide ("ev"%string = k)) as [<-|Hk].
  - destruct (truthy v) eqn:E.
    + rewrite lookup_insert_eq. descriptor_field. by rewrite E.
    + rewrite lookup_delete_eq. descriptor_field. by rewrite E.
  - assert (H : to_accessory_and_service_list (with_ev self v) !! k
                = to_accessory_and_service_list self !! k).
    { descriptor_fields. do 7 apply put_if_lookup_congr.
      rewrite !(lookup_put_if_ne _ "ev"%string) by done. reflexivity. }
    rewrite H. destruct (truthy v); [ by rewrite lookup_insert_ne | by rewrite lookup_delete_ne ].
Qed.

(** X11.  A successful write shows in the descriptor of a readable
    characteristic as the new ["value"], and in nothing else; the
    descriptor of a characteristic that cannot be read does not change. *)
Theorem descriptor_after_write (self self' : Characteristic) (new_val : pyval) :
  set_value new_val self = (Ok tt, self') ->
  to_accessory_and_service_list self'
  = if has_perm paired_read (perms self)
    then <[ "value"%string := f_value (value self') ]> (to_accessory_and_service_list self)
    else to_accessory_and_service_list self.
Proof.
  rewrite set_value_validate_write.
  destruct (validate_write self new_val) as [w|]; [ | discriminate ].
  intros H. injection H as <-. cbn [value with_value].
  rewrite descriptor_with_value. by destruct (has_perm paired_read (perms self)).
Qed.

Lemma descriptor_after_write_witness :
  set_value (PInt 50) level = (Ok tt, with_value level (PInt 50))
  /\ to_accessory_and_service_list (with_value level (PInt 50)) !! "value"%string
     = Some (f_value (PInt 50)).
Proof.
  assert (E : set_value (PInt 50) level = (Ok tt, with_value level (PInt 50)))
    by (vm_compute; reflexivity).
  split; [ exact E | ].
  rewrite (descriptor_after_write level (with_value level (PInt 50)) (PInt 50) E).
  apply lookup_insert_eq.
Defined.

(** X12.  [set_events] asks for no permission and checks nothing: whatever
    it is given becomes [ev], and the descriptor then holds it under
    ["ev"] if it is truthy and has no ["ev"] if it is not; nothing else
    in the descriptor changes. *)
Theorem descriptor_after_set_events (self : Characteristic) (new_val : pyval) :
  set_events new_val self = (Ok tt, with_ev self new_val)
  /\ to_accessory_and_service_list (with_ev self new_val)
     = if truthy new_val
       then <[ "ev"%string := f_value new_val ]> (to_accessory_and_service_list self)
       else delete "ev"%string (to_accessory_and_service_list self).
Proof. split; [ reflexivity | apply descriptor_with_ev ]. Qed.

Lemma descriptor_base (self : Characteristic) (k : string) :
  k ∉ descriptor_keys -> to_accessory_and_service_list self !! k = None.
Proof.
  intros Hk. unfold descriptor_keys in Hk.
  repeat (apply not_elem_of_cons in Hk as [? Hk]).
  unfold to_accessory_and_service_list.
  rewrite !lookup_put_if_ne by done.
  rewrite !lookup_insert_ne by done. by rewrite lookup_singleton_ne.
Qed.

(** X13.  Every descriptor holds the type, the identifier, the permissions
    and the format of the characteristic, and no key outside the
    thirteen of [descriptor_keys]; ["maxLen"] is there for the string
    format alone, and an empty description, unit or [valid_values] is
    left out like an absent one. *)
Theorem descriptor_shape (self : Characteristic) :
  let d := to_accessory_and_service_list self in
  d !! "type"%string = Some (f_text (type self))
  /\ d !! "iid"%string = Some (f_int (iid self))
  /\ d !! "perms"%string = Some (f_perms (perms self))
  /\ d !! "format"%string = Some (f_format (format self))
  /\ (forall k, is_Some (d !! k) -> k ∈ descriptor_keys)
  /\ d !! "maxLen"%string
     = (if negb (maxLen self =? 0) && format_is (format self) Fstring
        then Some (f_int (maxLen self)) else None)
  /\ (description self = Some ""%string -> d !! "description"%string = None)
  /\ (unit self = Some ""%string -> d !! "unit"%string = None)
  /\ (valid_values self = Some [] -> d !! "valid-values"%string = None).
Proof.
  intros d. subst d.
  split; [ by descriptor_lookup | ]. split; [ by descriptor_lookup | ].
  split; [ by descriptor_lookup | ]. split; [ by descriptor_lookup | ].
  split.
  { intros k [v Hv]. destruct (decide (k ∈ descriptor_keys)) as [|Hn]; [ done | ].
    rewrite (descriptor_base self k Hn) in Hv. discriminate. }
  split.
  { descriptor_lookup.
    assert (format_in (format self) [ Fstring ] = format_is (format self) Fstring) as ->.
    { destruct (format self) as [[]|]; by vm_compute. }
    by destruct (_ && _). }
  split; [ intros E; descriptor_lookup; by rewrite E | ].
  split; [ intros E; descriptor_lookup; by rewrite E | ].
  intros E; descriptor_lookup; by rewrite E.
Qed.

(** X14.  [get_meta] gives the format and, for the string format, a
    ["maxLen"] of 64 whatever the object's own [maxLen]; on an object
    that [__init__] made, after any calls, that is what the descriptor
    says too. *)
Theorem meta_agrees_with_descriptor (get_uuid : string -> option string)
    (characteristics : gmap string Config) (next_id : Z) (characteristic_type : string)
    (kwargs : Config) (cs : list call) :
  let self :=
    after_all cs (snd (__init__ get_uuid characteristics next_id characteristic_type kwargs)) in
  get_meta self !! "format"%string = to_accessory_and_service_list self !! "format"%string
  /\ get_meta self !! "maxLen"%string = to_accessory_and_service_list self !! "maxLen"%string
  /\ get_meta self !! "maxLen"%string
     = (if format_is (format self) Fstring then Some (f_int 64) else None)
  /\ forall k, is_Some (get_meta self !! k) -> k = "format"%string \/ k = "maxLen"%string.
Proof.
  intros self.
  assert (Hlen : maxLen self = 64).
  { subst self.
    pose proof (configuration_fields _ _
                  (after_all_configuration cs
                     (snd (__init__ get_uuid characteristics next_id characteristic_type kwargs))))
      as (_ & _ & _ & _ & _ & _ & _ & _ & _ & -> & _).
    unfold __init__. rewrite init_value_spec. reflexivity. }
  assert (Hm : get_meta self !! "maxLen"%string
               = if format_is (format self) Fstring then Some (f_int 64) else None).
  { unfold get_meta. destruct (format_is (format self) Fstring);
      [ by rewrite lookup_insert_eq | by rewrite lookup_singleton_ne ]. }
  split; [ | split; [ | split; [ exact Hm | ] ] ].
  - unfold get_meta. descriptor_lookup.
    destruct (format_is (format self) Fstring);
      [ rewrite lookup_insert_ne by done | ]; by rewrite !lookup_insert_eq || by rewrite lookup_singleton_eq.
  - rewrite Hm. descriptor_lookup. rewrite Hlen.
    assert (format_in (format self) [ Fstring ] = format_is (format self) Fstring) as ->.
    { destruct (format self) as [[]|]; by vm_compute. }
    by destruct (format_is (format self) Fstring).
  - intros k [v Hv]. unfold get_meta in Hv.
    destruct (decide (k = "format"%string)) as [|H1]; [ by left | ].
    destruct (decide (k = "maxLen"%string)) as [|H2]; [ by right | ].
    destruct (format_is (format self) Fstring);
      [ rewrite lookup_insert_ne in Hv by done | ];
      rewrite lookup_singleton_ne in Hv by done; discriminate.
Qed.

(** ** The compact transport *)
Lemma Z_of_byte_of_Z (z : Z) : Z_of_byte (byte_of_Z z) = z mod 256.
Proof.
  unfold Z_of_byte, byte_of_Z.
  pose proof (Z.mod_pos_bound z 256 ltac:(lia)) as Hb.
  destruct (Byte.of_N (Z.to_N (z mod 256))) as [b|] eqn:E.
  - apply Byte.to_of_N in E. rewrite E. lia.
  - apply Byte.of_N_None_iff in E. lia.
Qed.

Lemma Z_of_byte_range (b : byte) : 0 <= Z_of_byte b < 256.
Proof. unfold Z_of_byte. pose proof (Byte.to_N_bounded b). lia. Qed.

Lemma le_bytes_length (n : nat) (z : Z) : List.length (struct.le_bytes n z) = n.
Proof. revert z. induction n as [|n IH]; intros z; cbn; [ done | by rewrite IH ]. Qed.

(** Little-endian bytes read back give the number modulo [256^n]. *)
Lemma le_value_le_bytes (n : nat) (z : Z) :
  struct.le_value (struct.le_bytes n z) = z mod 256 ^ Z.of_nat n.
Proof.
  revert z. induction n as [|n IH]; intros z.
  - cbn. by rewrite Z.mod_1_r.
  - cbn [struct.le_bytes]. unfold struct.le_value in *. cbn [fold_right].
    rewrite IH, Z_of_byte_of_Z.
    rewrite Nat2Z.inj_succ, Z.pow_succ_r by lia.
    rewrite Z.rem_mul_r; [ reflexivity | lia | apply Z.pow_pos_nonneg; lia ].
Qed.

Lemma le_value_range (bs : list byte) :
  0 <= struct.le_value bs < 256 ^ Z.of_nat (List.length bs).
Proof.
  unfold struct.le_value. induction bs as [|b bs IH]; cbn [fold_right List.length].
  - change (256 ^ Z.of_nat 0) with 1. lia.
  - pose proof (Z_of_byte_range b). rewrite Nat2Z.inj_succ, Z.pow_succ_r by lia. lia.
Qed.

Lemma ble_decode_code (f : CharacteristicFormats) (c : struct.code) (value : pyval) :
  ble_code f = Some c -> ble_decode (Some f) value = struct.unpack c value.
Proof. destruct f; intros [= <-]; reflexivity. Qed.

(** X15.  Over the compact transport a fixed-width format takes exactly the
    bytes of its width: any other length raises [struct.error] -- not a
    [FormatError] -- before permissions are looked at and leaves the
    object as it was; the right length decodes to a value in the range
    of the format. *)
Theorem ble_decode_fixed_width (self : Characteristic) (f : CharacteristicFormats)
    (c : struct.code) (bs : list byte) :
  format self = Some f ->
  ble_code f = Some c ->
  (List.length bs <> struct.calcsize c ->
   set_value_from_ble (PBytes bs) self = (Raise struct_error, self))
  /\ (List.length bs = struct.calcsize c ->
      exists v,
        ble_decode (format self) (PBytes bs) = Ok v
        /\ set_value_from_ble (PBytes bs) self = set_value v self
        /\ match c with
           | struct.c_bool => exists b, v = PBool b
           | struct.c_f => exists x, v = PFloat x
           | struct.c_i => exists n, v = PInt n /\ - 2 ^ 31 <= n < 2 ^ 31
           | _ => exists n, v = PInt n /\ 0 <= n < 256 ^ Z.of_nat (struct.calcsize c)
           end).
Proof.
  intros Hf Hc. rewrite set_value_from_ble_decoded, Hf, (ble_decode_code f c _ Hc).
  unfold struct.unpack. split.
  - intros Hl. apply Nat.eqb_neq in Hl. rewrite Hl. reflexivity.
  - intros Hl. pose proof (le_value_range bs) as Hr. rewrite Hl in Hr.
    rewrite <- Hl, Nat.eqb_refl. cbn [negb]. rewrite Hl.
    destruct c; (eexists; split; [ reflexivity | split; [ reflexivity | ] ]);
      try (eexists; split; [ reflexivity | exact Hr ]);
      try (eexists; reflexivity).
    eexists. split; [ reflexivity | ].
    change (256 ^ Z.of_nat (struct.calcsize struct.c_i)) with (2 ^ 32) in Hr.
    change (2 ^ 32) with 4294967296 in *. change (2 ^ 31) with 2147483648.
    destruct (struct.le_value bs <? 2147483648) eqn:E;
      [ apply Z.ltb_lt in E | apply Z.ltb_ge in E ]; lia.
Qed.

Lemma ble_decode_fixed_width_witness :
  format level = Some Fuint8
  /\ ble_code Fuint8 = Some struct.c_B
  /\ set_value_from_ble (PBytes [ x32; x00 ]) level = (Raise struct_error, level).
Proof.
  split; [ reflexivity | ]. split; [ reflexivity | ].
  refine (proj1 (ble_decode_fixed_width level Fuint8 struct.c_B [ x32; x00 ] eq_refl eq_refl) _).
  discriminate.
Defined.

(** X16.  A signed-32 value goes out as its four little-endian bytes and the
    bytes come back as the same integer, so that the write which follows
    the decoding is the write of the value itself; a stored integer
    outside the signed-32 range cannot be encoded. *)
Theorem ble_int_round_trip (self : Characteristic) (z : Z) :
  format_is (format self) Fint = true ->
  has_perm paired_read (perms self) = true ->
  value self = PInt z ->
  (- 2 ^ 31 <= z < 2 ^ 31 ->
   get_value_for_ble self = (Ok (PBytes (struct.le_bytes 4 z)), self)
   /\ ble_decode (format self) (PBytes (struct.le_bytes 4 z)) = Ok (PInt z)
   /\ set_value_from_ble (PBytes (struct.le_bytes 4 z)) self = set_value (PInt z) self)
  /\ (~ - 2 ^ 31 <= z < 2 ^ 31 -> get_value_for_ble self = (Raise struct_error, self)).
Proof.
  intros Hf Hp Hv.
  assert (Hg : get_value_for_ble self
               = (match struct.pack struct.c_i (PInt z) with
                  | Ok bs => Ok (PBytes bs)
                  | Raise e => Raise e
                  end, self)).
  { unfold get_value_for_ble, get_value. run_M. rewrite Hp, Hv. cbv beta iota.
    rewrite Hf. apply format_is_eq in Hf. rewrite Hf.
    cbv beta iota delta [format_is]. decide_closed. cbv beta iota.
    cbn [int]. by destruct (struct.pack struct.c_i (PInt z)). }
  rewrite Hg. unfold struct.pack. cbn [as_num struct.calcsize].
  change (2 ^ 31) with 2147483648.
  split.
  - intros Hr.
    match goal with |- context [if ?b then _ else _] => destruct b eqn:E end;
      [ | apply andb_false_iff in E as [E|E]; [ apply Z.leb_gt in E | apply Z.leb_gt in E ]; lia ].
    split; [ reflexivity | ].
    assert (Hd : ble_decode (format self) (PBytes (struct.le_bytes 4 z)) = Ok (PInt z)).
    { apply format_is_eq in Hf. rewrite Hf.
      change (ble_decode (Some Fint)) with (struct.unpack struct.c_i).
      unfold struct.unpack. rewrite le_bytes_length. cbn [struct.calcsize Nat.eqb negb].
      rewrite le_value_le_bytes. change (256 ^ Z.of_nat 4) with 4294967296.
      change (2 ^ 31) with 2147483648. change (2 ^ 32) with 4294967296.
      f_equal. f_equal.
      destruct (Z_lt_le_dec z 0) as [L|L].
      - rewrite <- (Z.mod_add z 1 4294967296) by lia.
        rewrite Z.mod_small by lia.
        destruct (z + 1 * 4294967296 <? 2147483648) eqn:E1;
          [ apply Z.ltb_lt in E1 | apply Z.ltb_ge in E1 ]; lia.
      - rewrite Z.mod_small by lia.
        destruct (z <? 2147483648) eqn:E1; [ done | apply Z.ltb_ge in E1; lia ]. }
    split; [ exact Hd | ]. rewrite set_value_from_ble_decoded, Hd. reflexivity.
  - intros Hr.
    match goal with |- context [if ?b then _ else _] => destruct b eqn:E end; [ | reflexivity ].
    apply andb_true_iff in E as [E1 E2]. apply Z.leb_le in E1, E2. lia.
Qed.

Lemma ble_int_round_trip_witness :
  format_is (format offset_value) Fint = true
  /\ has_perm paired_read (perms offset_value) = true
  /\ value offset_value = PInt (-5)
  /\ get_value_for_ble offset_value = (Ok (PBytes [ xfb; xff; xff; xff ]), offset_value)
  /\ set_value_from_ble (PBytes [ xfb; xff; xff; xff ]) offset_value = (Ok tt, offset_value).
Proof.
  split; [ reflexivity | ]. split; [ reflexivity | ]. split; [ reflexivity | ].
  destruct (proj1 (ble_int_round_trip offset_value (-5) eq_refl eq_refl eq_refl) ltac:(lia))
    as (H1 & _ & H3).
  split; [ exact H1 | ]. etransitivity; [ exact H3 | ]. vm_compute. reflexivity.
Defined.

Lemma with_value_value (self : Characteristic) : with_value self (value self) = self.
Proof. by destruct self. Qed.

(** X17.  A boolean goes out as one byte, 1 or 0, and the byte comes back as
    the 1 or 0 that the write path stores for it; a stored value that
    is no boolean text cannot be encoded, and that is a [FormatError]. *)
Theorem ble_bool_round_trip (self : Characteristic) :
  format_is (format self) Fbool = true ->
  has_perm paired_read (perms self) = true ->
  (forall b : bool,
     value self = PInt (if b then 1 else 0) \/ value self = PBool b ->
     get_value_for_ble self = (Ok (PBytes [ if b then x01 else x00 ]), self)
     /\ ble_decode (format self) (PBytes [ if b then x01 else x00 ]) = Ok (PBool b)
     /\ (has_perm paired_write (perms self) = true ->
         set_value_from_ble (PBytes [ if b then x01 else x00 ]) self
         = (Ok tt, with_value self (PInt (if b then 1 else 0)))))
  /\ (strtobool (str (value self)) = Raise ValueError ->
      get_value_for_ble self
      = (Raise (FormatError (FE_no_valid (value self) (format self))), self)).
Proof.
  intros Hf Hp.
  assert (Hg : get_value_for_ble self
               = (match try_except (strtobool (str (value self))) is_ValueError
                          (FormatError (FE_no_valid (value self) (format self))) with
                  | Ok val => Ok (PBytes [ if truthy (PInt val) then x01 else x00 ])
                  | Raise e => Raise e
                  end, self)).
  { unfold get_value_for_ble, get_value. run_M. rewrite Hp. cbv beta iota. rewrite Hf.
    by destruct (try_except _ _ _). }
  split.
  - intros b Hv.
    assert (Hs : strtobool (str (value self)) = Ok (if b then 1 else 0)).
    { destruct Hv as [-> | ->]; by destruct b. }
    split; [ rewrite Hg, Hs; by destruct b | ].
    assert (Hd : ble_decode (format self) (PBytes [ if b then x01 else x00 ]) = Ok (PBool b)).
    { apply format_is_eq in Hf. rewrite Hf. by destruct b. }
    split; [ exact Hd | ]. intros Hw.
    rewrite set_value_from_ble_decoded, Hd, set_value_validate_write.
    unfold validate_write, authorize_write, convert_input. rewrite Hw.
    apply format_is_eq in Hf. rewrite Hf.
    cbv beta iota delta [format_in format_is NUMBER_TYPES INTEGER_TYPES app]. decide_closed.
    by destruct b.
  - intros Hs. rewrite Hg, Hs. reflexivity.
Qed.

Lemma ble_bool_round_trip_witness :
  format_is (format switch) Fbool = true
  /\ has_perm paired_read (perms switch) = true
  /\ get_value_for_ble switch = (Ok (PBytes [ x00 ]), switch)
  /\ set_value_from_ble (PBytes [ x00 ]) switch = (Ok tt, switch).
Proof.
  split; [ reflexivity | ]. split; [ reflexivity | ].
  destruct (proj1 (ble_bool_round_trip switch eq_refl eq_refl) false (or_introl eq_refl))
    as (H1 & _ & H3).
  split; [ exact H1 | exact (H3 eq_refl) ].
Defined.

Lemma decode_utf8_encode (s : string) :
  utf8_valid (List.length (encode s)) (List.map Z_of_byte (encode s)) = true ->
  decode_utf8 (encode s) = Ok s.
Proof.
  intros H. unfold decode_utf8. rewrite H. unfold encode, text, chars.
  rewrite List.map_map.
  rewrite (List.map_ext _ (fun a => a)) by (intros a; apply ascii_of_byte_of_ascii).
  by rewrite List.map_id, string_of_list_ascii_of_string.
Qed.

(** X18.  A text goes out as its UTF-8 bytes and the bytes come back as the
    same text, so that the write which follows the decoding is the
    write of the text itself; bytes that are not UTF-8 raise
    [UnicodeDecodeError], not a [FormatError], and change nothing. *)
Theorem ble_string_round_trip (self : Characteristic) :
  format_is (format self) Fstring = true ->
  (forall s,
     has_perm paired_read (perms self) = true ->
     value self = PStr s ->
     get_value_for_ble self = (Ok (PBytes (encode s)), self)
     /\ (utf8_valid (List.length (encode s)) (List.map Z_of_byte (encode s)) = true ->
         ble_decode (format self) (PBytes (encode s)) = Ok (PStr s)
         /\ set_value_from_ble (PBytes (encode s)) self = set_value (PStr s) self))
  /\ (forall bs,
        utf8_valid (List.length bs) (List.map Z_of_byte bs) = false ->
        set_value_from_ble (PBytes bs) self = (Raise UnicodeDecodeError, self)).
Proof.
  intros Hf. split.
  - intros s Hp Hv. split.
    + unfold get_value_for_ble, get_value. run_M. rewrite Hp, Hv. cbv beta iota.
      rewrite Hf. apply format_is_eq in Hf. rewrite Hf.
      cbv beta iota delta [format_is]. decide_closed. reflexivity.
    + intros Hu.
      assert (Hd : ble_decode (format self) (PBytes (encode s)) = Ok (PStr s)).
      { apply format_is_eq in Hf. rewrite Hf.
        unfold ble_decode, format_is. decide_closed. cbv beta iota.
        by rewrite (decode_utf8_encode s Hu). }
      split; [ exact Hd | ]. by rewrite set_value_from_ble_decoded, Hd.
  - intros bs Hu. rewrite set_value_from_ble_decoded.
    apply format_is_eq in Hf. rewrite Hf.
    unfold ble_decode, format_is. decide_closed. cbv beta iota.
    unfold decode_utf8. rewrite Hu. reflexivity.
Qed.

Lemma ble_string_round_trip_witness :
  format_is (format label) Fstring = true
  /\ set_value_from_ble (PBytes [ xff ]) label = (Raise UnicodeDecodeError, label).
Proof.
  split; [ reflexivity | ].
  exact (proj2 (ble_string_round_trip label eq_refl) [ xff ] eq_refl).
Defined.

(** ** Bytes written to a format without a wire encoding *)
Lemma hex_digit_sextet (n : Z) :
  0 <= n < 16 ->
  let c := Z_of_byte (byte_of_ascii (PyFloat.hex_digit n)) in
  (c =? 61) = false /\ exists v, base64.sextet c = Some v.
Proof.
  intros Hn.
  assert (H : List.forallb
                (fun k =>
                   let c := Z_of_byte (byte_of_ascii (PyFloat.hex_digit (Z.of_nat k))) in
                   negb (c =? 61)
                   && match base64.sextet c with Some _ => true | None => false end)
                (List.seq 0 16) = true) by (vm_compute; reflexivity).
  rewrite List.forallb_forall in H. specialize (H (Z.to_nat n)).
  rewrite Z2Nat.id in H by lia.
  specialize (H ltac:(apply List.in_seq; lia)). cbv zeta in H |- *.
  apply andb_true_iff in H as [H1 H2]. split.
  - by destruct (_ =? 61).
  - destruct (base64.sextet _) as [v|]; [ by exists v | discriminate ].
Qed.

Lemma hex_codes_cons (b : byte) (bs : list byte) :
  hex_codes (b :: bs)
  = Z_of_byte (byte_of_ascii (PyFloat.hex_digit (Z_of_byte b / 16 mod 16)))
    :: Z_of_byte (byte_of_ascii (PyFloat.hex_digit (Z_of_byte b mod 16)))
    :: hex_codes bs.
Proof.
  unfold hex_codes, encode, bytes_hex, text, chars.
  rewrite !list_ascii_of_string_of_list_ascii. reflexivity.
Qed.

Lemma a2b_pair (c1 c2 : Z) (r : list Z) (l p : Z) (out : list byte) (v1 v2 : Z) :
  (c1 =? 61) = false -> base64.sextet c1 = Some v1 ->
  (c2 =? 61) = false -> base64.sextet c2 = Some v2 ->
  base64.a2b (c1 :: c2 :: r) 0 l p out
  = base64.a2b r 2 (Z.land v2 15) 0 (byte_of_Z (v1 * 4 + v2 / 16) :: out)
  /\ base64.a2b (c1 :: c2 :: r) 2 l p out
     = base64.a2b r 0 0 0
         (byte_of_Z (Z.land v1 3 * 64 + v2) :: byte_of_Z (l * 16 + v1 / 4) :: out).
Proof.
  intros H1 S1 H2 S2. cbn [base64.a2b]. rewrite H1, S1, H2, S2. split; reflexivity.
Qed.

(** The base64 decoder on hex text: two characters a byte make a whole
    number of groups of four exactly when the bytes are even in number. *)
Lemma a2b_hex (bs : list byte) :
  (forall l p out,
     if Nat.even (List.length bs) then
       exists res, base64.a2b (hex_codes bs) 0 l p out = Ok res
                   /\ 2 * Z.of_nat (List.length res)
                      = 2 * Z.of_nat (List.length out) + 3 * Z.of_nat (List.length bs)
     else base64.a2b (hex_codes bs) 0 l p out = Raise binascii_Error)
  /\ (forall l p out,
        if Nat.even (List.length bs) then
          base64.a2b (hex_codes bs) 2 l p out = Raise binascii_Error
        else
          exists res, base64.a2b (hex_codes bs) 2 l p out = Ok res
                      /\ 2 * Z.of_nat (List.length res)
                         = 2 * Z.of_nat (List.length out) + 3 * Z.of_nat (List.length bs) + 1).
Proof.
  induction bs as [|b bs [IH0 IH2]].
  - split; intros l p out; cbn.
    + exists (List.rev out). split; [ reflexivity | ]. rewrite length_rev. lia.
    + reflexivity.
  - pose proof (Z_of_byte_range b) as Hb.
    destruct (hex_digit_sextet (Z_of_byte b / 16 mod 16)
                ltac:(apply Z.mod_pos_bound; lia)) as [H1 [v1 S1]].
    destruct (hex_digit_sextet (Z_of_byte b mod 16)
                ltac:(apply Z.mod_pos_bound; lia)) as [H2 [v2 S2]].
    cbv zeta in H1, S1, H2, S2.
    rewrite hex_codes_cons. cbn [List.length]. rewrite Nat.even_succ, <- Nat.negb_even.
    split; intros l p out.
    + rewrite (proj1 (a2b_pair _ _ _ l p out v1 v2 H1 S1 H2 S2)).
      specialize (IH2 (Z.land v2 15) 0 (byte_of_Z (v1 * 4 + v2 / 16) :: out)).
      destruct (Nat.even (List.length bs)); cbn [negb]; [ exact IH2 | ].
      destruct IH2 as [res [E L]]. exists res. split; [ exact E | ].
      cbn [List.length] in L. lia.
    + rewrite (proj2 (a2b_pair _ _ _ l p out v1 v2 H1 S1 H2 S2)).
      specialize (IH0 0 0
                    (byte_of_Z (Z.land v1 3 * 64 + v2) :: byte_of_Z (l * 16 + v1 / 4) :: out)).
      destruct (Nat.even (List.length bs)); cbn [negb]; [ | exact IH0 ].
      destruct IH0 as [res [E L]]. exists res. split; [ exact E | ].
      cbn [List.length] in L. lia.
Qed.

(** [set_value_from_ble] on bytes, for each format without a wire
    encoding of its own. *)
Lemma ble_hex_text_by_format (self : Characteristic) (bs : list byte) :
  has_perm paired_write (perms self) = true ->
  match format self with
  | Some Fdata =>
      set_value_from_ble (PBytes bs) self
      = if Nat.even (List.length bs) then
          if 2 * maxDataLen self <? 3 * Z.of_nat (List.length bs)
          then (Raise invalid_value, self)
          else (Ok tt, with_value self (PStr (bytes_hex bs)))
        else (Raise invalid_value, self)
  | Some Ftlv8 | Some Farray | Some Fdict | None =>
      set_value_from_ble (PBytes bs) self = (Ok tt, with_value self (PStr (bytes_hex bs)))
  | _ => True
  end.
Proof.
  intros Hp.
  destruct (format self) as [[]|] eqn:Hf; try exact I;
    rewrite set_value_from_ble_decoded, Hf;
    cbv beta iota delta [ble_decode format_is]; decide_closed; cbv beta iota;
    rewrite set_value_validate_write;
    unfold validate_write, authorize_write, convert_input, validate_opaque, base64.decodebytes;
    rewrite Hp, Hf;
    cbv beta iota delta [format_in format_is NUMBER_TYPES INTEGER_TYPES app];
    decide_closed; cbv beta iota delta [rbind try_except]; try reflexivity.
  fold (hex_codes bs).
  pose proof (proj1 (a2b_hex bs) 0 0 []) as H.
  destruct (Nat.even (List.length bs)).
  - destruct H as [res [-> L]]. cbn [List.length] in L. unfold reject_if.
    assert ((maxDataLen self <? Z.of_nat (List.length res))
            = (2 * maxDataLen self <? 3 * Z.of_nat (List.length bs))) as ->.
    { destruct (maxDataLen self <? Z.of_nat (List.length res)) eqn:E1;
        destruct (2 * maxDataLen self <? 3 * Z.of_nat (List.length bs)) eqn:E2;
        rewrite ?Z.ltb_lt, ?Z.ltb_ge in E1, E2; try reflexivity; lia. }
    by destruct (2 * maxDataLen self <? 3 * Z.of_nat (List.length bs)).
  - rewrite H. reflexivity.
Qed.

(** X19.  Bytes written over the compact transport to a format that is
    neither fixed-width nor string become their hex text, and that text
    goes through the strict write path.  For the [data] format the path
    reads it as base64: hex text is base64 text exactly when the bytes
    are even in number, so an odd number of bytes is refused with a
    [FormatError]; for [tlv8], [array], [dict] and no format the hex
    text is stored unchecked. *)
Theorem ble_hex_text (self : Characteristic) (bs : list byte) :
  has_perm paired_write (perms self) = true ->
  (format self = Some Fdata ->
   set_value_from_ble (PBytes bs) self
   = if Nat.even (List.length bs) then
       if 2 * maxDataLen self <? 3 * Z.of_nat (List.length bs)
       then (Raise invalid_value, self)
       else (Ok tt, with_value self (PStr (bytes_hex bs)))
     else (Raise invalid_value, self))
  /\ (format self ∈ [ Some Ftlv8; Some Farray; Some Fdict; None ] ->
      set_value_from_ble (PBytes bs) self = (Ok tt, with_value self (PStr (bytes_hex bs)))).
Proof.
  intros Hp. pose proof (ble_hex_text_by_format self bs Hp) as H.
  split.
  - intros Hf. by rewrite Hf in H.
  - intros Hf. rewrite !elem_of_cons, elem_of_nil in Hf.
    destruct Hf as [Hf|[Hf|[Hf|[Hf|[]]]]]; by rewrite Hf in H.
Qed.

Lemma ble_hex_text_witness :
  has_perm paired_write (perms blob) = true
  /\ set_value_from_ble (PBytes [ x01 ]) blob = (Raise invalid_value, blob)
  /\ set_value_from_ble (PBytes [ x01; x02 ]) blob = (Ok tt, with_value blob (PStr "0102")).
Proof.
  split; [ reflexivity | ].
  split; [ exact (proj1 (ble_hex_text blob [ x01 ] eq_refl) eq_refl)
         | exact (proj1 (ble_hex_text blob [ x01; x02 ] eq_refl) eq_refl) ].
Defined.

(** ** The two pipelines, one after the other *)
Lemma num_lt_int (a b : Z) : num_lt (NInt a) (NInt b) = (a <? b).
Proof.
  unfold num_lt, num_compare. cbn [extended_of_num].
  change (Z.min 0 0) with 0. change (2 ^ (0 - 0)) with 1. rewrite !Z.mul_1_r.
  unfold Z.ltb. by destruct (a ?= b).
Qed.

Lemma integer_is_number (fmt : option CharacteristicFormats) :
  format_in fmt INTEGER_TYPES = true -> format_in fmt NUMBER_TYPES = true.
Proof. destruct fmt as [[]|]; by vm_compute. Qed.

Lemma convert_input_int (fmt : option CharacteristicFormats) (z : Z) :
  format_in fmt INTEGER_TYPES = true -> convert_input fmt (PInt z) = Ok (PInt z).
Proof.
  intros Hf. destruct fmt as [[]|]; try discriminate Hf;
    unfold convert_input, rbind; cbv beta iota delta [format_in format_is]; decide_closed;
    reflexivity.
Qed.

(** The strict pipeline on an integer, for a characteristic with
    integer bounds and step and no enumeration. *)
Lemma validate_write_int (self : Characteristic) (lo hi s r : Z) :
  format_in (format self) INTEGER_TYPES = true ->
  has_perm paired_write (perms self) = true ->
  minValue self = Some (NInt lo) -> maxValue self = Some (NInt hi) ->
  minStep self = Some (NInt s) ->
  valid_values self = None -> valid_values_range self = None ->
  s <> 0 -> Z.abs (r - lo) < 10 ^ 28 -> Z.abs s < 10 ^ 28 ->
  validate_write self (PInt r)
  = if (r <? lo) || (hi <? r) || negb ((r - lo) mod s =? 0)
    then Raise invalid_value else Ok (PInt r).
Proof.
  intros Hf Hp Hlo Hhi Hst Hvv Hvr Hs Hr Hs'.
  pose proof (integer_is_number _ Hf) as Hn.
  unfold validate_write, authorize_write. rewrite Hp, (convert_input_int _ _ Hf).
  cbn [rbind try_except].
  rewrite Hn, (numeric_not_data _ Hn), (numeric_not_string _ Hn).
  unfold validate_number, py_lt_num, num_lt_py, py_sub_num, reject_if.
  rewrite Hlo, Hhi, Hst, Hvv, Hvr.
  cbn [as_num rbind num_sub pyval_of_num]. rewrite !num_lt_int.
  destruct (r <? lo); [ reflexivity | ].
  destruct (hi <? r); [ reflexivity | ]. cbn [orb].
  rewrite off_step_int by done. cbn [rbind].
  by destruct (negb ((r - lo) mod s =? 0)).
Qed.

(** The lenient pipeline on an integer, for a characteristic with
    small integer bounds and step: clamped, then snapped. *)
Lemma check_convert_value_int (char : Characteristic) (val : pyval) (v lo hi s : Z) :
  format_in (format char) INTEGER_TYPES = true ->
  minValue char = Some (NInt lo) -> maxValue char = Some (NInt hi) ->
  minStep char = Some (NInt s) ->
  decimal.new val = Ok (decimal.of_Z v) ->
  0 <= lo < 10 ^ 5 -> 0 < s < 10 ^ 5 -> lo <= hi < lo + 10 ^ 5 ->
  check_convert_value val char = Ok (PInt (snap lo s (Z.min hi (Z.max lo v)))).
Proof.
  intros Hf Hlo Hhi Hst Hd Bl Bs Bh.
  assert (Hc : clamp_decimal (minValue char) (maxValue char) (decimal.of_Z v)
               = Ok (decimal.of_Z (Z.min hi (Z.max lo v)))).
  { unfold clamp_decimal. rewrite Hlo, Hhi. cbn [decimal.of_num].
    rewrite max_of_Z. cbn [rbind]. apply min_of_Z. }
  rewrite (check_convert_value_step char val (NInt s) _ _ (integer_is_number _ Hf) Hst Hd Hc).
  rewrite Hlo. cbn [the decimal.of_num].
  rewrite nearest_multiple_exact by lia. cbn [rbind].
  unfold cast_decimal. change decimal.ROUND_HALF_EVEN with (decimal.rounding getcontext).
  rewrite cast_of_Z. unfold cast. by rewrite Hf.
Qed.

Lemma snap_facts (lo s c : Z) :
  0 < s -> lo <= c ->
  lo <= snap lo s c /\ (snap lo s c - lo) mod s = 0 /\ 2 * Z.abs (snap lo s c - c) <= s.
Proof.
  intros Hs Hc. unfold snap.
  pose proof (half_up_bounds (c - lo) s Hs) as [B1 B2].
  pose proof (half_up_nonneg (c - lo) s Hs ltac:(lia)) as B0.
  set (N := half_up (c - lo) s) in *. clearbody N.
  assert (0 <= N * s) by (apply Z.mul_nonneg_nonneg; lia).
  split; [ lia | ]. split.
  - replace (lo + N * s - lo) with (N * s) by lia. apply Z.mod_mul. lia.
  - lia.
Qed.

Lemma snap_on_grid (lo s r : Z) : 0 < s -> (r - lo) mod s = 0 -> snap lo s r = r.
Proof.
  intros Hs Hr. unfold snap.
  pose proof (Z.div_mod (r - lo) s ltac:(lia)) as E. rewrite Hr in E.
  replace (r - lo) with ((r - lo) / s * s) at 1 by lia.
  rewrite half_up_mul by done. lia.
Qed.

(** X20.  When the maximum lies on the step grid that starts at the minimum,
    what the lenient pipeline yields for an integer is within the
    bounds, on the grid and at most half a step from the clamped
    candidate; the strict write path accepts it, and the lenient
    pipeline leaves it as it is. *)
Theorem lenient_then_strict (char : Characteristic) (val : pyval) (v lo hi s : Z) :
  format_in (format char) INTEGER_TYPES = true ->
  has_perm paired_write (perms char) = true ->
  minValue char = Some (NInt lo) -> maxValue char = Some (NInt hi) ->
  minStep char = Some (NInt s) ->
  valid_values char = None -> valid_values_range char = None ->
  decimal.new val = Ok (decimal.of_Z v) ->
  0 <= lo < 10 ^ 5 -> 0 < s < 10 ^ 5 -> lo <= hi < lo + 10 ^ 5 ->
  (hi - lo) mod s = 0 ->
  exists r,
    check_convert_value val char = Ok (PInt r)
    /\ lo <= r <= hi /\ (r - lo) mod s = 0
    /\ 2 * Z.abs (r - Z.min hi (Z.max lo v)) <= s
    /\ set_value (PInt r) char = (Ok tt, with_value char (PInt r))
    /\ check_convert_value (PInt r) char = Ok (PInt r).
Proof.
  intros Hf Hp Hlo Hhi Hst Hvv Hvr Hd Bl Bs Bh Hg.
  set (c := Z.min hi (Z.max lo v)).
  exists (snap lo s c).
  destruct (snap_facts lo s c ltac:(lia) ltac:(lia)) as (F1 & F2 & F3).
  assert (F4 : snap lo s c <= hi).
  { unfold snap in *.
    pose proof (half_up_bounds (c - lo) s ltac:(lia)) as [B1 B2].
    pose proof (Z.div_mod (hi - lo) s ltac:(lia)) as E. rewrite Hg in E.
    assert (half_up (c - lo) s <= (hi - lo) / s) by nia. nia. }
  change (10 ^ 5) with 100000 in *.
  split; [ by apply check_convert_value_int | ].
  split; [ lia | ]. split; [ done | ]. split; [ done | ].
  split.
  - rewrite set_value_validate_write.
    rewrite (validate_write_int char lo hi s) by
      (try done; try lia; change (10 ^ 28) with 10000000000000000000000000000; lia).
    rewrite F2. cbn [Z.eqb negb].
    destruct (snap lo s c <? lo) eqn:E1; [ apply Z.ltb_lt in E1; lia | ].
    destruct (hi <? snap lo s c) eqn:E2; [ apply Z.ltb_lt in E2; lia | ]. reflexivity.
  - rewrite (check_convert_value_int char (PInt (snap lo s c)) (snap lo s c) lo hi s)
      by (try done; lia).
    rewrite Z.max_r, Z.min_r by lia. by rewrite snap_on_grid by (done || lia).
Qed.

Lemma lenient_then_strict_witness :
  check_convert_value (PInt 55) level = Ok (PInt 60)
  /\ set_value (PInt 60) level = (Ok tt, with_value level (PInt 60)).
Proof.
  destruct (lenient_then_strict level (PInt 55) 55 0 100 10
              eq_refl eq_refl eq_refl eq_refl eq_refl eq_refl eq_refl eq_refl
              ltac:(lia) ltac:(lia) ltac:(lia) eq_refl)
    as (r & H1 & _ & _ & _ & H2 & _).
  assert (r = 60) as -> by (vm_compute in H1; congruence).
  split; [ exact H1 | exact H2 ].
Defined.

(** X21.  The lenient pipeline snaps after it clamps, so a maximum off the
    step grid does not bound what it yields: when the maximum is half a
    step or more above the last grid point, every candidate at or above
    the maximum is taken to the grid point above the maximum, which the
    strict write path then refuses. *)
Theorem lenient_exceeds_max (char : Characteristic) (val : pyval) (v lo hi s : Z) :
  format_in (format char) INTEGER_TYPES = true ->
  has_perm paired_write (perms char) = true ->
  minValue char = Some (NInt lo) -> maxValue char = Some (NInt hi) ->
  minStep char = Some (NInt s) ->
  valid_values char = None -> valid_values_range char = None ->
  decimal.new val = Ok (decimal.of_Z v) ->
  0 <= lo < 10 ^ 5 -> 0 < s < 10 ^ 5 -> lo <= hi < lo + 10 ^ 5 ->
  s <= 2 * ((hi - lo) mod s) -> hi <= v ->
  let r := lo + ((hi - lo) / s + 1) * s in
  check_convert_value val char = Ok (PInt r)
  /\ hi < r
  /\ set_value (PInt r) char = (Raise invalid_value, char).
Proof.
  intros Hf Hp Hlo Hhi Hst Hvv Hvr Hd Bl Bs Bh Hg Hv r.
  pose proof (Z.div_mod (hi - lo) s ltac:(lia)) as E.
  pose proof (Z.mod_pos_bound (hi - lo) s ltac:(lia)) as Hm.
  assert (Hr : hi < r) by (subst r; nia).
  change (10 ^ 5) with 100000 in *.
  assert (Hq : 0 <= (hi - lo) / s) by (apply Z.div_pos; lia).
  split; [ | split; [ exact Hr | ] ].
  - rewrite (check_convert_value_int char val v lo hi s) by (try done; lia).
    rewrite Z.max_r, Z.min_l by lia. do 2 f_equal. unfold snap. subst r. do 2 f_equal.
    apply half_up_unique; [ lia | nia ].
  - rewrite set_value_validate_write.
    rewrite (validate_write_int char lo hi s) by
      (try done; try lia; change (10 ^ 28) with 10000000000000000000000000000; subst r; nia).
    destruct (r <? lo); [ reflexivity | ].
    destruct (hi <? r) eqn:E2; [ reflexivity | apply Z.ltb_ge in E2; lia ].
Qed.

Lemma lenient_exceeds_max_witness :
  check_convert_value (PInt 95) uneven = Ok (PInt 100)
  /\ set_value (PInt 100) uneven = (Raise invalid_value, uneven).
Proof.
  destruct (lenient_exceeds_max uneven (PInt 95) 95 0 95 10
              eq_refl eq_refl eq_refl eq_refl eq_refl eq_refl eq_refl eq_refl
              ltac:(lia) ltac:(lia) ltac:(lia) ltac:(vm_compute; discriminate) ltac:(lia))
    as (H1 & _ & H2).
  split; [ exact H1 | exact H2 ].
Defined.

(** X22.  An integer that the strict write path accepts is one that the
    lenient pipeline leaves as it is: on such a value the two pipelines
    agree. *)
Theorem strict_valid_is_lenient_fixed (char char' : Characteristic) (z lo hi s : Z) :
  format_in (format char) INTEGER_TYPES = true ->
  minValue char = Some (NInt lo) -> maxValue char = Some (NInt hi) ->
  minStep char = Some (NInt s) ->
  valid_values char = None -> valid_values_range char = None ->
  0 <= lo < 10 ^ 5 -> 0 < s < 10 ^ 5 -> lo <= hi < lo + 10 ^ 5 ->
  set_value (PInt z) char = (Ok tt, char') ->
  lo <= z <= hi /\ (z - lo) mod s = 0
  /\ check_convert_value (PInt z) char = Ok (PInt z).
Proof.
  intros Hf Hlo Hhi Hst Hvv Hvr Bl Bs Bh E.
  assert (Hp : has_perm paired_write (perms char) = true).
  { rewrite set_value_validate_write in E.
    destruct (validate_write char (PInt z)) as [w|] eqn:Ev; [ | discriminate ].
    exact (validate_write_authorized _ _ _ Ev). }
  change (10 ^ 5) with 100000 in *.
  assert (Hr : lo <= z <= hi).
  { rewrite set_value_validate_write in E.
    destruct (validate_write char (PInt z)) as [w|] eqn:Ev; [ | discriminate ].
    pose proof (validate_write_convert _ _ _ Ev) as Hc.
    rewrite (convert_input_int _ _ Hf) in Hc. injection Hc as <-.
    pose proof (validate_write_numeric _ _ _ (integer_is_number _ Hf)
                  (convert_input_int _ _ Hf) Ev) as Hn.
    destruct (validate_number_in_range _ _ Hn) as (H1 & H2 & _).
    specialize (H1 _ Hlo). specialize (H2 _ Hhi).
    unfold py_lt_num, num_lt_py in H1, H2. cbn [as_num] in H1, H2.
    rewrite num_lt_int in H1, H2.
    injection H1 as H1. injection H2 as H2.
    apply Z.ltb_ge in H1, H2. lia. }
  rewrite set_value_validate_write in E.
  rewrite (validate_write_int char lo hi s) in E by
    (try done; try lia; change (10 ^ 28) with 10000000000000000000000000000; lia).
  destruct (z <? lo) eqn:E1; [ discriminate | ].
  destruct (hi <? z) eqn:E2; [ discriminate | ]. cbn [orb] in E.
  destruct ((z - lo) mod s =? 0) eqn:E3; [ | discriminate ].
  apply Z.eqb_eq in E3.
  split; [ exact Hr | ]. split; [ exact E3 | ].
  rewrite (check_convert_value_int char (PInt z) z lo hi s) by (try done; lia).
  rewrite Z.max_r, Z.min_r by lia. by rewrite snap_on_grid by (done || lia).
Qed.

Lemma strict_valid_is_lenient_fixed_witness :
  set_value (PInt 50) level = (Ok tt, with_value level (PInt 50))
  /\ check_convert_value (PInt 50) level = Ok (PInt 50).
Proof.
  assert (E : set_value (PInt 50) level = (Ok tt, with_value level (PInt 50)))
    by (vm_compute; reflexivity).
  split; [ exact E | ].
  exact (proj2 (proj2 (strict_valid_is_lenient_fixed level (with_value level (PInt 50))
                         50 0 100 10 eq_refl eq_refl eq_refl eq_refl eq_refl eq_refl
                         ltac:(lia) ltac:(lia) ltac:(lia) E))).
Defined.

(** X23.  On opaque data the two pipelines agree on what is base64 -- both
    answer a text that is not with a [FormatError] -- and both keep the
    text, not the decoded bytes; the size cap [maxDataLen] is the
    strict path's alone. *)
Theorem data_pipelines (char : Characteristic) (s : string) :
  format_is (format char) Fdata = true ->
  check_convert_value (PStr s) char
  = match base64.decodebytes (encode s) with
    | Ok _ => Ok (PStr s)
    | Raise _ => Raise (no_valid (PStr s) char)
    end
  /\ (has_perm paired_write (perms char) = true ->
      set_value (PStr s) char
      = match base64.decodebytes (encode s) with
        | Ok byte_data =>
            if maxDataLen char <? Z.of_nat (List.length byte_data)
            then (Raise invalid_value, char)
            else (Ok tt, with_value char (PStr s))
        | Raise _ => (Raise invalid_value, char)
        end).
Proof.
  intros Hf. split.
  - unfold check_convert_value. rewrite Hf. apply format_is_eq in Hf. rewrite Hf.
    cbv beta iota delta [format_in format_is NUMBER_TYPES INTEGER_TYPES app]. decide_closed.
    cbv beta iota delta [rbind try_except].
    destruct (base64.decodebytes (encode s)) as [b|e] eqn:E; [ reflexivity | ].
    by rewrite (decodebytes_raises _ _ E).
  - intros Hp. rewrite set_value_validate_write.
    unfold validate_write, authorize_write, convert_input, validate_opaque, reject_if.
    rewrite Hp, Hf. apply format_is_eq in Hf. rewrite Hf.
    cbv beta iota delta [format_in format_is NUMBER_TYPES INTEGER_TYPES app]. decide_closed.
    cbv beta iota delta [rbind try_except].
    destruct (base64.decodebytes (encode s)) as [b|e]; [ | reflexivity ].
    by destruct (maxDataLen char <? Z.of_nat (List.length b)).
Qed.

Lemma data_pipelines_witness :
  format_is (format blob) Fdata = true
  /\ check_convert_value (PStr "aGk=") blob = Ok (PStr "aGk=")
  /\ check_convert_value (PStr "aGk") blob = Raise (no_valid (PStr "aGk") blob).
Proof.
  split; [ reflexivity | ].
  split; [ exact (proj1 (data_pipelines blob "aGk=" eq_refl))
         | exact (proj1 (data_pipelines blob "aGk" eq_refl)) ].
Defined.

(** X24.  What the lenient pipeline yields for a numeric format is of the
    type of the format: an [int] for the integer formats, a [float]
    for the float format. *)
Theorem lenient_result_type (char : Characteristic) (val w : pyval) :
  format_in (format char) NUMBER_TYPES = true ->
  check_convert_value val char = Ok w ->
  if format_in (format char) INTEGER_TYPES then exists z, w = PInt z
  else exists f, w = PFloat f.
Proof.
  intros Hf. unfold check_convert_value.
  rewrite (numeric_not_bool _ Hf), Hf, (numeric_not_data _ Hf), (numeric_not_tlv8 _ Hf).
  unfold rbind.
  destruct (try_except (decimal.new val) is_ValueError (no_valid val char)) as [d|];
    [ | discriminate ].
  destruct (match minValue char with Some lo => _ | None => _ end) as [d1|];
    [ | discriminate ].
  destruct (match maxValue char with Some hi => _ | None => _ end) as [d2|];
    [ | discriminate ].
  destruct (match minStep char with Some step => _ | None => _ end) as [d3|];
    [ | discriminate ].
  destruct (format_in (format char) INTEGER_TYPES).
  - destruct (decimal.to_integral_value _ d3) as [n|]; [ | discriminate ].
    destruct (decimal.__int__ n) as [z|]; [ | discriminate ].
    intros [= <-]. by exists z.
  - destruct (decimal.__float__ d3) as [f|]; [ | discriminate ].
    intros [= <-]. by exists f.
Qed.

Lemma lenient_result_type_witness :
  format_in (format level) NUMBER_TYPES = true
  /\ check_convert_value (PStr "55.4") level = Ok (PInt 60)
  /\ exists z, PInt 60 = PInt z.
Proof.
  split; [ reflexivity | ].
  assert (E : check_convert_value (PStr "55.4") level = Ok (PInt 60))
    by (vm_compute; reflexivity).
  split; [ exact E | ].
  exact (lenient_result_type level (PStr "55.4") (PInt 60) eq_refl E).
Defined.

(** X25.  The default that [__init__] computes for an integer format lies
    within the integer bounds that are set, provided the minimum does
    not exceed the maximum. *)
Theorem constructed_default_in_range (get_uuid : string -> option string)
    (characteristics : gmap string Config) (next_id : Z) (characteristic_type : string)
    (kwargs : Config) (lo hi : option Z) :
  let self := snd (__init__ get_uuid characteristics next_id characteristic_type kwargs) in
  has_perm paired_read (perms self) = true ->
  k_value kwargs = None ->
  valid_values self = None \/ valid_values self = Some [] ->
  format_in (format self) INTEGER_TYPES = true ->
  minValue self = option_map NInt lo -> maxValue self = option_map NInt hi ->
  (forall l h, lo = Some l -> hi = Some h -> l <= h) ->
  exists x,
    value self = PInt x
    /\ (forall l, lo = Some l -> l <= x) /\ (forall h, hi = Some h -> x <= h).
Proof.
  intros self. subst self. unfold __init__.
  match goal with |- context [init_value kwargs ?c] => set (c0 := c) end. clearbody c0.
  rewrite init_value_spec.
  cbn [snd perms valid_values format minValue maxValue value with_value].
  intros Hp Hk Hvv Hf Hlo Hhi Hle. unfold initial_value. rewrite Hp, Hk, Hlo, Hhi.
  assert (Hd : format_default (format c0) = PInt 0).
  { destruct (format c0) as [[]|]; try discriminate Hf; reflexivity. }
  rewrite Hd.
  assert (Hb : forall o : option Z,
            effective_bound (option_map NInt o)
            = match o with
              | Some z => if z =? 0 then None else Some (NInt z)
              | None => None
              end).
  { intros [z|]; [ | reflexivity ]. cbn [option_map effective_bound num_truthy].
    by destruct (z =? 0). }
  rewrite !Hb.
  assert (Hgoal :
    exists x,
      match
        match lo with Some z => if z =? 0 then None else Some (NInt z) | None => None end,
        match hi with Some z => if z =? 0 then None else Some (NInt z) | None => None end
      with
      | Some lo0, Some hi0 => pyval_of_num (if num_lt hi0 lo0 then hi0 else lo0)
      | Some lo0, None => pyval_of_num lo0
      | None, Some hi0 => pyval_of_num hi0
      | None, None => PInt 0
      end = PInt x
      /\ (forall l, lo = Some l -> l <= x) /\ (forall h, hi = Some h -> x <= h)).
  { destruct lo as [l|], hi as [h|];
      try (pose proof (Hle l h eq_refl eq_refl));
      repeat match goal with
             | |- context [?z =? 0] => destruct (z =? 0) eqn:?
             end;
      rewrite ?Z.eqb_eq, ?Z.eqb_neq in *;
      rewrite ?num_lt_int;
      try match goal with
          | |- context [?a <? ?b] =>
              destruct (a <? b) eqn:?; rewrite ?Z.ltb_lt, ?Z.ltb_ge in *
          end;
      cbn [pyval_of_num];
      eexists; (split; [ reflexivity | ]); split; intros ? [= <-]; lia. }
  destruct Hvv as [-> | ->]; exact Hgoal.
Qed.

Lemma constructed_default_in_range_witness :
  exists x, value (construct capped_default_kwargs) = PInt x
            /\ (forall l, None = Some l -> l <= x) /\ (forall h, Some 100 = Some h -> x <= h).
Proof.
  exact (constructed_default_in_range no_uuid ∅ 1 "example" capped_default_kwargs
           None (Some 100) eq_refl eq_refl (or_introl eq_refl) eq_refl eq_refl eq_refl
           ltac:(intros; discriminate)).
Defined.

(** ** Where the configuration comes from *)

(** X26.  [__init__] reads the table [characteristics] under the
    resolved type alone -- the UUID that [get_uuid] gives, or the name
    itself when [get_uuid] has none: two tables with the same entry
    there make the same object, a table without an entry there counts
    as empty, and a key present in the keyword arguments is never
    looked up in the table. *)
Theorem init_reads_resolved_type (get_uuid : string -> option string)
    (characteristics characteristics' : gmap string Config) (next_id : Z)
    (characteristic_type : string) (kwargs : Config) :
  let resolved :=
    match get_uuid characteristic_type with Some u => u | None => characteristic_type end in
  let make table := __init__ get_uuid table next_id characteristic_type kwargs in
  type (snd (make characteristics)) = resolved
  /\ (characteristics !! resolved = characteristics' !! resolved ->
      make characteristics = make characteristics')
  /\ (characteristics !! resolved = None -> make characteristics = make ∅)
  /\ (forall ps, k_perms kwargs = Some ps -> perms (snd (make characteristics)) = ps)
  /\ (forall lo, k_min_value kwargs = Some lo -> minValue (snd (make characteristics)) = lo)
  /\ (forall hi, k_max_value kwargs = Some hi -> maxValue (snd (make characteristics)) = hi)
  /\ (forall st, k_min_step kwargs = Some st -> minStep (snd (make characteristics)) = st).
Proof.
  intros resolved make. subst make. cbv beta.
  assert (E : forall table table',
             table !! resolved = table' !! resolved ->
             __init__ get_uuid table next_id characteristic_type kwargs
             = __init__ get_uuid table' next_id characteristic_type kwargs).
  { intros table table' H. unfold __init__, _get_configuration. fold resolved.
    by rewrite H. }
  split; [ unfold __init__; by rewrite init_value_spec | ].
  split; [ apply E | ].
  split; [ intros H; apply E; by rewrite H, lookup_empty | ].
  repeat split; intros x Hx; unfold __init__; rewrite init_value_spec;
    cbn [snd perms minValue maxValue minStep with_value]; unfold _get_configuration;
    by rewrite Hx.
Qed.
